(** * bot-demo worker: layout reconciliation and image normalization

    A shallow embedding of [worker/doc_ai_parser.py], of the character
    tables of [worker/config.py] and of the decision and control-flow
    skeleton of [worker/image_processor.py], with the properties the
    specification states about them.

    Conventions of the embedding.
    - A Python [str] is the list of its Unicode code points ([pystr]).
    - A Python [float] coordinate is a rational ([Q]): the parser only
      compares coordinates, takes minima, maxima, differences and one
      average, so the order-theoretic content is kept and binary64
      rounding is abstracted.
    - The one float product on which a decision of the image processor
      rests, [horizontal_votes * 1.2], is modelled in IEEE 754 binary64 as
      well (module [Py64]), on the Standard Library's [SpecFloat].
    - A function that may raise returns in the exception monad [M]. *)

From Stdlib Require Import Ascii String.
From Stdlib Require Import List Bool Arith ZArith NArith QArith Qabs Qminmax.
From Stdlib Require Import Lia Lqa Permutation Sorted.
From Stdlib Require SpecFloat.
Import ListNotations.

Set Implicit Arguments.

(* ================================================================== *)
(** ** Python strings *)

Module PyStr.

(** A string is a sequence of code points. *)
Definition pystr := list N.

(** Embedding of an ASCII literal. *)
Definition py (s : string) : pystr :=
  map N_of_ascii (list_ascii_of_string s).

Definition eqb (a b : pystr) : bool :=
  if list_eq_dec N.eq_dec a b then true else false.

(** [c in s] for a one-character string [c]. *)
Definition contains (s : pystr) (c : N) : bool := existsb (N.eqb c) s.

(** Truthiness of a string: non-empty. *)
Definition truthy (s : pystr) : bool :=
  match s with [] => false | _ :: _ => true end.

(** [s.replace(c, r)] for a one-character pattern [c]. *)
Definition replace1 (c : N) (r : pystr) (s : pystr) : pystr :=
  flat_map (fun d => if N.eqb d c then r else [d]) s.

Definition is_digit (c : N) : bool := (48 <=? c)%N && (c <=? 57)%N.

(** [re.sub(r'[^0-9]', '', s)]: keep the ASCII digits only. *)
Definition digits_only (s : pystr) : pystr := filter is_digit s.

(** [sep.join(parts)]. *)
Fixpoint join (sep : pystr) (parts : list pystr) : pystr :=
  match parts with
  | [] => []
  | [p] => p
  | p :: rest => p ++ sep ++ join sep rest
  end.

End PyStr.
Import PyStr.

(* ================================================================== *)
(** ** config.py: keyword and feature-character tables *)

Module config.

(** U+30AF U+30EC U+30B8 U+30C3 U+30C8 U+652F U+6255 *)
Definition KW_CREDIT_PAYMENT : pystr :=
  [0x30AF; 0x30EC; 0x30B8; 0x30C3; 0x30C8; 0x652F; 0x6255]%N.
(** U+30AF U+30EC U+30B8 U+30C3 U+30C8 U+53D7 U+5165 *)
Definition KW_CREDIT_RECEIPT : pystr :=
  [0x30AF; 0x30EC; 0x30B8; 0x30C3; 0x30C8; 0x53D7; 0x5165]%N.
(** U+73FE U+91D1 U+652F U+6255 *)
Definition KW_CASH_PAYMENT : pystr := [0x73FE; 0x91D1; 0x652F; 0x6255]%N.
(** U+73FE U+91D1 U+53D7 U+5165 *)
Definition KW_CASH_RECEIPT : pystr := [0x73FE; 0x91D1; 0x53D7; 0x5165]%N.

Definition KEYWORDS : list pystr :=
  [KW_CREDIT_PAYMENT; KW_CREDIT_RECEIPT; KW_CASH_PAYMENT; KW_CASH_RECEIPT].

(** The sets are only iterated by [any]; a list of members is enough. *)
Definition CREDIT_CHARS : list N := [0x30AF; 0x30EC; 0x30B8; 0x30C3; 0x30C8]%N.
Definition CASH_CHARS : list N := [0x73FE; 0x91D1]%N.
Definition PAYMENT_CHARS : list N := [0x652F; 0x6255]%N.
Definition RECEIPT_CHARS : list N := [0x53D7; 0x5165]%N.

End config.

(* ================================================================== *)
(** ** doc_ai_parser.py: title normalization *)

(** [any(c in raw_title for c in chars)] *)
Definition any_in (chars : list N) (raw_title : pystr) : bool :=
  existsb (contains raw_title) chars.

Definition _normalize_title (raw_title : pystr) : pystr :=
  if negb (truthy raw_title) then raw_title
  else
    let has_credit := any_in config.CREDIT_CHARS raw_title in
    let has_cash := any_in config.CASH_CHARS raw_title in
    let has_payment := any_in config.PAYMENT_CHARS raw_title in
    let has_receipt := any_in config.RECEIPT_CHARS raw_title in
    let normalized_title := raw_title in
    let normalized_title :=
      if has_credit && negb has_cash then
        if has_payment && negb has_receipt then config.KW_CREDIT_PAYMENT
        else if has_receipt && negb has_payment then config.KW_CREDIT_RECEIPT
        else normalized_title
      else if has_cash && negb has_credit then
        if has_payment && negb has_receipt then config.KW_CASH_PAYMENT
        else if has_receipt && negb has_payment then config.KW_CASH_RECEIPT
        else normalized_title
      else normalized_title in
    normalized_title.


(* ================================================================== *)
(** ** Rational comparisons and Python's [sorted], [min], [max] *)

Definition Qltb (a b : Q) : bool := negb (Qle_bool b a).

(** [min(l)] and [max(l)]; [None] stands for the [ValueError] Python
    raises on an empty sequence. *)
Definition py_min (l : list Q) : option Q :=
  match l with
  | [] => None
  | x :: rest => Some (fold_left (fun m y => if Qltb y m then y else m) rest x)
  end.

Definition py_max (l : list Q) : option Q :=
  match l with
  | [] => None
  | x :: rest => Some (fold_left (fun m y => if Qltb m y then y else m) rest x)
  end.

Section Sorted.
Variable A : Type.
Variable key : A -> Q.

(** Insertion in front of the first element whose key is not smaller:
    with [sorted_by] below this is a stable sort, as [sorted] and
    [list.sort] are. *)
Fixpoint insert_by (x : A) (l : list A) : list A :=
  match l with
  | [] => [x]
  | y :: l' => if Qle_bool (key x) (key y) then x :: y :: l'
               else y :: insert_by x l'
  end.

(** [sorted(l, key=key)] *)
Fixpoint sorted_by (l : list A) : list A :=
  match l with
  | [] => []
  | x :: l' => insert_by x (sorted_by l')
  end.

(** Order of two elements by their keys, and pairwise distinct keys. *)
Definition key_le (a b : A) : Prop := key a <= key b.
Definition key_lt (a b : A) : Prop := key a < key b.
Definition distinct_keys (l : list A) : Prop :=
  ForallOrdPairs (fun a b => ~ key a == key b) l.
End Sorted.

(* ================================================================== *)
(** ** The recognition service's document (the fields the parser reads) *)

Record NormalizedVertex := {
  x : option Q;
  y : option Q
}.

Record BoundingPoly := { normalized_vertices : list NormalizedVertex }.
Record PageRef := { bounding_poly : BoundingPoly }.
Record PageAnchor := { page_refs : list PageRef }.

Record Entity := {
  type_ : pystr;
  mention_text : pystr;
  page_anchor : PageAnchor
}.

Record Document := { entities : list Entity }.

(* ================================================================== *)
(** ** doc_ai_parser.py: data structures *)

Record ParsedEntity := {
  text : pystr;
  type : pystr;
  center_y : Q;
  center_x : Q;
  x_min : Q;
  x_max : Q;
  height : Q
}.

(** A line item is the dict [{'item': ..., 'amount': ...}]. *)
Record LineItem := { item : pystr; amount : pystr }.

(** The dict [extracted_data], with its four fixed keys. *)
Record ExtractedData := {
  title : option pystr;
  shop_name : option pystr;
  date : option pystr;
  line_items : list LineItem
}.

Definition LF : N := 10%N.
Definition SPACE : N := 32%N.
Definition IDEOGRAPHIC_SPACE : N := 0x3000%N.
Definition AT_SIGN : N := 64%N.

Definition T_ITEM : pystr := py "item".
Definition T_AMOUNT : pystr := py "amount".
Definition T_TITLE : pystr := py "title".
Definition T_SHOP_NAME : pystr := py "shop_name".
Definition T_DATE : pystr := py "date".

(** U+9805 U+76EE U+4E0D U+660E: the placeholder for an unknown item. *)
Definition UNKNOWN_ITEM : pystr := [0x9805; 0x76EE; 0x4E0D; 0x660E]%N.

(* ================================================================== *)
(** ** doc_ai_parser.py: helper functions *)

(** [[v.x for v in vertices if v.x is not None]] *)
Definition coords (f : NormalizedVertex -> option Q)
    (vertices : list NormalizedVertex) : list Q :=
  flat_map (fun v => match f v with Some c => [c] | None => [] end) vertices.

(** [None] is the function's [return None], reached by a guard or by the
    [except (AttributeError, IndexError, ValueError)] handler. *)
Definition _create_parsed_entity (entity : Entity) : option ParsedEntity :=
  match page_refs (page_anchor entity) with
  | [] => None
  | ref0 :: _ =>
    let vertices := normalized_vertices (bounding_poly ref0) in
    if (length vertices <? 4)%nat then None
    else
      let x_coords := coords x vertices in
      let y_coords := coords y vertices in
      match py_min y_coords, py_max y_coords,
            py_min x_coords, py_max x_coords with
      | Some y_min, Some y_max, Some x_min, Some x_max =>
        Some {| text := replace1 LF [] (mention_text entity);
                type := type_ entity;
                center_y := (y_min + y_max) / 2;
                center_x := (x_min + x_max) / 2;
                x_min := x_min;
                x_max := x_max;
                height := y_max - y_min |}
      | _, _, _, _ => None
      end
  end.

(** [sum(l)] *)
Definition Qsum (l : list Q) : Q := fold_left Qplus l 0.

(** [l[a:b]] for [0 <= a] and [0 <= b] *)
Definition slice (A : Type) (a b : nat) (l : list A) : list A :=
  skipn a (firstn b l).

(** The sum, the quotient and the product by 0.95 are exact here; the code
    rounds each of them to a double, so its result can differ from this
    one in the last bits. The final [max] with 0.008 is exact in both. *)
Definition _calculate_dynamic_tolerance (entities : list ParsedEntity) : Q :=
  match entities with
  | [] => 0.01
  | _ =>
    let heights :=
      sorted_by (fun h => h)
        (map height (filter (fun entity => Qltb 0.001 (height entity)) entities)) in
    match heights with
    | [] => 0.01
    | _ =>
      let stable_start_index := (length heights / 5)%nat in
      let stable_end_index := (length heights * 4 / 5)%nat in
      let stable_heights := slice stable_start_index stable_end_index heights in
      let stable_heights :=
        match stable_heights with [] => heights | _ => stable_heights end in
      let avg_height :=
        Qsum stable_heights / inject_Z (Z.of_nat (length stable_heights)) in
      let tolerance := Qmax (avg_height * 0.95) 0.008 in
      tolerance
    end
  end.

(** The loop of [_group_entities_by_row]: [g0 :: gtl] is [current_group],
    whose first element gives the fixed reference [group_base_y]. The
    difference of the two [center_y] is exact here; the code rounds it to
    a double before comparing it with the tolerance, which can matter
    only when the exact difference is within a rounding error of the
    tolerance. *)
Fixpoint group_loop (y_tolerance : Q) (rest : list ParsedEntity)
    (groups : list (list ParsedEntity))
    (g0 : ParsedEntity) (gtl : list ParsedEntity) : list (list ParsedEntity) :=
  match rest with
  | [] => groups ++ [g0 :: gtl]
  | current_entity :: rest' =>
    let group_base_y := center_y g0 in
    if Qltb (Qabs (center_y current_entity - group_base_y)) y_tolerance
    then group_loop y_tolerance rest' groups g0 (gtl ++ [current_entity])
    else group_loop y_tolerance rest' (groups ++ [g0 :: gtl]) current_entity []
  end.

Definition _group_entities_by_row (entities : list ParsedEntity)
    (y_tolerance : Q) : list (list ParsedEntity) :=
  match entities with
  | [] => []
  | _ =>
    match sorted_by center_y entities with
    | [] => []
    | e0 :: rest => group_loop y_tolerance rest [] e0 []
    end
  end.

(* ================================================================== *)
(** ** doc_ai_parser.py: [parse_document_entities] *)

Definition WARNING_RETAKE : pystr :=
  [0x306E; 0x5199; 0x771F; 0x304C; 0x50BE; 0x3044; 0x3066; 0x3044;
   0x308B; 0x304B; 0x3001; 0x624B; 0x3076; 0x308C; 0x3067; 0x8AAD;
   0x307F; 0x6F0F; 0x308C; 0x304C; 0x767A; 0x751F; 0x3057; 0x307E;
   0x3057; 0x305F; 0x3002; 0x3082; 0x3046; 0x4E00; 0x5EA6; 0x64AE;
   0x5F71; 0x3057; 0x3066; 0x30A2; 0x30C3; 0x30D7; 0x30ED; 0x30FC;
   0x30C9; 0x3059; 0x308B; 0x304B; 0x3001; 0x30C6; 0x30EC; 0x30DE;
   0x30B9; 0x306B; 0x3066; 0x624B; 0x4FEE; 0x6B63; 0x3057; 0x3066;
   0x304F; 0x3060; 0x3055; 0x3044; 0x3002]%N.

Definition WARNING_FIX : pystr :=
  [0x306E; 0x5199; 0x771F; 0x304C; 0x50BE; 0x3044; 0x3066; 0x3044;
   0x308B; 0x304B; 0x3001; 0x624B; 0x3076; 0x308C; 0x3067; 0x8AAD;
   0x307F; 0x6F0F; 0x308C; 0x304C; 0x767A; 0x751F; 0x3057; 0x307E;
   0x3057; 0x305F; 0x3002; 0x30C6; 0x30EC; 0x30DE; 0x30B9; 0x306B;
   0x3066; 0x624B; 0x4FEE; 0x6B63; 0x3057; 0x3066; 0x304F; 0x3060;
   0x3055; 0x3044; 0x3002]%N.

(** The state of the preprocessing loop (step 1). *)
Record Pre := {
  item_entities : list ParsedEntity;
  amount_entities : list ParsedEntity;
  extracted_data : ExtractedData
}.

Definition extracted_data0 : ExtractedData :=
  {| title := None; shop_name := None; date := None; line_items := [] |}.

Definition set_line_items (d : ExtractedData) (l : list LineItem) :=
  {| title := title d; shop_name := shop_name d; date := date d;
     line_items := l |}.

(** One iteration of [for entity in document.entities]. The last branch
    covers the key ['line_items'], whose value is a list and never [None],
    and every type that is not a key of [extracted_data]. *)
Definition pre_step (st : Pre) (entity : Entity) : Pre :=
  let d := extracted_data st in
  if eqb (type_ entity) T_ITEM || eqb (type_ entity) T_AMOUNT then
    match _create_parsed_entity entity with
    | Some parsed_entity =>
      if eqb (type_ entity) T_ITEM then
        {| item_entities := item_entities st ++ [parsed_entity];
           amount_entities := amount_entities st;
           extracted_data := d |}
      else if eqb (type_ entity) T_AMOUNT then
        {| item_entities := item_entities st;
           amount_entities := amount_entities st ++ [parsed_entity];
           extracted_data := d |}
      else st
    | None => st
    end
  else
    let raw_text := replace1 LF [] (mention_text entity) in
    if eqb (type_ entity) T_TITLE then
      match title d with
      | None =>
        {| item_entities := item_entities st;
           amount_entities := amount_entities st;
           extracted_data :=
             {| title := Some (_normalize_title raw_text);
                shop_name := shop_name d; date := date d;
                line_items := line_items d |} |}
      | Some _ => st
      end
    else if eqb (type_ entity) T_SHOP_NAME then
      match shop_name d with
      | None =>
        {| item_entities := item_entities st;
           amount_entities := amount_entities st;
           extracted_data :=
             {| title := title d; shop_name := Some raw_text; date := date d;
                line_items := line_items d |} |}
      | Some _ => st
      end
    else if eqb (type_ entity) T_DATE then
      match date d with
      | None =>
        {| item_entities := item_entities st;
           amount_entities := amount_entities st;
           extracted_data :=
             {| title := title d; shop_name := shop_name d;
                date := Some raw_text; line_items := line_items d |} |}
      | Some _ => st
      end
    else st.

Definition preprocess (document : Document) : Pre :=
  fold_left pre_step (entities document)
    {| item_entities := []; amount_entities := [];
       extracted_data := extracted_data0 |}.

(** [s.replace(' ', '').replace(IDEOGRAPHIC SPACE, '').replace('@', '(a)')] *)
Definition clean_item_text (s : pystr) : pystr :=
  replace1 AT_SIGN (py "(a)")
    (replace1 IDEOGRAPHIC_SPACE [] (replace1 SPACE [] s)).

(** The body of the ordinal-pairing loop; [sorted_items] and
    [sorted_amounts] have the same length on this path, so indexing both
    by [range(len(sorted_items))] walks the two lists in step. *)
Definition pair_ordinal (sorted_items sorted_amounts : list ParsedEntity)
    : list LineItem :=
  map (fun p =>
         let final_item_text := clean_item_text (text (fst p)) in
         let final_amount_text := digits_only (text (snd p)) in
         {| item := final_item_text; amount := final_amount_text |})
      (combine sorted_items sorted_amounts).

(** The state of the row loop (step 4): [line_items], [is_review_needed]. *)
Definition RowState := (list LineItem * bool)%type.

(** [' '.join(e.text for e in row)] *)
Definition merged_text (row : list ParsedEntity) : pystr :=
  join [SPACE] (map text row).

(** [[entity for entity in row if entity.type == 'item']], then
    [row_items.sort(key=lambda e: e.center_x)]; likewise for amounts. *)
Definition row_items (row : list ParsedEntity) : list ParsedEntity :=
  sorted_by center_x (filter (fun entity => eqb (type entity) T_ITEM) row).

Definition row_amounts (row : list ParsedEntity) : list ParsedEntity :=
  sorted_by center_x (filter (fun entity => eqb (type entity) T_AMOUNT) row).

Definition row_final_item_text (row : list ParsedEntity) : pystr :=
  let merged_item_text := merged_text (row_items row) in
  clean_item_text merged_item_text.

(** The amount text of a row, and whether the row raises the review flag
    because item and amount overlap in x. *)
Definition row_final_amount_text (row : list ParsedEntity) : pystr * bool :=
  match row_items row, row_amounts row with
  | _ :: _, a0 :: _ =>
    if Qltb (x_max (last (row_items row) a0)) (x_min a0)
    then (digits_only (merged_text (row_amounts row)), false)
    else ([], true)
  | [], _ :: _ => (digits_only (merged_text (row_amounts row)), false)
  | _, [] => ([], false)
  end.

(** One iteration of [for row in row_groups]. *)
Definition row_step (st : RowState) (row : list ParsedEntity) : RowState :=
  let '(line_items, is_review_needed) := st in
  let final_item_text := row_final_item_text row in
  let '(final_amount_text, overlap) := row_final_amount_text row in
  let is_review_needed := if overlap then true else is_review_needed in
  if truthy final_item_text && truthy final_amount_text then
    (line_items ++ [{| item := final_item_text; amount := final_amount_text |}],
     is_review_needed)
  else if truthy final_item_text && negb (truthy final_amount_text) then
    (line_items ++ [{| item := final_item_text; amount := py "0" |}], true)
  else if negb (truthy final_item_text) && truthy final_amount_text then
    (line_items ++ [{| item := UNKNOWN_ITEM; amount := final_amount_text |}], true)
  else (line_items, is_review_needed).

(** The user warning of step 5. *)
Definition make_warning (is_review_needed : bool) (line_items : list LineItem)
    : option pystr :=
  if is_review_needed && negb (Nat.eqb (length line_items) 0) then
    let item_count := length line_items in
    if (3 <=? item_count)%nat then Some WARNING_RETAKE else Some WARNING_FIX
  else None.

(** The triple the function returns. *)
Record ParseResult := {
  data : ExtractedData;
  review_needed : bool;
  warning : option pystr
}.

Definition parse_document_entities (document : Document) : ParseResult :=
  let pre := preprocess document in
  let item_entities := item_entities pre in
  let amount_entities := amount_entities pre in
  let extracted_data := extracted_data pre in
  let is_review_needed := false in
  let finish (line_items : list LineItem) (is_review_needed : bool) :=
    {| data := set_line_items extracted_data line_items;
       review_needed := is_review_needed;
       warning := make_warning is_review_needed line_items |} in
  if negb (Nat.eqb (length item_entities) 0)
     && Nat.eqb (length item_entities) (length amount_entities) then
    let sorted_items := sorted_by center_y item_entities in
    let sorted_amounts := sorted_by center_y amount_entities in
    finish (pair_ordinal sorted_items sorted_amounts) is_review_needed
  else
    let all_entities := item_entities ++ amount_entities in
    match all_entities with
    | [] =>
      {| data := set_line_items extracted_data [];
         review_needed := false;
         warning := None |}
    | _ =>
      let y_tolerance := _calculate_dynamic_tolerance all_entities in
      let row_groups := _group_entities_by_row all_entities y_tolerance in
      let '(line_items, is_review_needed) :=
        fold_left row_step row_groups ([], is_review_needed) in
      finish line_items is_review_needed
    end.

(* ================================================================== *)
(** ** Exceptions *)

Module Exc.

(** An instance of Python's [Exception], the class that
    [except Exception] catches; it carries its message. *)
Definition exn := pystr.

(** The outcome of a computation that may raise. *)
Inductive M (A : Type) : Type :=
| Return (a : A)
| Raise (e : exn).
Arguments Return {A} a.
Arguments Raise {A} e.

Definition bind {A B : Type} (c : M A) (k : A -> M B) : M B :=
  match c with
  | Return a => k a
  | Raise e => Raise e
  end.

(** [try: c  except Exception as e: h e] *)
Definition try_except {A : Type} (c : M A) (h : exn -> M A) : M A :=
  match c with
  | Return a => Return a
  | Raise e => h e
  end.

End Exc.
Import Exc.

Notation "x <- c ;; k" := (bind c (fun x => k))
  (at level 61, c at next level, right associativity).
Notation "' p <- c ;; k" := (bind c (fun p => k))
  (at level 61, p pattern, c at next level, right associativity).

(* ================================================================== *)
(** ** image_processor.py *)

(** OpenCV's rotation codes. *)
Definition ROTATE_90_CLOCKWISE : Z := 0.
Definition ROTATE_180 : Z := 1.

(** [DocAnalyzer._decide_90_rotation] with the product by the float
    literal [1.2] taken exactly, in the rationals. The interpreter rounds
    that product to a double: [Py64._decide_90_rotation] below follows it
    step by step, and the two decisions are shown to be the same for
    every [horizontal_votes] below 2^50. *)
Definition _decide_90_rotation (horizontal_votes vertical_votes : Z) : option Z :=
  let total_votes := (horizontal_votes + vertical_votes)%Z in
  if (total_votes <? 3)%Z then None
  else if Qltb (inject_Z horizontal_votes * 1.2) (inject_Z vertical_votes)
          || ((horizontal_votes =? 0)%Z && (2 <? vertical_votes)%Z)
  then Some ROTATE_90_CLOCKWISE
  else None.

(** The same decision with the product and the comparison carried out in
    IEEE 754 binary64, as CPython evaluates [int * float] and compares the
    result with an [int] that a double holds exactly. *)
Module B64.
Import SpecFloat.
Definition prec : Z := 53.
Definition emax : Z := 1024.
Definition of_int (n : Z) : spec_float := binary_normalize prec emax n 0 false.
(** The double nearest to 1.2: 5404319552844595 * 2^-52. *)
Definition c1_2 : spec_float := S754_finite false 5404319552844595 (-52).

Definition _decide_90_rotation (horizontal_votes vertical_votes : Z) : option Z :=
  let total_votes := (horizontal_votes + vertical_votes)%Z in
  if (total_votes <? 3)%Z then None
  else if SFltb (SFmul prec emax (of_int horizontal_votes) c1_2)
                (of_int vertical_votes)
          || ((horizontal_votes =? 0)%Z && (2 <? vertical_votes)%Z)
  then Some ROTATE_90_CLOCKWISE
  else None.
End B64.

(** Line 138 as CPython evaluates it, for vote counts of any size.
    - [horizontal_votes * 1.2] converts the [int] to a double, rounding to
      nearest with ties to even ([PyLong_AsDouble]), and raises
      [OverflowError] when the result would not be finite; the product is
      the IEEE 754 binary64 product with the double nearest to 1.2.
    - [vertical_votes > product] compares the [int] with the double by
      their exact values ([float_richcompare]): the [int] is not
      rounded. *)
Module Py64.
Import SpecFloat.

(** The message of the [OverflowError] of [PyLong_AsDouble]. *)
Definition OVERFLOW_ERROR : exn := py "int too large to convert to float".

Definition int_to_float (n : Z) : M spec_float :=
  match B64.of_int n with
  | S754_infinity _ => Raise OVERFLOW_ERROR
  | x => Return x
  end.

Definition float_mul (a b : spec_float) : spec_float :=
  SFmul B64.prec B64.emax a b.

(** [n > x] for an [int] [n] and a [float] [x], decided on the exact
    values: a finite [x] is [m * 2^e]. *)
Definition int_gt_float (n : Z) (x : spec_float) : bool :=
  match x with
  | S754_zero _ => (0 <? n)%Z
  | S754_infinity s => s
  | S754_nan => false
  | S754_finite s m e =>
    let m := if s then Zneg m else Zpos m in
    if (0 <=? e)%Z then (m * 2 ^ e <? n)%Z else (m <? n * 2 ^ (- e))%Z
  end.

Definition _decide_90_rotation (horizontal_votes vertical_votes : Z)
    : M (option Z) :=
  let total_votes := (horizontal_votes + vertical_votes)%Z in
  if (total_votes <? 3)%Z then Return None
  else
    x <- int_to_float horizontal_votes ;;
    if int_gt_float vertical_votes (float_mul x B64.c1_2)
       || ((horizontal_votes =? 0)%Z && (2 <? vertical_votes)%Z)
    then Return (Some ROTATE_90_CLOCKWISE)
    else Return None.

(** Where a remainder [R] lies in a rounding step of width [N]: the
    position that the shifted-out bits of a mantissa record. *)
Definition loc_of_remainder (R N : Z) : location :=
  if (R =? 0)%Z then loc_Exact else loc_Inexact (2 * R ?= N)%Z.

End Py64.

Section ImageProcessor.

(** Pixel arrays, PIL images and the operations of OpenCV, NumPy and
    Pillow are external: they are taken as parameters, and each may
    raise. *)
Variable ndarray : Type.
Variable pil_image : Type.
Definition bytes := list N.

Variable Image_open : bytes -> M pil_image.
Variable exif_transpose : pil_image -> M pil_image.
(** [cv2.cvtColor(np.array(pil_img), cv2.COLOR_RGB2BGR)] *)
Variable array_rgb2bgr : pil_image -> M ndarray.
Variable to_gray : ndarray -> M ndarray.
Variable cv2_rotate : ndarray -> Z -> M ndarray.
Variable remove_shadows : ndarray -> M ndarray.
Variable get_paper_mask : ndarray -> M ndarray.
Variable _preprocess_for_orientation : ndarray -> ndarray -> M ndarray.
Variable _extract_text_orientation_features : ndarray -> M (Z * Z).
Variable _extract_top_bottom_rois :
  ndarray -> ndarray -> M (option ndarray * option ndarray).
Variable _calculate_ink_density : ndarray -> M Z.
(** [cv2.imencode('.jpg', img)], with [buffer.tobytes()] applied. *)
Variable imencode_jpg : ndarray -> M (bool * bytes).

(** [ImageUtils.rotate_image] *)
Definition rotate_image (img : ndarray) (angle_code : Z) : M ndarray :=
  if (angle_code =? ROTATE_90_CLOCKWISE)%Z then cv2_rotate img ROTATE_90_CLOCKWISE
  else if (angle_code =? ROTATE_180)%Z then cv2_rotate img ROTATE_180
  else Return img.

(** [DocAnalyzer.analyze_orientation_90] *)
Definition analyze_orientation_90 (gray_img mask : ndarray) : M (option Z) :=
  binary <- _preprocess_for_orientation gray_img mask ;;
  votes <- _extract_text_orientation_features binary ;;
  Return (_decide_90_rotation (fst votes) (snd votes)).

(** [DocAnalyzer.analyze_upside_down_180] *)
Definition analyze_upside_down_180 (gray_img mask : ndarray) : M (option Z) :=
  rois <- _extract_top_bottom_rois gray_img mask ;;
  match rois with
  | (Some roi_top, Some roi_bottom) =>
    top_ink <- _calculate_ink_density roi_top ;;
    bottom_ink <- _calculate_ink_density roi_bottom ;;
    if Qltb (inject_Z top_ink * 1.1) (inject_Z bottom_ink)
    then Return (Some ROTATE_180)
    else Return None
  | _ => Return None
  end.

(** The [try] block of [process_image] up to [final_output]. *)
Definition normalize_image (image_bytes : bytes) : M ndarray :=
  pil_img <- Image_open image_bytes ;;
  pil_img <- exif_transpose pil_img ;;
  current_color <- array_rgb2bgr pil_img ;;
  current_gray <- to_gray current_color ;;
  mask <- get_paper_mask current_gray ;;
  rotate_cmd <- analyze_orientation_90 current_gray mask ;;
  st <- match rotate_cmd with
        | Some cmd =>
          current_color <- rotate_image current_color cmd ;;
          current_gray <- rotate_image current_gray cmd ;;
          mask <- rotate_image mask cmd ;;
          Return (current_color, current_gray, mask)
        | None => Return (current_color, current_gray, mask)
        end ;;
  let '(current_color, current_gray, mask) := st in
  rotate_cmd_180 <- analyze_upside_down_180 current_gray mask ;;
  current_color <- match rotate_cmd_180 with
                   | Some cmd => rotate_image current_color cmd
                   | None => Return current_color
                   end ;;
  final_gray <- to_gray current_color ;;
  remove_shadows final_gray.

(** The whole [try] block. *)
Definition process_image_try (image_bytes : bytes) : M bytes :=
  final_output <- normalize_image image_bytes ;;
  enc <- imencode_jpg final_output ;;
  let '(success, buffer) := enc in
  if negb success then Return image_bytes
  else Return buffer.

Definition process_image (image_bytes : bytes) : M bytes :=
  try_except (process_image_try image_bytes)
             (fun e => Return image_bytes).

End ImageProcessor.

(* ================================================================== *)
(** ** Vocabulary of the properties, and sample inputs *)

(** The geometry of a fragment is usable: a first page reference with at
    least four vertices, and non-empty x and y coordinate lists. *)
Definition usable_geometry (entity : Entity) : Prop :=
  exists ref0 rest,
    page_refs (page_anchor entity) = ref0 :: rest /\
    (4 <= length (normalized_vertices (bounding_poly ref0)))%nat /\
    coords x (normalized_vertices (bounding_poly ref0)) <> [] /\
    coords y (normalized_vertices (bounding_poly ref0)) <> [].

(** A fragment whose polygon is the rectangle [x0,x1] x [y0,y1]. *)
Definition box (ty txt : pystr) (x0 x1 y0 y1 : Q) : Entity :=
  {| type_ := ty;
     mention_text := txt;
     page_anchor :=
       {| page_refs :=
            [ {| bounding_poly :=
                   {| normalized_vertices :=
                        [ {| x := Some x0; y := Some y0 |};
                          {| x := Some x1; y := Some y0 |};
                          {| x := Some x1; y := Some y1 |};
                          {| x := Some x0; y := Some y1 |} ] |} |} ] |} |}.

(** A fragment without page reference: its geometry is unusable. *)
Definition no_geometry (ty txt : pystr) : Entity :=
  {| type_ := ty; mention_text := txt; page_anchor := {| page_refs := [] |} |}.

(** An item whose four vertices lie on the line y = 1/2. *)
Definition flat_entity : Entity := box T_ITEM (py "tea") 0.1 0.4 0.5 0.5.

(** The usable fragments of one kind that a document yields, in document
    order. *)
Definition fragments_of (kind : pystr) (document : Document) : list ParsedEntity :=
  flat_map (fun entity =>
              if eqb (type_ entity) kind then
                match _create_parsed_entity entity with
                | Some parsed => [parsed]
                | None => []
                end
              else [])
           (entities document).

(** What one row contributes to [line_items] and to the review flag. *)
Definition row_output (row : list ParsedEntity) : list LineItem :=
  fst (row_step ([], false) row).

Definition row_flag (row : list ParsedEntity) : bool :=
  snd (row_step ([], false) row).

(** The row groups of the row-grouping strategy. *)
Definition row_groups_of (document : Document) : list (list ParsedEntity) :=
  let pre := preprocess document in
  let all_entities := item_entities pre ++ amount_entities pre in
  _group_entities_by_row all_entities (_calculate_dynamic_tolerance all_entities).

(** The line item that ordinal pairing builds from one item fragment and
    one amount fragment. *)
Definition ordinal_line_item (i a : ParsedEntity) : LineItem :=
  {| item := clean_item_text (text i); amount := digits_only (text a) |}.

(** No usable item or amount fragment: the item has no geometry. *)
Definition doc_no_fragments : Document :=
  {| entities := [ no_geometry T_ITEM (py "tea");
                   box T_TITLE (py "memo") 0.1 0.9 0.02 0.06 ] |}.

(** One item and one amount on the same line; the item reaches x = 0.7,
    beyond the start x = 0.6 of the amount. *)
Definition doc_overlap_pair : Document :=
  {| entities := [ box T_ITEM (py "tea") 0.1 0.7 0.19 0.21;
                   box T_AMOUNT (py "100") 0.6 0.8 0.19 0.21 ] |}.

(** The two-row scenario of the specification, listed bottom row first:
    items U+5546 U+54C1 "A" at y = 0.2 and U+5546 U+54C1 "B" at y = 0.4,
    amounts U+00A5 "1,000" at y = 0.2 and U+00A5 "2,000" at y = 0.4. *)
Definition doc_two_rows : Document :=
  {| entities :=
       [ box T_ITEM [0x5546; 0x54C1; 0x42]%N 0.1 0.4 0.39 0.41;
         box T_AMOUNT [0xA5; 0x32; 0x2C; 0x30; 0x30; 0x30]%N 0.6 0.8 0.39 0.41;
         box T_ITEM [0x5546; 0x54C1; 0x41]%N 0.1 0.4 0.19 0.21;
         box T_AMOUNT [0xA5; 0x31; 0x2C; 0x30; 0x30; 0x30]%N 0.6 0.8 0.19 0.21 ] |}.

(** One item and two amounts; on the first line the item overlaps the
    amount in x. *)
Definition doc_row_overlap : Document :=
  {| entities := [ box T_ITEM (py "tea") 0.1 0.7 0.19 0.21;
                   box T_AMOUNT (py "100") 0.6 0.8 0.19 0.21;
                   box T_AMOUNT (py "200") 0.6 0.8 0.39 0.41 ] |}.

(** Equal counts, and an amount without any digit. *)
Definition doc_no_digit_amount : Document :=
  {| entities := [ box T_ITEM (py "tea") 0.1 0.4 0.19 0.21;
                   box T_AMOUNT (py "N/A") 0.6 0.8 0.19 0.21 ] |}.

(** Two items and one amount: the second line has an item only. *)
Definition doc_missing_amount : Document :=
  {| entities := [ box T_ITEM (py "tea") 0.1 0.4 0.19 0.21;
                   box T_AMOUNT (py "100") 0.6 0.8 0.19 0.21;
                   box T_ITEM (py "milk") 0.1 0.4 0.39 0.41 ] |}.

(** The rotation condition of the 90-degree decision, as the
    specification writes it. *)
Definition vertical_dominates (horizontal_votes vertical_votes : Z) : Prop :=
  inject_Z horizontal_votes * 1.2 < inject_Z vertical_votes \/
  (horizontal_votes = 0%Z /\ (2 < vertical_votes)%Z).

(** Vote counts beyond the range in which doubles hold every integer:
    10^17 + 1 horizontal and 1.2 * 10^17 + 1 vertical votes. *)
Definition many_horizontal_votes : Z := 100000000000000001.
Definition many_vertical_votes : Z := 120000000000000001.

Definition option_Z_eqb (a b : option Z) : bool :=
  match a, b with
  | Some m, Some n => Z.eqb m n
  | None, None => true
  | _, _ => false
  end.

(** The rational and the binary64 decision agree for all vote counts
    below [n]. *)
Definition decisions_agree_below (n : nat) : bool :=
  forallb (fun h =>
    forallb (fun v =>
      option_Z_eqb (B64._decide_90_rotation (Z.of_nat h) (Z.of_nat v))
                   (_decide_90_rotation (Z.of_nat h) (Z.of_nat v)))
      (seq 0 n))
    (seq 0 n).

(** An instance of the image operations in which decoding fails. *)
Definition undecodable : bytes -> M unit :=
  fun _ => Raise (py "cannot identify image file").

(** An instance in which every stage succeeds on a one-point image type
    and only the JPEG encoder reports failure. *)
Definition ok1 : unit -> M unit := fun _ => Return tt.
Definition ok2 : unit -> unit -> M unit := fun _ _ => Return tt.
Definition encoder_fails : unit -> M (bool * bytes) :=
  fun _ => Return (false, []).

(** The rows that the grouping loop still has to emit, built from the
    front: the loop appends them to the rows it has already closed. *)
Fixpoint group_from (y_tolerance : Q) (rest : list ParsedEntity)
    (g0 : ParsedEntity) (gtl : list ParsedEntity) : list (list ParsedEntity) :=
  match rest with
  | [] => [g0 :: gtl]
  | current_entity :: rest' =>
    if Qltb (Qabs (center_y current_entity - center_y g0)) y_tolerance
    then group_from y_tolerance rest' g0 (gtl ++ [current_entity])
    else (g0 :: gtl) :: group_from y_tolerance rest' current_entity []
  end.

(** Two fragments whose [center_y] differ by less than the tolerance. *)
Definition close_y (y_tolerance : Q) (a b : ParsedEntity) : Prop :=
  Qabs (center_y a - center_y b) < y_tolerance.

(** A row is not empty and each of its fragments is within the tolerance
    of its first fragment. *)
Definition row_within (y_tolerance : Q) (row : list ParsedEntity) : Prop :=
  match row with
  | [] => False
  | first :: others => Forall (fun e => close_y y_tolerance e first) others
  end.



(** Three item fragments of height 0.02 at y = 0.10, 0.50 and 0.90, the
    layout of the specification's grouping example. *)
Definition doc_three_lines : Document :=
  {| entities := [ box T_ITEM (py "rice") 0.1 0.4 0.49 0.51;
                   box T_ITEM (py "tea") 0.1 0.4 0.09 0.11;
                   box T_ITEM (py "milk") 0.1 0.4 0.89 0.91 ] |}.


(** Boolean forms of "no two fragments are close" and "all fragments are
    well within the tolerance of one another", used to check concrete
    layouts by evaluation. *)
Fixpoint pairwise_far (y_tolerance : Q) (l : list ParsedEntity) : bool :=
  match l with
  | [] => true
  | a :: l' =>
    forallb (fun b => negb (Qltb (Qabs (center_y a - center_y b)) y_tolerance)) l'
    && pairwise_far y_tolerance l'
  end.


(** The shape every line item is meant to have: an amount made of ASCII
    digits only, and an item text without plain space, ideographic space
    and at sign. *)
Definition clean_line_item (li : LineItem) : Prop :=
  Forall (fun c => is_digit c = true) (amount li) /\
  ~ In SPACE (item li) /\
  ~ In IDEOGRAPHIC_SPACE (item li) /\
  ~ In AT_SIGN (item li).

(** The first entity of a kind in document order, and an entity's text
    with its line feeds removed. *)
Definition first_of_kind (kind : pystr) (document : Document) : option Entity :=
  find (fun entity => eqb (type_ entity) kind) (entities document).

Definition raw_text_of (entity : Entity) : pystr :=
  replace1 LF [] (mention_text entity).

(** A document with two titles, a shop name and a date between the line
    items; the first title reads U+30C3 U+6255, a misread "credit
    payment". *)
Definition doc_with_header : Document :=
  {| entities := [ box T_TITLE [0x30C3; 0x6255]%N 0.3 0.7 0.02 0.06;
                   box T_ITEM (py "tea") 0.1 0.4 0.19 0.21;
                   box T_SHOP_NAME (py "kiosk") 0.1 0.4 0.08 0.10;
                   box T_TITLE [0x73FE; 0x91D1; 0x53D7; 0x5165]%N 0.3 0.7 0.1 0.12;
                   box T_AMOUNT (py "100") 0.6 0.8 0.19 0.21;
                   box T_DATE (py "2024-01-31") 0.6 0.8 0.08 0.10 ] |}.

(** Items only: no amount fragment was recognised. *)
Definition doc_items_only : Document :=
  {| entities := [ box T_ITEM (py "tea") 0.1 0.4 0.19 0.21;
                   box T_ITEM (py "milk") 0.1 0.4 0.39 0.41 ] |}.

(** Amounts only: no item fragment was recognised. *)
Definition doc_amounts_only : Document :=
  {| entities := [ box T_AMOUNT (py "100") 0.6 0.8 0.19 0.21;
                   box T_AMOUNT (py "250") 0.6 0.8 0.39 0.41 ] |}.

(** The invariants of a fragment box: the center lies between the x
    extents, the height is not negative and the text has no line feed. *)
Definition well_formed_box (parsed : ParsedEntity) : Prop :=
  x_min parsed <= center_x parsed /\
  center_x parsed <= x_max parsed /\
  0 <= height parsed /\
  ~ In LF (text parsed).

(** The payment-mode axis and the direction axis of a title each show
    exactly one of their two indicators. *)
Definition unambiguous_title (raw_title : pystr) : Prop :=
  xorb (any_in config.CREDIT_CHARS raw_title)
       (any_in config.CASH_CHARS raw_title) = true /\
  xorb (any_in config.PAYMENT_CHARS raw_title)
       (any_in config.RECEIPT_CHARS raw_title) = true.

(** [DocAnalyzer._extract_text_orientation_features], from the bounding
    rectangles [(cw, ch)] of the contours that OpenCV finds in [binary],
    whose shape is [(rows, cols)]. The float division raises
    [ZeroDivisionError] on a rectangle of height zero that passes both
    filters. *)
Definition vote_step (rows cols : Z) (votes : Z * Z) (rect : Z * Z)
    : M (Z * Z) :=
  let '(horizontal_votes, vertical_votes) := votes in
  let '(cw, ch) := rect in
  let img_area := (rows * cols)%Z in
  if Qltb (inject_Z (cw * ch)) (inject_Z img_area * 0.0005) then Return votes
  else if Qltb (inject_Z cols * 0.5) (inject_Z cw)
          || Qltb (inject_Z rows * 0.5) (inject_Z ch) then Return votes
  else if (ch =? 0)%Z then Raise (py "float division by zero")
  else
    let aspect_ratio := inject_Z cw / inject_Z ch in
    if Qltb 1.5 aspect_ratio then Return ((horizontal_votes + 1)%Z, vertical_votes)
    else if Qltb aspect_ratio 0.7 then Return (horizontal_votes, (vertical_votes + 1)%Z)
    else Return votes.

Fixpoint vote_loop (rows cols : Z) (rects : list (Z * Z)) (votes : Z * Z)
    : M (Z * Z) :=
  match rects with
  | [] => Return votes
  | rect :: rects' =>
    votes' <- vote_step rows cols votes rect ;;
    vote_loop rows cols rects' votes'
  end.

Definition text_orientation_votes (rows cols : Z) (rects : list (Z * Z))
    : M (Z * Z) :=
  vote_loop rows cols rects (0, 0)%Z.

(* ================================================================== *)
(** ** csv_generator.py *)

Definition SLASH : N := 47%N.
Definition UNDERSCORE : N := 95%N.
Definition COMMA : N := 44%N.
Definition DQUOTE : N := 34%N.
Definition CR : N := 13%N.

(** Truthiness of a value that is [None] or a string. *)
Definition opt_truthy (s : option pystr) : bool :=
  match s with
  | Some t => truthy t
  | None => false
  end.

(** [title.replace('/', '_').replace(' ', '_').replace(IDEOGRAPHIC SPACE,
    '_') if title else "NoTitle"] *)
Definition safe_title_of (title : option pystr) : pystr :=
  match title with
  | Some t =>
    if truthy t then
      replace1 IDEOGRAPHIC_SPACE [UNDERSCORE]
        (replace1 SPACE [UNDERSCORE] (replace1 SLASH [UNDERSCORE] t))
    else py "NoTitle"
  | None => py "NoTitle"
  end.

(** [generate_csv_filename]; [timestamp_str] is the reading of the clock,
    formatted by ['%Y%m%d%H%M%S']. *)
Definition generate_csv_filename (timestamp_str store_code : pystr)
    (title : option pystr) : pystr :=
  let safe_title := safe_title_of title in
  let base_filename :=
    timestamp_str ++ py "_" ++ store_code ++ py "_" ++ safe_title ++ py ".csv" in
  base_filename.

(** The [csv] writer of the standard library in its default dialect, with
    [lineterminator='\r\n']: a field is quoted when it holds the
    delimiter, the quote character, a carriage return or a line feed, and
    quote characters inside it are doubled. *)
Definition csv_special (c : N) : bool :=
  N.eqb c COMMA || N.eqb c DQUOTE || N.eqb c CR || N.eqb c LF.

Definition csv_field (field : pystr) : pystr :=
  if existsb csv_special field
  then [DQUOTE] ++ replace1 DQUOTE [DQUOTE; DQUOTE] field ++ [DQUOTE]
  else field.

Definition csv_row (fields : list pystr) : pystr :=
  join [COMMA] (map csv_field fields) ++ [CR; LF].

(** U+9805 U+76EE and U+91D1 U+984D: the two column names. *)
Definition fieldnames : list pystr :=
  [ [0x9805; 0x76EE]%N; [0x91D1; 0x984D]%N ].

(** [generate_csv_content]: the text and the error value, always [None]. *)
Definition generate_csv_content (parsed_data : ExtractedData)
    : pystr * option pystr :=
  let header := csv_row fieldnames in
  let rows :=
    flat_map (fun item_detail =>
                csv_row [item item_detail; amount item_detail])
             (line_items parsed_data) in
  (header ++ rows, None).

(** [str.encode('utf-8')]; a surrogate code point raises
    [UnicodeEncodeError], whose reason is kept as the message. *)
Definition utf8_char (c : N) : M (list N) :=
  (if c <? 0x80 then Return [c]
   else if c <? 0x800 then Return [0xC0 + c / 64; 0x80 + c mod 64]
   else if c <? 0x10000 then
     if (0xD800 <=? c) && (c <=? 0xDFFF)
     then Raise (py "surrogates not allowed")
     else Return [0xE0 + c / 4096; 0x80 + (c / 64) mod 64; 0x80 + c mod 64]
   else Return [0xF0 + c / 262144; 0x80 + (c / 4096) mod 64;
                0x80 + (c / 64) mod 64; 0x80 + c mod 64])%N.

Fixpoint utf8_encode (s : pystr) : M (list N) :=
  match s with
  | [] => Return []
  | c :: s' =>
    b <- utf8_char c ;;
    bs <- utf8_encode s' ;;
    Return (b ++ bs)
  end.

(* ================================================================== *)
(** ** gcs_uploader.py: the date folders of a file name *)

(** [s.split('_')[0]]: the text before the first underscore. *)
Fixpoint before_underscore (s : pystr) : pystr :=
  match s with
  | [] => []
  | c :: s' => if N.eqb c UNDERSCORE then [] else c :: before_underscore s'
  end.

(** [_extract_date_parts_from_filename]; [now] holds the year, month and
    day of the clock, used when the file name starts with fewer than
    eight characters before its first underscore. U+5E74, U+6708 and
    U+65E5 are the year, month and day signs. *)
Definition _extract_date_parts_from_filename (now : pystr * pystr * pystr)
    (filename : pystr) : pystr * pystr * pystr * pystr :=
  let timestamp_part := before_underscore filename in
  let '(year, month, day) :=
    if (8 <=? length timestamp_part)%nat
    then (slice 0 4 timestamp_part, slice 4 6 timestamp_part,
          slice 6 8 timestamp_part)
    else now in
  let date_str := year ++ [0x5E74]%N ++ month ++ [0x6708]%N ++ day ++ [0x65E5]%N in
  (date_str, year, month, day).

(* ================================================================== *)
(** ** tasks.py *)

(** tasks.py line 26: the recipient is unknown. *)
Definition ERR_NO_RECIPIENT : pystr :=
  [0x53D7; 0x4FE1; 0x8005; 0x0049; 0x0044; 0x304C; 0x4E0D; 0x660E;
   0x3002]%N.

(** tasks.py line 34: the store code could not be obtained. *)
Definition MSG_STORE_CODE : pystr :=
  [0x5E97; 0x8217; 0x30B3; 0x30FC; 0x30C9; 0x3092; 0x53D6; 0x5F97;
   0x3067; 0x304D; 0x307E; 0x305B; 0x3093; 0x3067; 0x3057; 0x305F;
   0x3002; 0x0049; 0x0054; 0x0048; 0x0044; 0x3078; 0x304A; 0x554F;
   0x3044; 0x5408; 0x308F; 0x305B; 0x304F; 0x3060; 0x3055; 0x3044;
   0x3002]%N.

(** tasks.py line 35, prefix of the exception message. *)
Definition EXC_STORE_CODE : pystr :=
  [0x5E97; 0x8217; 0x30B3; 0x30FC; 0x30C9; 0x306E; 0x53D6; 0x5F97;
   0x306B; 0x5931; 0x6557; 0x3057; 0x307E; 0x3057; 0x305F; 0x003A;
   0x0020]%N.

(** tasks.py line 42: the photograph could not be processed. *)
Definition MSG_PHOTO : pystr :=
  [0x5199; 0x771F; 0x306E; 0x51E6; 0x7406; 0x306B; 0x5931; 0x6557;
   0x3057; 0x307E; 0x3057; 0x305F; 0x3002; 0x304A; 0x624B; 0x6570;
   0x3067; 0x3059; 0x304C; 0x3001; 0x30C6; 0x30EC; 0x30DE; 0x30B9;
   0x306B; 0x3066; 0x624B; 0x5165; 0x529B; 0x3057; 0x3066; 0x304F;
   0x3060; 0x3055; 0x3044; 0x3002]%N.

(** tasks.py line 43, prefix of the exception message. *)
Definition EXC_DOWNLOAD : pystr :=
  py "Download failed: ".

(** tasks.py line 54: recognition failed. *)
Definition MSG_OCR : pystr :=
  [0x5199; 0x771F; 0x306E; 0x8AAD; 0x307F; 0x53D6; 0x308A; 0x51E6;
   0x7406; 0xFF08; 0x004F; 0x0043; 0x0052; 0xFF09; 0x4E2D; 0x306B;
   0x30A8; 0x30E9; 0x30FC; 0x304C; 0x767A; 0x751F; 0x3057; 0x307E;
   0x3057; 0x305F; 0x3002; 0x304A; 0x624B; 0x6570; 0x3067; 0x3059;
   0x304C; 0x3001; 0x30C6; 0x30EC; 0x30DE; 0x30B9; 0x306B; 0x3066;
   0x624B; 0x5165; 0x529B; 0x3057; 0x3066; 0x304F; 0x3060; 0x3055;
   0x3044; 0x3002]%N.

(** tasks.py line 55, prefix of the exception message. *)
Definition EXC_DOCUMENT_AI : pystr :=
  py "Document AI failed: ".

(** tasks.py lines 64 and 70: take the photograph again or enter the form by hand. *)
Definition MSG_RETAKE : pystr :=
  [0x5199; 0x771F; 0x306E; 0x51E6; 0x7406; 0x306B; 0x5931; 0x6557;
   0x3057; 0x307E; 0x3057; 0x305F; 0x3002; 0x51FA; 0x7D0D; 0x7968;
   0x306E; 0x5199; 0x771F; 0x3092; 0x6B63; 0x3057; 0x304F; 0x64AE;
   0x5F71; 0x3057; 0x3066; 0x3001; 0x3082; 0x3046; 0x4E00; 0x5EA6;
   0x30A2; 0x30C3; 0x30D7; 0x30ED; 0x30FC; 0x30C9; 0x3059; 0x308B;
   0x304B; 0x3001; 0x30C6; 0x30EC; 0x30DE; 0x30B9; 0x306B; 0x3066;
   0x624B; 0x5165; 0x529B; 0x3057; 0x3066; 0x304F; 0x3060; 0x3055;
   0x3044; 0x3002]%N.

(** tasks.py line 65. *)
Definition EXC_NO_DATA : pystr :=
  py "No valid data parsed from document.".

(** tasks.py line 71. *)
Definition EXC_TITLE_PREFIX : pystr :=
  py "Title '".

(** tasks.py line 71. *)
Definition EXC_TITLE_SUFFIX : pystr :=
  py "' not in recognized keywords.".

(** tasks.py line 77: the file could not be created. *)
Definition MSG_FILE : pystr :=
  [0x30D5; 0x30A1; 0x30A4; 0x30EB; 0x306E; 0x4F5C; 0x6210; 0x306B;
   0x5931; 0x6557; 0x3057; 0x307E; 0x3057; 0x305F; 0x3002; 0x304A;
   0x624B; 0x6570; 0x3067; 0x3059; 0x304C; 0x3001; 0x30C6; 0x30EC;
   0x30DE; 0x30B9; 0x306B; 0x3066; 0x624B; 0x5165; 0x529B; 0x3057;
   0x3066; 0x304F; 0x3060; 0x3055; 0x3044; 0x3002]%N.

(** tasks.py line 78, prefix of the exception message. *)
Definition EXC_CSV : pystr :=
  py "CSV generation failed: ".

(** tasks.py line 104: the result could not be saved. *)
Definition MSG_SAVE : pystr :=
  [0x51E6; 0x7406; 0x7D50; 0x679C; 0x3092; 0x4FDD; 0x5B58; 0x3059;
   0x308B; 0x969B; 0x306B; 0x30A8; 0x30E9; 0x30FC; 0x304C; 0x767A;
   0x751F; 0x3057; 0x307E; 0x3057; 0x305F; 0x3002; 0x304A; 0x624B;
   0x6570; 0x3067; 0x3059; 0x304C; 0x3001; 0x30C6; 0x30EC; 0x30DE;
   0x30B9; 0x306B; 0x3066; 0x624B; 0x5165; 0x529B; 0x3057; 0x3066;
   0x304F; 0x3060; 0x3055; 0x3044; 0x3002]%N.

(** tasks.py line 105, prefix of the exception message. *)
Definition EXC_S3 : pystr :=
  py "S3 Upload failed: ".

(** tasks.py lines 109 and 112: U+300C. *)
Definition QUOTE_OPEN : pystr :=
  [0x300C]%N.

(** tasks.py line 109: U+300D and the notice of completion. *)
Definition SUCCESS_SUFFIX : pystr :=
  [0x300D; 0x306E; 0x51E6; 0x7406; 0x3068; 0x30A2; 0x30C3; 0x30D7;
   0x30ED; 0x30FC; 0x30C9; 0x304C; 0x6B63; 0x5E38; 0x306B; 0x5B8C;
   0x4E86; 0x3057; 0x307E; 0x3057; 0x305F; 0x3002]%N.

(** tasks.py line 112: U+300D. *)
Definition QUOTE_CLOSE : pystr :=
  [0x300D]%N.

(** tasks.py line 117, prefix of the exception message. *)
Definition EXC_SEND : pystr :=
  [0x6210; 0x529F; 0x30E1; 0x30C3; 0x30BB; 0x30FC; 0x30B8; 0x306E;
   0x9001; 0x4FE1; 0x306B; 0x5931; 0x6557; 0x3057; 0x307E; 0x3057;
   0x305F; 0x003A; 0x0020]%N.

(** tasks.py line 123: an unexpected problem. *)
Definition MSG_UNEXPECTED : pystr :=
  [0x51E6; 0x7406; 0x4E2D; 0x306B; 0x4E88; 0x671F; 0x305B; 0x306C;
   0x554F; 0x984C; 0x304C; 0x767A; 0x751F; 0x3057; 0x307E; 0x3057;
   0x305F; 0x3002; 0x304A; 0x624B; 0x6570; 0x3067; 0x3059; 0x304C;
   0x3001; 0x30C6; 0x30EC; 0x30DE; 0x30B9; 0x306B; 0x3066; 0x624B;
   0x5165; 0x529B; 0x3057; 0x3066; 0x304F; 0x3060; 0x3055; 0x3044;
   0x3002]%N.

(** The messages a user can receive when the task fails. *)
Definition USER_ERROR_MESSAGES : list pystr :=
  [MSG_STORE_CODE; MSG_PHOTO; MSG_OCR; MSG_RETAKE; MSG_FILE; MSG_SAVE;
   MSG_UNEXPECTED].

(** What a collaborator returns by the convention [(value, None)] on
    success and [(None, message)] on failure, the message being a
    non-empty string. *)
Inductive Reply (A : Type) : Type :=
| Value (a : A)
| Error (err : pystr).
Arguments Value {A} a.
Arguments Error {A} err.

(** The calls of the task that act on the outside world. *)
Inductive Event : Type :=
| SendMessage (recipient_id text : pystr)
| UploadErrorImage (store_code : pystr) (image_bytes processed_image_bytes : bytes)
| UploadProcessedResults (is_review_needed : bool) (store_code csv_filename : pystr)
    (image_bytes csv_bytes processed_image_bytes : bytes)
| UploadToS3 (csv_bytes : bytes) (s3_filename : pystr).

(** The state of a run: the calls made so far and the local variable
    [user_facing_error]. *)
Record TaskState := {
  trace : list Event;
  user_facing_error : pystr
}.

(** Computations that act on the state and may raise. *)
Definition Eff (A : Type) : Type := TaskState -> M A * TaskState.

Definition ret {A : Type} (a : A) : Eff A := fun s => (Return a, s).

Definition raise {A : Type} (e : exn) : Eff A := fun s => (Raise e, s).

Definition lift {A : Type} (c : M A) : Eff A := fun s => (c, s).

Definition bindE {A B : Type} (c : Eff A) (k : A -> Eff B) : Eff B :=
  fun s =>
    match c s with
    | (Return a, s') => k a s'
    | (Raise e, s') => (Raise e, s')
    end.

Definition try_exceptE {A : Type} (c : Eff A) (h : exn -> Eff A) : Eff A :=
  fun s =>
    match c s with
    | (Return a, s') => (Return a, s')
    | (Raise e, s') => h e s'
    end.

Definition emit (ev : Event) : Eff unit :=
  fun s => (Return tt, {| trace := trace s ++ [ev];
                          user_facing_error := user_facing_error s |}).

Definition set_user_facing_error (msg : pystr) : Eff unit :=
  fun s => (Return tt, {| trace := trace s; user_facing_error := msg |}).

Definition get_user_facing_error : Eff pystr :=
  fun s => (Return (user_facing_error s), s).

Notation "x <~ c ;; k" := (bindE c (fun x => k))
  (at level 61, c at next level, right associativity).

(** [user_facing_error = msg; raise Exception(exc)] *)
Definition fail_with {A : Type} (msg : pystr) (exc : exn) : Eff A :=
  _ <~ set_user_facing_error msg ;; raise exc.

(** [value, err = ...; if err: user_facing_error = msg; raise
    Exception(prefix + err)] *)
Definition checked {A : Type} (r : Reply A) (msg prefix : pystr) : Eff A :=
  match r with
  | Value a => ret a
  | Error err => fail_with msg (prefix ++ err)
  end.

Section Tasks.

(** The collaborators; each may raise. The clock reading of
    [generate_csv_filename] is a parameter as well. *)
Variable lineworks_api_get_store_code_by_user : option pystr -> M (Reply pystr).
Variable lineworks_api_download_lw_attachment : option pystr -> M (Reply bytes).
Variable lineworks_api_send_lw_message : pystr -> pystr -> M (option pystr).
Variable image_processor_process_image : bytes -> M bytes.
Variable document_ai_processor_process_document :
  bytes -> pystr -> M (Reply Document).
Variable gcs_uploader_upload_error_image : pystr -> bytes -> bytes -> M unit.
Variable gcs_uploader_upload_processed_results :
  bool -> pystr -> pystr -> bytes -> bytes -> bytes -> M unit.
Variable s3_uploader_upload_to_s3 : bytes -> pystr -> M (Reply pystr).
Variable timestamp_str : pystr.

(** [lineworks_api.send_lw_message(recipient_id, {"content": {"type":
    "text", "text": text}})] *)
Definition send_text (recipient_id text : pystr) : Eff (option pystr) :=
  _ <~ emit (SendMessage recipient_id text) ;;
  lift (lineworks_api_send_lw_message recipient_id text).

(** The [try] block of [process_image_and_reply]. *)
Definition process_try (file_id user_id : option pystr) (recipient_id : pystr)
    : Eff unit :=
  r <~ lift (lineworks_api_get_store_code_by_user user_id) ;;
  store_code <~ checked r MSG_STORE_CODE EXC_STORE_CODE ;;
  r <~ lift (lineworks_api_download_lw_attachment file_id) ;;
  file_bytes <~ checked r MSG_PHOTO EXC_DOWNLOAD ;;
  processed_file_bytes <~ lift (image_processor_process_image file_bytes) ;;
  r <~ lift (document_ai_processor_process_document processed_file_bytes
               (py "image/jpeg")) ;;
  document <~ checked r MSG_OCR EXC_DOCUMENT_AI ;;
  let result := parse_document_entities document in
  let parsed_data := data result in
  let is_review_needed := review_needed result in
  let user_warning := warning result in
  let title_field := title parsed_data in
  if negb (opt_truthy title_field) then
    _ <~ emit (UploadErrorImage store_code file_bytes processed_file_bytes) ;;
    _ <~ lift (gcs_uploader_upload_error_image store_code file_bytes
                 processed_file_bytes) ;;
    fail_with MSG_RETAKE EXC_NO_DATA
  else
    let title := match title_field with Some t => t | None => [] end in
    if negb (existsb (eqb title) config.KEYWORDS) then
      fail_with MSG_RETAKE (EXC_TITLE_PREFIX ++ title ++ EXC_TITLE_SUFFIX)
    else
      let '(csv_content, err) := generate_csv_content parsed_data in
      _ <~ (if opt_truthy err
            then fail_with MSG_FILE
                   (EXC_CSV ++ match err with Some m => m | None => [] end)
            else ret tt) ;;
      csv_content_bytes <~ lift (utf8_encode csv_content) ;;
      let gcs_filename :=
        generate_csv_filename timestamp_str store_code
          title_field in
      _ <~ try_exceptE
             (_ <~ emit (UploadProcessedResults is_review_needed store_code
                           gcs_filename file_bytes csv_content_bytes
                           processed_file_bytes) ;;
              lift (gcs_uploader_upload_processed_results is_review_needed
                      store_code gcs_filename file_bytes csv_content_bytes
                      processed_file_bytes))
             (fun _ => ret tt) ;;
      _ <~ emit (UploadToS3 csv_content_bytes gcs_filename) ;;
      r <~ lift (s3_uploader_upload_to_s3 csv_content_bytes gcs_filename) ;;
      _ <~ checked r MSG_SAVE EXC_S3 ;;
      let success_message := QUOTE_OPEN ++ title ++ SUCCESS_SUFFIX in
      let success_message :=
        if opt_truthy user_warning
        then QUOTE_OPEN ++ title ++ QUOTE_CLOSE
             ++ match user_warning with Some w => w | None => [] end
        else success_message in
      err <~ send_text recipient_id success_message ;;
      if opt_truthy err
      then raise (EXC_SEND ++ match err with Some m => m | None => [] end)
      else ret tt.

(** The handler [except Exception as e]. *)
Definition process_except (recipient_id : pystr) (e : exn) : Eff unit :=
  user_facing_error <~ get_user_facing_error ;;
  let user_facing_error :=
    if negb (truthy user_facing_error) then MSG_UNEXPECTED
    else user_facing_error in
  err_send <~ send_text recipient_id user_facing_error ;;
  raise e.

Definition process_image_and_reply (file_id user_id channel_id : option pystr)
    : Eff unit :=
  let recipient_id := if opt_truthy user_id then user_id else channel_id in
  if negb (opt_truthy recipient_id) then raise ERR_NO_RECIPIENT
  else
    let recipient_id := match recipient_id with Some r => r | None => [] end in
    _ <~ set_user_facing_error [] ;;
    try_exceptE (process_try file_id user_id recipient_id)
                (process_except recipient_id).

(** A run from the start: no call made yet. *)
Definition run_task (file_id user_id channel_id : option pystr)
    : M unit * TaskState :=
  process_image_and_reply file_id user_id channel_id
    {| trace := []; user_facing_error := [] |}.

End Tasks.

(** A computation keeps an invariant of the state. *)
Definition keeps {A : Type} (I : TaskState -> Prop) (c : Eff A) : Prop :=
  forall s, I s -> I (snd (c s)).

(** The message the user is to receive is still unset or is one of the
    fixed error messages. *)
Definition error_message_known (s : TaskState) : Prop :=
  user_facing_error s = [] \/ In (user_facing_error s) USER_ERROR_MESSAGES.

(** The value of [recipient_id]: the user if there is one, the channel
    otherwise. *)
Definition recipient_of (user_id channel_id : option pystr) : option pystr :=
  if opt_truthy user_id then user_id else channel_id.

(** An upload of results, to the archive storage or to S3, is justified
    in a run of the task on [file_id] and [user_id] when all it carries
    was derived in that run: the store code of the user, the attachment
    as downloaded and as processed, and the CSV bytes and the file name
    made from the document recognised in the processed image, whose parsed
    title is one of the keywords. *)
Definition upload_is_justified
    (lineworks_api_get_store_code_by_user : option pystr -> M (Reply pystr))
    (lineworks_api_download_lw_attachment : option pystr -> M (Reply bytes))
    (image_processor_process_image : bytes -> M bytes)
    (document_ai_processor_process_document :
       bytes -> pystr -> M (Reply Document))
    (timestamp_str : pystr) (file_id user_id : option pystr) (ev : Event)
    : Prop :=
  match ev with
  | SendMessage _ _ | UploadErrorImage _ _ _ => True
  | _ =>
    exists store_code file_bytes processed_file_bytes document t
           csv_content_bytes,
      lineworks_api_get_store_code_by_user user_id
      = Return (Value store_code) /\
      lineworks_api_download_lw_attachment file_id
      = Return (Value file_bytes) /\
      image_processor_process_image file_bytes
      = Return processed_file_bytes /\
      document_ai_processor_process_document processed_file_bytes
        (py "image/jpeg")
      = Return (Value document) /\
      title (data (parse_document_entities document)) = Some t /\
      In t config.KEYWORDS /\
      utf8_encode (fst (generate_csv_content
                          (data (parse_document_entities document))))
      = Return csv_content_bytes /\
      (ev = UploadProcessedResults
              (review_needed (parse_document_entities document)) store_code
              (generate_csv_filename timestamp_str store_code (Some t))
              file_bytes csv_content_bytes processed_file_bytes \/
       ev = UploadToS3 csv_content_bytes
              (generate_csv_filename timestamp_str store_code (Some t)))
  end.

(** Collaborators that always succeed, for checking concrete runs. *)
Definition store_code_ok : option pystr -> M (Reply pystr) :=
  fun _ => Return (Value (py "S01")).
Definition download_ok : option pystr -> M (Reply bytes) :=
  fun _ => Return (Value [0xFF; 0xD8]%N).
Definition send_ok : pystr -> pystr -> M (option pystr) :=
  fun _ _ => Return None.
Definition process_image_ok : bytes -> M bytes := fun b => Return b.
Definition upload_error_image_ok : pystr -> bytes -> bytes -> M unit :=
  fun _ _ _ => Return tt.
Definition upload_results_ok
    : bool -> pystr -> pystr -> bytes -> bytes -> bytes -> M unit :=
  fun _ _ _ _ _ _ => Return tt.
Definition upload_to_s3_ok : bytes -> pystr -> M (Reply pystr) :=
  fun _ name => Return (Value name).
Definition download_fails : option pystr -> M (Reply bytes) :=
  fun _ => Return (Error (py "fileId is missing")).
Definition upload_results_fails
    : bool -> pystr -> pystr -> bytes -> bytes -> bytes -> M unit :=
  fun _ _ _ _ _ _ => Raise (py "archive storage is unreachable").

(** Recognition services that return a fixed document. *)
Definition recognises (document : Document)
    : bytes -> pystr -> M (Reply Document) :=
  fun _ _ => Return (Value document).

(** A cash-payment form (title U+73FE U+91D1 U+652F U+6255) with one
    line, a form whose title is not a keyword, and a form without title. *)
Definition doc_cash_payment : Document :=
  {| entities := [ box T_TITLE config.KW_CASH_PAYMENT 0.3 0.7 0.02 0.06;
                   box T_ITEM (py "tea") 0.1 0.4 0.19 0.21;
                   box T_AMOUNT (py "100") 0.6 0.8 0.19 0.21 ] |}.

Definition doc_memo : Document :=
  {| entities := [ box T_TITLE (py "memo") 0.3 0.7 0.02 0.06;
                   box T_ITEM (py "tea") 0.1 0.4 0.19 0.21;
                   box T_AMOUNT (py "100") 0.6 0.8 0.19 0.21 ] |}.

(* ================================================================== *)
(** * Properties *)

(** ** Strings *)

Module PyStrFacts.

Lemma eqb_eq a b : eqb a b = true <-> a = b.
Proof.
  unfold eqb. destruct (list_eq_dec N.eq_dec a b); split; congruence.
Qed.

Lemma eqb_refl a : eqb a a = true.
Proof. now apply eqb_eq. Qed.

Lemma contains_In s c : contains s c = true <-> In c s.
Proof.
  unfold contains. rewrite existsb_exists. split.
  - intros (d & Hd & E). apply N.eqb_eq in E. now subst.
  - intros H. exists c. split; [assumption | apply N.eqb_refl].
Qed.

Lemma truthy_false s : truthy s = false <-> s = [].
Proof. destruct s; simpl; split; congruence. Qed.

Lemma truthy_true s : truthy s = true <-> s <> [].
Proof. destruct s; simpl; split; congruence. Qed.

Lemma digits_only_nil s :
  (forall c, In c s -> is_digit c = false) -> digits_only s = [].
Proof.
  unfold digits_only. induction s as [|c s IH]; simpl; intros H.
  - reflexivity.
  - rewrite (H c) by now left. apply IH. intros d Hd. apply H. now right.
Qed.

End PyStrFacts.
Import PyStrFacts.

(** ** Title normalization *)

Lemma any_in_spec chars s :
  any_in chars s = true <-> exists c, In c chars /\ In c s.
Proof.
  unfold any_in. rewrite existsb_exists.
  split; intros (c & Hc & H); exists c; split; auto; now apply contains_In.
Qed.

(** The result is the input or one of the four keywords. *)
Lemma _normalize_title_cases x :
  _normalize_title x = x \/ In (_normalize_title x) config.KEYWORDS.
Proof.
  unfold _normalize_title.
  destruct (negb (truthy x)); [now left|].
  destruct (any_in config.CREDIT_CHARS x), (any_in config.CASH_CHARS x),
    (any_in config.PAYMENT_CHARS x), (any_in config.RECEIPT_CHARS x);
    simpl; auto 6.
Qed.

Lemma _normalize_title_keyword k :
  In k config.KEYWORDS -> _normalize_title k = k.
Proof.
  simpl. intros [<-|[<-|[<-|[<-|[]]]]]; reflexivity.
Qed.

(** C6. Title normalization is idempotent: normalizing an already
    normalized title leaves it unchanged, for every string. *)
Theorem normalize_title_idempotent (x : pystr) :
  _normalize_title (_normalize_title x) = _normalize_title x.
Proof.
  destruct (_normalize_title_cases x) as [E | K].
  - now rewrite !E.
  - now apply _normalize_title_keyword.
Qed.

(** C7. A raw title that contains at least one credit-indicator character
    and at least one cash-indicator character is returned unchanged. *)
Theorem normalize_title_credit_and_cash_unchanged (raw_title : pystr) :
  (exists c, In c config.CREDIT_CHARS /\ In c raw_title) ->
  (exists c, In c config.CASH_CHARS /\ In c raw_title) ->
  _normalize_title raw_title = raw_title.
Proof.
  intros Hcredit Hcash.
  apply any_in_spec in Hcredit. apply any_in_spec in Hcash.
  unfold _normalize_title. rewrite Hcredit, Hcash.
  now destruct (negb (truthy raw_title)).
Qed.

(** An ambiguous title: U+30AF (credit) and U+73FE (cash) with payment
    characters. *)
Lemma normalize_title_credit_and_cash_witness :
  _normalize_title [0x30AF; 0x73FE; 0x91D1; 0x652F; 0x6255]%N
  = [0x30AF; 0x73FE; 0x91D1; 0x652F; 0x6255]%N.
Proof.
  apply normalize_title_credit_and_cash_unchanged.
  - exists 0x30AF%N. split; simpl; auto.
  - exists 0x73FE%N. split; simpl; auto.
Defined.

(** ** Rational comparisons, [min] and [max] *)

Lemma Qltb_lt a b : Qltb a b = true <-> a < b.
Proof.
  unfold Qltb. rewrite negb_true_iff, <- not_true_iff_false, Qle_bool_iff.
  split; [apply Qnot_le_lt | apply Qlt_not_le].
Qed.

Lemma Qltb_ge a b : Qltb a b = false <-> b <= a.
Proof.
  unfold Qltb. rewrite negb_false_iff. apply Qle_bool_iff.
Qed.

Lemma fold_min_le rest : forall x0,
  fold_left (fun m c => if Qltb c m then c else m) rest x0 <= x0.
Proof.
  induction rest as [|c rest IH]; simpl; intros x0.
  - apply Qle_refl.
  - destruct (Qltb c x0) eqn:E.
    + apply Qltb_lt in E. eapply Qle_trans; [apply IH | now apply Qlt_le_weak].
    + apply IH.
Qed.

Lemma fold_max_ge rest : forall x0,
  x0 <= fold_left (fun m c => if Qltb m c then c else m) rest x0.
Proof.
  induction rest as [|c rest IH]; simpl; intros x0.
  - apply Qle_refl.
  - destruct (Qltb x0 c) eqn:E.
    + apply Qltb_lt in E. eapply Qle_trans; [apply Qlt_le_weak, E | apply IH].
    + apply IH.
Qed.

Lemma py_min_le_py_max l lo hi :
  py_min l = Some lo -> py_max l = Some hi -> lo <= hi.
Proof.
  destruct l as [|c rest]; simpl; [discriminate|].
  intros [= <-] [= <-].
  eapply Qle_trans; [apply fold_min_le | apply fold_max_ge].
Qed.

Lemma py_min_None l : py_min l = None <-> l = [].
Proof. destruct l; simpl; split; congruence. Qed.

Lemma py_max_None l : py_max l = None <-> l = [].
Proof. destruct l; simpl; split; congruence. Qed.

(** ** [sorted] *)

Section SortedFacts.
Variable A : Type.
Variable key : A -> Q.

Lemma insert_by_perm x l : Permutation (x :: l) (insert_by key x l).
Proof.
  induction l as [|y l IH]; simpl.
  - apply Permutation_refl.
  - destruct (Qle_bool (key x) (key y)).
    + apply Permutation_refl.
    + eapply perm_trans; [apply perm_swap | now apply perm_skip].
Qed.

Lemma sorted_by_perm l : Permutation l (sorted_by key l).
Proof.
  induction l as [|x l IH]; simpl.
  - apply perm_nil.
  - eapply perm_trans; [apply perm_skip, IH | apply insert_by_perm].
Qed.

Lemma sorted_by_length l : length (sorted_by key l) = length l.
Proof. symmetry. apply Permutation_length, sorted_by_perm. Qed.

Lemma sorted_by_nil l : sorted_by key l = [] <-> l = [].
Proof.
  split; intros H.
  - apply length_zero_iff_nil. rewrite <- sorted_by_length, H. reflexivity.
  - subst. reflexivity.
Qed.

Lemma insert_by_sorted x l :
  StronglySorted (key_le key) l -> StronglySorted (key_le key) (insert_by key x l).
Proof.
  induction 1 as [|y l Hl IH Hy]; simpl.
  - repeat constructor.
  - destruct (Qle_bool (key x) (key y)) eqn:E.
    + apply Qle_bool_iff in E. constructor.
      * now constructor.
      * constructor; [exact E|].
        eapply Forall_impl; [|exact Hy].
        intros b Hb. unfold key_le in *. eapply Qle_trans; eassumption.
    + assert (Hyx : key y <= key x).
      { apply Qlt_le_weak, Qltb_lt. unfold Qltb. now rewrite E. }
      constructor; [exact IH|].
      eapply Permutation_Forall; [apply insert_by_perm|].
      constructor; assumption.
Qed.

(** The result of [sorted] is in ascending key order. *)
Lemma sorted_by_sorted l : StronglySorted (key_le key) (sorted_by key l).
Proof.
  induction l as [|x l IH]; simpl.
  - constructor.
  - now apply insert_by_sorted.
Qed.

(** A list already in ascending order is left as it is. *)
Lemma sorted_by_id l : Sorted (key_le key) l -> sorted_by key l = l.
Proof.
  induction 1 as [|x l Hl IH Hx]; simpl.
  - reflexivity.
  - rewrite IH. destruct Hx as [|y l Hxy]; simpl.
    + reflexivity.
    + apply Qle_bool_iff in Hxy. now rewrite Hxy.
Qed.

Lemma Sorted_lt_le l : Sorted (key_lt key) l -> Sorted (key_le key) l.
Proof.
  induction 1 as [|x l Hl IH Hx]; constructor; auto.
  destruct Hx; constructor. now apply Qlt_le_weak.
Qed.

Lemma insert_by_strict x l :
  Forall (fun b => ~ key x == key b) l ->
  StronglySorted (key_lt key) l -> StronglySorted (key_lt key) (insert_by key x l).
Proof.
  intros Hx Hl. revert Hx.
  induction Hl as [|y l Hl IH Hy]; simpl; intros Hx.
  - repeat constructor.
  - inversion Hx as [|? ? Hxy Hxl]; subst.
    destruct (Qle_bool (key x) (key y)) eqn:E.
    + apply Qle_bool_iff in E.
      assert (Hlt : key x < key y).
      { apply Qle_lteq in E. destruct E as [E|E]; [exact E | contradiction]. }
      constructor.
      * now constructor.
      * constructor; [exact Hlt|].
        eapply Forall_impl; [|exact Hy].
        intros b Hb. unfold key_lt in *. eapply Qlt_trans; eassumption.
    + assert (Hyx : key y < key x).
      { apply Qltb_lt. unfold Qltb. now rewrite E. }
      constructor; [now apply IH|].
      eapply Permutation_Forall; [apply insert_by_perm|].
      constructor; assumption.
Qed.

(** With pairwise distinct keys the result is strictly ascending. *)
Lemma sorted_by_strict l :
  distinct_keys key l -> StronglySorted (key_lt key) (sorted_by key l).
Proof.
  induction 1 as [|x l Hx Hl IH]; simpl.
  - constructor.
  - apply insert_by_strict; [|exact IH].
    eapply Permutation_Forall; [apply sorted_by_perm | exact Hx].
Qed.

End SortedFacts.

(** ** Fragment geometry *)

Lemma create_parsed_entity_Some entity parsed :
  _create_parsed_entity entity = Some parsed ->
  exists ref0 rest y_min y_max,
    page_refs (page_anchor entity) = ref0 :: rest /\
    (4 <= length (normalized_vertices (bounding_poly ref0)))%nat /\
    py_min (coords y (normalized_vertices (bounding_poly ref0))) = Some y_min /\
    py_max (coords y (normalized_vertices (bounding_poly ref0))) = Some y_max /\
    coords x (normalized_vertices (bounding_poly ref0)) <> [] /\
    height parsed = y_max - y_min /\
    type parsed = type_ entity.
Proof.
  unfold _create_parsed_entity.
  destruct (page_refs (page_anchor entity)) as [|ref0 rest]; [discriminate|].
  destruct (Nat.ltb_spec (length (normalized_vertices (bounding_poly ref0))) 4)
    as [Hlt|Hge]; [discriminate|].
  destruct (py_min (coords y _)) as [lo|] eqn:Ey1; [|discriminate].
  destruct (py_max (coords y _)) as [hi|] eqn:Ey2; [|discriminate].
  destruct (py_min (coords x _)) as [xl|] eqn:Ex1; [|discriminate].
  destruct (py_max (coords x _)) as [xh|] eqn:Ex2; [|discriminate].
  intros [= <-]. exists ref0, rest, lo, hi. simpl.
  repeat split; auto.
  intros E. rewrite E in Ex1. discriminate.
Qed.

Lemma create_parsed_entity_None entity :
  _create_parsed_entity entity = None -> ~ usable_geometry entity.
Proof.
  unfold _create_parsed_entity.
  intros H (ref0 & rest & Hrefs & Hlen & Hx & Hy).
  rewrite Hrefs in H.
  destruct (Nat.ltb_spec (length (normalized_vertices (bounding_poly ref0))) 4)
    as [Hlt|_]; [lia|].
  destruct (coords x _) as [|cx xs]; [congruence|].
  destruct (coords y _) as [|cy ys]; [congruence|].
  discriminate.
Qed.

(** C2 (amended). Every fragment box that the geometry derivation produces
    has height [y_max - y_min >= 0]; the derivation returns nothing exactly
    when the fragment has no page reference, fewer than four vertices, or
    an empty x or y coordinate list. *)
Theorem create_parsed_entity_height_nonneg (entity : Entity) :
  match _create_parsed_entity entity with
  | Some parsed => 0 <= height parsed /\ usable_geometry entity
  | None => ~ usable_geometry entity
  end.
Proof.
  destruct (_create_parsed_entity entity) as [parsed|] eqn:E.
  - apply create_parsed_entity_Some in E.
    destruct E as (ref0 & rest & lo & hi & Hrefs & Hlen & Hlo & Hhi & Hx & Hh & _).
    split.
    + rewrite Hh. unfold Qminus. rewrite <- Qle_minus_iff.
      eapply py_min_le_py_max; eassumption.
    + exists ref0, rest. repeat split; auto.
      intros Ey. rewrite Ey in Hlo. discriminate.
  - now apply create_parsed_entity_None.
Qed.

(** C2, as stated, fails: a fragment whose vertices share one y coordinate
    is kept, with height zero. *)
Lemma create_parsed_entity_zero_height :
  exists parsed,
    _create_parsed_entity flat_entity = Some parsed /\
    height parsed == 0 /\ ~ 0 < height parsed.
Proof.
  eexists. split; [reflexivity|]. simpl. split.
  - reflexivity.
  - intros H. revert H. apply Qle_not_lt. discriminate.
Qed.

(** ** The preprocessing loop *)

Lemma fold_pre_step_entities es : forall st,
  item_entities (fold_left pre_step es st)
  = item_entities st ++ fragments_of T_ITEM {| entities := es |} /\
  amount_entities (fold_left pre_step es st)
  = amount_entities st ++ fragments_of T_AMOUNT {| entities := es |}.
Proof.
  unfold fragments_of. simpl.
  induction es as [|e es IH]; simpl; intros st.
  - now rewrite !app_nil_r.
  - destruct (IH (pre_step st e)) as [Hi Ha]. rewrite Hi, Ha. clear IH Hi Ha.
    unfold pre_step.
    destruct (eqb (type_ e) T_ITEM) eqn:Ei; simpl.
    + apply eqb_eq in Ei. rewrite Ei.
      change (eqb T_ITEM T_AMOUNT) with false.
      destruct (_create_parsed_entity e); simpl;
        now rewrite <- ?app_assoc, ?app_nil_r.
    + destruct (eqb (type_ e) T_AMOUNT) eqn:Ea; simpl.
      * destruct (_create_parsed_entity e); simpl;
          now rewrite <- ?app_assoc, ?app_nil_r.
      * destruct (eqb (type_ e) T_TITLE); [destruct (title _); simpl; auto|].
        destruct (eqb (type_ e) T_SHOP_NAME); [destruct (shop_name _); simpl; auto|].
        destruct (eqb (type_ e) T_DATE); [destruct (date _); simpl; auto|].
        auto.
Qed.

(** The two lists of step 1 are the usable fragments of each kind, in
    document order. *)
Lemma preprocess_item_entities document :
  item_entities (preprocess document) = fragments_of T_ITEM document.
Proof.
  destruct document as [es]. unfold preprocess. simpl.
  now rewrite (proj1 (fold_pre_step_entities es _)).
Qed.

Lemma preprocess_amount_entities document :
  amount_entities (preprocess document) = fragments_of T_AMOUNT document.
Proof.
  destruct document as [es]. unfold preprocess. simpl.
  now rewrite (proj2 (fold_pre_step_entities es _)).
Qed.

(** ** The two strategies *)

Lemma length_eqb_0 (A : Type) (l : list A) :
  Nat.eqb (length l) 0 = true <-> l = [].
Proof. rewrite Nat.eqb_eq. apply length_zero_iff_nil. Qed.

(** Equal, non-zero counts: ordinal pairing. *)
Lemma parse_ordinal document :
  item_entities (preprocess document) <> [] ->
  length (item_entities (preprocess document))
  = length (amount_entities (preprocess document)) ->
  parse_document_entities document
  = {| data :=
         set_line_items (extracted_data (preprocess document))
           (pair_ordinal
              (sorted_by center_y (item_entities (preprocess document)))
              (sorted_by center_y (amount_entities (preprocess document))));
       review_needed := false;
       warning := None |}.
Proof.
  intros Hne Hlen. unfold parse_document_entities.
  rewrite <- Hlen, Nat.eqb_refl.
  destruct (Nat.eqb (length (item_entities (preprocess document))) 0) eqn:E.
  - apply length_eqb_0 in E. contradiction.
  - reflexivity.
Qed.

(** Unequal counts: row grouping. *)
Lemma parse_rows document :
  length (item_entities (preprocess document))
  <> length (amount_entities (preprocess document)) ->
  parse_document_entities document
  = let st := fold_left row_step (row_groups_of document) ([], false) in
    {| data := set_line_items (extracted_data (preprocess document)) (fst st);
       review_needed := snd st;
       warning := make_warning (snd st) (fst st) |}.
Proof.
  intros Hlen. unfold parse_document_entities, row_groups_of.
  apply Nat.eqb_neq in Hlen. rewrite Hlen, andb_false_r.
  destruct (item_entities (preprocess document) ++ amount_entities (preprocess document))
    as [|e0 all] eqn:Eall.
  - apply app_eq_nil in Eall. destruct Eall as [Ei Ea].
    rewrite Ei, Ea in Hlen. discriminate.
  - cbv zeta.
    destruct (fold_left row_step _ _) as [ls rv]. reflexivity.
Qed.

Lemma row_step_output st row :
  row_step st row = (fst st ++ row_output row, snd st || row_flag row).
Proof.
  destruct st as [ls rv]. unfold row_output, row_flag, row_step. simpl fst. simpl snd.
  destruct (row_final_amount_text row) as [amt overlap].
  destruct (truthy (row_final_item_text row)), (truthy amt), overlap, rv;
    simpl; rewrite ?app_nil_r; reflexivity.
Qed.

Lemma fold_row_step rows : forall st,
  fold_left row_step rows st
  = (fst st ++ flat_map row_output rows, snd st || existsb row_flag rows).
Proof.
  induction rows as [|row rows IH]; intros st; simpl.
  - rewrite app_nil_r, orb_false_r. now destruct st.
  - rewrite IH, row_step_output. simpl.
    now rewrite <- app_assoc, <- orb_assoc.
Qed.

(** A row that emits a line item and raises the flag does so in the
    result of the whole row loop. *)
Lemma fold_row_step_In rows row li :
  In row rows -> In li (row_output row) -> row_flag row = true ->
  In li (fst (fold_left row_step rows ([], false))) /\
  snd (fold_left row_step rows ([], false)) = true.
Proof.
  intros Hrow Hli Hflag. rewrite fold_row_step. simpl. split.
  - apply in_flat_map. now exists row.
  - apply existsb_exists. now exists row.
Qed.

(** Item text present, amount text empty: amount ["0"] and review. *)
Lemma row_step_item_only st row :
  row_final_item_text row <> [] ->
  fst (row_final_amount_text row) = [] ->
  row_step st row
  = (fst st ++ [{| item := row_final_item_text row; amount := py "0" |}], true).
Proof.
  intros Hitem Hamt. destruct st as [ls rv]. unfold row_step.
  destruct (row_final_amount_text row) as [amt overlap]. simpl in Hamt. subst amt.
  apply truthy_true in Hitem. rewrite Hitem. simpl. reflexivity.
Qed.


Lemma pair_ordinal_length si sa :
  length si = length sa -> length (pair_ordinal si sa) = length si.
Proof.
  intros H. unfold pair_ordinal.
  rewrite length_map, length_combine, <- H. apply Nat.min_id.
Qed.

Lemma pair_ordinal_nth_error si : forall sa i it am,
  nth_error si i = Some it -> nth_error sa i = Some am ->
  nth_error (pair_ordinal si sa) i = Some (ordinal_line_item it am).
Proof.
  induction si as [|i0 si IH]; intros [|a0 sa] [|i] it am; simpl;
    try discriminate.
  - now intros [= <-] [= <-].
  - apply IH.
Qed.

(** ** Claims on [parse_document_entities] *)

(** C8. When the document yields no usable item fragment and no usable
    amount fragment, the result has an empty list of line items, no
    review flag and no user warning. *)
Theorem parse_no_fragments (document : Document) :
  item_entities (preprocess document) = [] ->
  amount_entities (preprocess document) = [] ->
  line_items (data (parse_document_entities document)) = [] /\
  review_needed (parse_document_entities document) = false /\
  warning (parse_document_entities document) = None.
Proof.
  intros Hi Ha. unfold parse_document_entities. rewrite Hi, Ha. simpl. auto.
Qed.

Lemma parse_no_fragments_witness :
  line_items (data (parse_document_entities doc_no_fragments)) = [] /\
  review_needed (parse_document_entities doc_no_fragments) = false /\
  warning (parse_document_entities doc_no_fragments) = None.
Proof.
  apply parse_no_fragments; reflexivity.
Defined.

(** C3. With N >= 1 item fragments and N amount fragments, each kind at
    pairwise distinct y positions, ordinal pairing is used: the result has
    exactly N line items, the i-th one pairing the i-th item with the i-th
    amount in strictly ascending [center_y] order (which is the document
    order when the fragments are listed top to bottom), the review flag is
    not set and there is no warning. *)
Theorem ordinal_pairing_vertical_order (document : Document) (N : nat) :
  let items := item_entities (preprocess document) in
  let amounts := amount_entities (preprocess document) in
  let sorted_items := sorted_by center_y items in
  let sorted_amounts := sorted_by center_y amounts in
  let result := parse_document_entities document in
  (1 <= N)%nat -> length items = N -> length amounts = N ->
  distinct_keys center_y items -> distinct_keys center_y amounts ->
  Permutation items sorted_items /\
  StronglySorted (key_lt center_y) sorted_items /\
  Permutation amounts sorted_amounts /\
  StronglySorted (key_lt center_y) sorted_amounts /\
  (Sorted (key_lt center_y) items -> sorted_items = items) /\
  (Sorted (key_lt center_y) amounts -> sorted_amounts = amounts) /\
  length (line_items (data result)) = N /\
  (forall i, (i < N)%nat ->
     exists it am,
       nth_error sorted_items i = Some it /\
       nth_error sorted_amounts i = Some am /\
       nth_error (line_items (data result)) i
       = Some {| item := clean_item_text (text it);
                 amount := digits_only (text am) |}) /\
  review_needed result = false /\
  warning result = None.
Proof.
  intros items amounts sorted_items sorted_amounts result HN Hi Ha Di Da.
  assert (Hne : items <> []).
  { intros E. rewrite E in Hi. simpl in Hi. lia. }
  assert (Hres : result = _)
    by (apply parse_ordinal; [exact Hne | now transitivity N]).
  fold items amounts in Hres. fold sorted_items sorted_amounts in Hres.
  assert (Hls : length sorted_items = N)
    by (unfold sorted_items; now rewrite sorted_by_length).
  assert (Hla : length sorted_amounts = N)
    by (unfold sorted_amounts; now rewrite sorted_by_length).
  rewrite Hres. simpl.
  repeat split.
  - apply sorted_by_perm.
  - now apply sorted_by_strict.
  - apply sorted_by_perm.
  - now apply sorted_by_strict.
  - intros S. now apply sorted_by_id, Sorted_lt_le.
  - intros S. now apply sorted_by_id, Sorted_lt_le.
  - rewrite pair_ordinal_length; congruence.
  - intros i Hlt.
    destruct (nth_error sorted_items i) as [it|] eqn:Eit.
    2:{ apply nth_error_None in Eit. lia. }
    destruct (nth_error sorted_amounts i) as [am|] eqn:Eam.
    2:{ apply nth_error_None in Eam. lia. }
    exists it, am. repeat split.
    now apply pair_ordinal_nth_error.
Qed.

Lemma ordinal_pairing_vertical_order_witness :
  length (line_items (data (parse_document_entities doc_two_rows))) = 2%nat /\
  nth_error (line_items (data (parse_document_entities doc_two_rows))) 0
  = Some {| item := [0x5546; 0x54C1; 0x41]%N; amount := py "1000" |} /\
  review_needed (parse_document_entities doc_two_rows) = false /\
  warning (parse_document_entities doc_two_rows) = None.
Proof.
  assert (D : forall a b : ParsedEntity,
             Qeq_bool (center_y a) (center_y b) = false ->
             distinct_keys center_y [a; b]).
  { intros a b E. repeat constructor.
    intros H. apply Qeq_bool_iff in H. congruence. }
  destruct (@ordinal_pairing_vertical_order doc_two_rows 2)
    as (_ & _ & _ & _ & _ & _ & Hlen & Hnth & Hrev & Hwarn).
  - lia.
  - reflexivity.
  - reflexivity.
  - apply D. reflexivity.
  - apply D. reflexivity.
  - destruct (Hnth 0%nat) as (it & am & Hit & Ham & Hli); [lia|].
    vm_compute in Hit, Ham. injection Hit as <-. injection Ham as <-.
    repeat split; assumption.
Defined.

(** C1 (amended). With exactly one item fragment and exactly one amount
    fragment the counts are equal, so ordinal pairing is used whatever the
    x extents are, also when the item's [x_max] is not left of the amount's
    [x_min]: the single line item carries the digits of the amount text,
    the review flag is not set and there is no warning. *)
Theorem single_pair_is_paired_ordinally (document : Document)
    (i a : ParsedEntity) :
  item_entities (preprocess document) = [i] ->
  amount_entities (preprocess document) = [a] ->
  line_items (data (parse_document_entities document))
  = [ {| item := clean_item_text (text i); amount := digits_only (text a) |} ] /\
  review_needed (parse_document_entities document) = false /\
  warning (parse_document_entities document) = None.
Proof.
  intros Hi Ha. rewrite parse_ordinal.
  - rewrite Hi, Ha. simpl. auto.
  - rewrite Hi. discriminate.
  - now rewrite Hi, Ha.
Qed.

Lemma single_pair_is_paired_ordinally_witness :
  line_items (data (parse_document_entities doc_overlap_pair))
  = [ {| item := py "tea"; amount := py "100" |} ] /\
  review_needed (parse_document_entities doc_overlap_pair) = false /\
  warning (parse_document_entities doc_overlap_pair) = None.
Proof.
  apply (@single_pair_is_paired_ordinally doc_overlap_pair
           {| text := py "tea"; type := T_ITEM; center_y := (0.19 + 0.21) / 2;
              center_x := (0.1 + 0.7) / 2; x_min := 0.1; x_max := 0.7;
              height := 0.21 - 0.19 |}
           {| text := py "100"; type := T_AMOUNT; center_y := (0.19 + 0.21) / 2;
              center_x := (0.6 + 0.8) / 2; x_min := 0.6; x_max := 0.8;
              height := 0.21 - 0.19 |}).
  - reflexivity.
  - reflexivity.
Defined.

(** C1, as stated, fails: one item reaching x = 0.7 and one amount starting
    at x = 0.6 on the same line are paired, the amount keeps its digits
    and the review flag stays unset. *)
Lemma single_pair_overlap_keeps_amount :
  exists i a,
    item_entities (preprocess doc_overlap_pair) = [i] /\
    amount_entities (preprocess doc_overlap_pair) = [a] /\
    x_min a <= x_max i /\
    line_items (data (parse_document_entities doc_overlap_pair))
    = [ {| item := py "tea"; amount := py "100" |} ] /\
    review_needed (parse_document_entities doc_overlap_pair) = false.
Proof.
  do 2 eexists. split; [reflexivity|]. split; [reflexivity|].
  split; [simpl; discriminate|]. split; reflexivity.
Qed.



(** C10. On the ordinal-pairing path (equal, non-zero counts) an amount
    fragment whose text has no digit gives a line item whose amount is the
    empty string, and the review flag stays unset; on the row-grouping
    path (unequal counts) a row with item text and empty amount text gives
    the amount ["0"] and sets the review flag. *)
Theorem empty_amount_differs_between_strategies :
  (forall (document : Document) (i : nat) (am : ParsedEntity),
     item_entities (preprocess document) <> [] ->
     length (item_entities (preprocess document))
     = length (amount_entities (preprocess document)) ->
     nth_error (sorted_by center_y (amount_entities (preprocess document))) i
     = Some am ->
     (forall c, In c (text am) -> is_digit c = false) ->
     (exists li,
        nth_error (line_items (data (parse_document_entities document))) i
        = Some li /\ amount li = []) /\
     review_needed (parse_document_entities document) = false) /\
  (forall (document : Document) (row : list ParsedEntity),
     length (item_entities (preprocess document))
     <> length (amount_entities (preprocess document)) ->
     In row (row_groups_of document) ->
     row_final_item_text row <> [] ->
     fst (row_final_amount_text row) = [] ->
     In {| item := row_final_item_text row; amount := py "0" |}
        (line_items (data (parse_document_entities document))) /\
     review_needed (parse_document_entities document) = true).
Proof.
  split.
  - intros document i am Hne Hlen Ham Hdig.
    rewrite parse_ordinal by assumption. simpl. split; [|reflexivity].
    destruct (nth_error (sorted_by center_y (item_entities (preprocess document))) i)
      as [it|] eqn:Eit.
    + exists (ordinal_line_item it am). split.
      * now apply pair_ordinal_nth_error.
      * simpl. now apply digits_only_nil.
    + apply nth_error_None in Eit. rewrite sorted_by_length, Hlen in Eit.
      rewrite <- (sorted_by_length center_y) in Eit.
      apply nth_error_None in Eit. congruence.
  - intros document row Hlen Hrow Htext Hamt.
    rewrite parse_rows by exact Hlen. simpl.
    apply fold_row_step_In with (row := row).
    + exact Hrow.
    + unfold row_output. rewrite row_step_item_only by assumption.
      simpl. now left.
    + unfold row_flag. now rewrite row_step_item_only by assumption.
Qed.

Lemma empty_amount_differs_between_strategies_witness :
  (line_items (data (parse_document_entities doc_no_digit_amount))
   = [ {| item := py "tea"; amount := [] |} ] /\
   review_needed (parse_document_entities doc_no_digit_amount) = false) /\
  (In {| item := py "milk"; amount := py "0" |}
      (line_items (data (parse_document_entities doc_missing_amount))) /\
   review_needed (parse_document_entities doc_missing_amount) = true).
Proof.
  destruct empty_amount_differs_between_strategies as [HA HB].
  split.
  - pose (na := {| text := py "N/A"; type := T_AMOUNT;
                   center_y := (0.19 + 0.21) / 2; center_x := (0.6 + 0.8) / 2;
                   x_min := 0.6; x_max := 0.8; height := 0.21 - 0.19 |}).
    destruct (HA doc_no_digit_amount 0%nat na) as [(li & Hli & Hamt) Hrev].
    + vm_compute. discriminate.
    + vm_compute. reflexivity.
    + vm_compute. reflexivity.
    + intros c [<-|[<-|[<-|[]]]]; reflexivity.
    + split; [vm_compute; reflexivity | exact Hrev].
  - pose (milk := {| text := py "milk"; type := T_ITEM;
                     center_y := (0.39 + 0.41) / 2; center_x := (0.1 + 0.4) / 2;
                     x_min := 0.1; x_max := 0.4; height := 0.41 - 0.39 |}).
    apply (HB doc_missing_amount [milk]).
    + vm_compute. discriminate.
    + vm_compute. right. left. reflexivity.
    + vm_compute. discriminate.
    + vm_compute. reflexivity.
Defined.

(** ** Binary64 rounding *)

Module Binary64Facts.
Import SpecFloat.
Import B64 Py64.
Local Open Scope Z_scope.

Lemma digits2_pos_bounds (p : positive) :
  2 ^ (Zpos (digits2_pos p) - 1) <= Zpos p < 2 ^ Zpos (digits2_pos p).
Proof.
  induction p as [p IH|p IH|]; cbn [digits2_pos].
  - rewrite Pos2Z.inj_succ.
    replace (Z.succ (Zpos (digits2_pos p)) - 1) with (Z.succ (Zpos (digits2_pos p) - 1)) by lia.
    rewrite !Z.pow_succ_r by lia. lia.
  - rewrite Pos2Z.inj_succ.
    replace (Z.succ (Zpos (digits2_pos p)) - 1) with (Z.succ (Zpos (digits2_pos p) - 1)) by lia.
    rewrite !Z.pow_succ_r by lia. lia.
  - split; reflexivity || lia.
Qed.

Lemma digits2_pos_unique (p : positive) (d : Z) :
  2 ^ (d - 1) <= Zpos p < 2 ^ d -> 0 < d -> Zpos (digits2_pos p) = d.
Proof.
  intros [Hlo Hhi] Hd.
  pose proof (digits2_pos_bounds p) as [Blo Bhi].
  destruct (Z.lt_trichotomy (Zpos (digits2_pos p)) d) as [L|[E|G]]; [|exact E|].
  - exfalso. assert (2 ^ Zpos (digits2_pos p) <= 2 ^ (d - 1))
      by (apply Z.pow_le_mono_r; lia). lia.
  - exfalso. assert (2 ^ d <= 2 ^ (Zpos (digits2_pos p) - 1))
      by (apply Z.pow_le_mono_r; lia). lia.
Qed.

Lemma iter_xO_pow (n p : positive) :
  Zpos (Pos.iter xO p n) = Zpos p * 2 ^ Zpos n.
Proof.
  induction n as [|n IH] using Pos.peano_ind.
  - cbn. lia.
  - rewrite Pos.iter_succ, Pos2Z.inj_succ, Z.pow_succ_r by lia.
    rewrite Pos2Z.inj_xO, IH. lia.
Qed.

Lemma shr_1_nonneg (m : Z) (r s : bool) :
  0 <= m ->
  shr_1 {| shr_m := m; shr_r := r; shr_s := s |}
  = {| shr_m := m / 2; shr_r := Z.odd m; shr_s := r || s |}.
Proof.
  intros Hm. rewrite <- Z.div2_div.
  destruct m as [|[p|p|]|p]; try reflexivity. lia.
Qed.

Lemma iter_pos_nat (A : Type) (f : A -> A) (n : positive) : forall x,
  iter_pos f n x = Nat.iter (Pos.to_nat n) f x.
Proof.
  induction n as [n IH|n IH|]; intros x; cbn [iter_pos].
  - rewrite !IH, Pos2Nat.inj_xI.
    replace (S (2 * Pos.to_nat n))%nat with (Pos.to_nat n + (Pos.to_nat n + 1))%nat by lia.
    rewrite !Nat.iter_add. reflexivity.
  - rewrite !IH, Pos2Nat.inj_xO.
    replace (2 * Pos.to_nat n)%nat with (Pos.to_nat n + Pos.to_nat n)%nat by lia.
    rewrite Nat.iter_add. reflexivity.
  - reflexivity.
Qed.

Lemma shr_iter (M : Z) (k : nat) :
  0 <= M ->
  let mrs := Nat.iter k shr_1 {| shr_m := M; shr_r := false; shr_s := false |} in
  shr_m mrs = M / 2 ^ Z.of_nat k /\
  loc_of_shr_record mrs = loc_of_remainder (M mod 2 ^ Z.of_nat k) (2 ^ Z.of_nat k).
Proof.
  intros HM. cbv zeta. induction k as [|k IH].
  - cbn -[Z.div Z.modulo]. rewrite Z.div_1_r, Z.mod_1_r. auto.
  - rewrite Nat.iter_succ.
    destruct (Nat.iter k shr_1 _) as [m r s]. cbn [shr_m] in IH.
    destruct IH as [Hm Hloc].
    assert (Hp : 0 < 2 ^ Z.of_nat k) by (apply Z.pow_pos_nonneg; lia).
    assert (Hm0 : 0 <= m) by (subst m; apply Z.div_pos; lia).
    cbv zeta. rewrite shr_1_nonneg by exact Hm0. cbn [shr_m].
    rewrite Nat2Z.inj_succ, Z.pow_succ_r by lia.
    set (N := 2 ^ Z.of_nat k) in *.
    pose proof (Z.div_mod M N ltac:(lia)) as HD.
    pose proof (Z.mod_pos_bound M N Hp) as HR.
    rewrite <- Hm in HD.
    pose proof (Z.div_mod m 2 ltac:(lia)) as Hd2.
    pose proof (Z.mod_pos_bound m 2 ltac:(lia)) as Hr2.
    assert (Hq : M / (2 * N) = m / 2).
    { symmetry. apply Z.div_unique with (r := (m mod 2) * N + M mod N); nia. }
    assert (Hr : M mod (2 * N) = (m mod 2) * N + M mod N).
    { symmetry. apply Z.mod_unique with (q := m / 2); nia. }
    split; [exact (eq_sym Hq)|].
    rewrite Hr. rewrite Zodd_mod.
    unfold loc_of_remainder in *.
    destruct (M mod N =? 0) eqn:E0.
    + apply Z.eqb_eq in E0. rewrite E0 in *.
      assert (r = false /\ s = false) as [-> ->]
        by (destruct r, s; cbn in Hloc; try discriminate; auto).
      assert (m mod 2 = 0 \/ m mod 2 = 1) as [E|E] by lia; rewrite E; cbn [Z.eqb orb].
      * cbn. reflexivity.
      * replace (1 * N + 0 =? 0) with false by (symmetry; apply Z.eqb_neq; lia).
        replace (2 * (1 * N + 0) ?= 2 * N) with Eq by (symmetry; apply Z.compare_eq_iff; lia).
        reflexivity.
    + apply Z.eqb_neq in E0.
      assert (r || s = true) as ->
        by (destruct r, s; cbn in Hloc; try discriminate; auto).
      assert (m mod 2 = 0 \/ m mod 2 = 1) as [E|E] by lia; rewrite E; cbn [Z.eqb].
      * replace (0 * N + M mod N =? 0) with false by (symmetry; apply Z.eqb_neq; lia).
        replace (2 * (0 * N + M mod N) ?= 2 * N) with Lt by (symmetry; apply Z.compare_lt_iff; lia).
        reflexivity.
      * replace (1 * N + M mod N =? 0) with false by (symmetry; apply Z.eqb_neq; lia).
        replace (2 * (1 * N + M mod N) ?= 2 * N) with Gt by (symmetry; apply Z.compare_gt_iff; lia).
        reflexivity.
Qed.

Lemma shr_fexp_noshift (m : positive) (e : Z) :
  Zpos (digits2_pos m) = 53 -> -1074 <= e ->
  shr_fexp prec emax (Zpos m) e loc_Exact
  = ({| shr_m := Zpos m; shr_r := false; shr_s := false |}, e).
Proof.
  intros Hd He. unfold shr_fexp, fexp, emin, Zdigits2, prec, emax.
  rewrite Hd.
  replace (Z.max (53 + e - 53) (3 - 1024 - 53) - e) with 0 by lia.
  reflexivity.
Qed.

Lemma binary_round_aux_normal (m : positive) (e : Z) :
  Zpos (digits2_pos m) = 53 -> -1074 <= e <= 971 ->
  binary_round_aux prec emax false (Zpos m) e loc_Exact = S754_finite false m e.
Proof.
  intros Hd He. unfold binary_round_aux.
  rewrite shr_fexp_noshift by (assumption || lia).
  cbn [shr_m loc_of_shr_record round_nearest_even].
  rewrite shr_fexp_noshift by (assumption || lia).
  cbn [shr_m]. unfold emax, prec.
  replace (e <=? 1024 - 53) with true by (symmetry; apply Z.leb_le; lia).
  reflexivity.
Qed.

(** Conversion of an integer below 2^53: exact, with a 53-bit mantissa. *)
Lemma of_int_normal (p : positive) :
  Zpos p < 2 ^ 53 ->
  exists mh : positive,
    binary_normalize prec emax (Zpos p) 0 false
    = S754_finite false mh (Zpos (digits2_pos p) - 53) /\
    Zpos mh = Zpos p * 2 ^ (53 - Zpos (digits2_pos p)) /\
    Zpos (digits2_pos mh) = 53.
Proof.
  intros Hp. pose proof (digits2_pos_bounds p) as [Blo Bhi].
  set (d := Zpos (digits2_pos p)) in *.
  assert (Hd : 0 < d <= 53).
  { split; [subst d; lia|].
    destruct (Z_le_gt_dec d 53) as [L|G]; [exact L|exfalso].
    assert (2 ^ 53 <= 2 ^ (d - 1)) by (apply Z.pow_le_mono_r; lia). lia. }
  cbn [binary_normalize]. unfold binary_round.
  fold d. unfold fexp, emin, prec, emax.
  replace (Z.max (d + 0 - 53) (3 - 1024 - 53)) with (d - 53) by lia.
  unfold shl_align.
  destruct (d - 53 - 0) as [|q|q] eqn:Eq; [|lia|].
  - assert (d = 53) by lia. exists p.
    replace (d - 53) with 0 by lia.
    replace (53 - d) with 0 by lia.
    split; [|split; [cbn; lia | subst d; lia]].
    apply binary_round_aux_normal; [subst d; lia | lia].
  - assert (Hq : Zpos q = 53 - d) by lia.
    exists (Pos.iter xO p q).
    assert (Hm : Zpos (Pos.iter xO p q) = Zpos p * 2 ^ (53 - d))
      by (rewrite iter_xO_pow, Hq; reflexivity).
    assert (Hdm : Zpos (digits2_pos (Pos.iter xO p q)) = 53).
    { apply digits2_pos_unique; [|lia]. rewrite Hm.
      replace (2 ^ (53 - 1)) with (2 ^ (d - 1) * 2 ^ (53 - d))
        by (rewrite <- Z.pow_add_r by lia; f_equal; lia).
      replace (2 ^ 53) with (2 ^ d * 2 ^ (53 - d))
        by (rewrite <- Z.pow_add_r by lia; f_equal; lia).
      assert (0 < 2 ^ (53 - d)) by (apply Z.pow_pos_nonneg; lia).
      split; nia. }
    split; [|split; assumption].
    apply binary_round_aux_normal; [exact Hdm | lia].
Qed.

(** Rounding of a mantissa of [53 + n] bits to 53 bits, to nearest with
    ties to even, away from underflow and overflow. *)
Lemma binary_round_aux_shift (M : positive) (E n : Z) :
  Zpos (digits2_pos M) = 53 + n -> 0 < n ->
  -1074 <= E + n -> E + n + 1 <= 971 ->
  let m1 := round_nearest_even (Zpos M / 2 ^ n)
              (loc_of_remainder (Zpos M mod 2 ^ n) (2 ^ n)) in
  2 ^ 52 <= m1 <= 2 ^ 53 /\
  binary_round_aux prec emax false (Zpos M) E loc_Exact
  = if m1 <? 2 ^ 53
    then S754_finite false (Z.to_pos m1) (E + n)
    else S754_finite false (Z.to_pos (2 ^ 52)) (E + n + 1).
Proof.
  intros Hd Hn He1 He2 m1.
  pose proof (digits2_pos_bounds M) as [Blo Bhi]. rewrite Hd in Blo, Bhi.
  assert (Hpn : 0 < 2 ^ n) by (apply Z.pow_pos_nonneg; lia).
  assert (Hq : 2 ^ 52 <= Zpos M / 2 ^ n < 2 ^ 53).
  { replace (53 + n - 1) with (52 + n) in Blo by lia.
    rewrite Z.pow_add_r in Blo, Bhi by lia.
    split.
    - apply Z.div_le_lower_bound; lia.
    - apply Z.div_lt_upper_bound; lia. }
  assert (Hm1 : 2 ^ 52 <= m1 <= 2 ^ 53).
  { subst m1. unfold round_nearest_even.
    destruct (loc_of_remainder _ _) as [|[ | | ]]; try lia.
    destruct (Z.even _); lia. }
  split; [exact Hm1|].
  unfold binary_round_aux.
  assert (Hs1 : shr_fexp prec emax (Zpos M) E loc_Exact
                = (Nat.iter (Z.to_nat n) shr_1
                     {| shr_m := Zpos M; shr_r := false; shr_s := false |},
                   E + n)).
  { unfold shr_fexp, fexp, emin, Zdigits2, prec, emax. rewrite Hd.
    replace (Z.max (53 + n + E - 53) (3 - 1024 - 53) - E) with n by lia.
    destruct n as [|np|np]; try lia.
    cbn [shr_record_of_loc shr]. rewrite iter_pos_nat.
    rewrite Z2Nat.inj_pos. reflexivity. }
  rewrite Hs1.
  pose proof (@shr_iter (Zpos M) (Z.to_nat n) ltac:(lia)) as Hit.
  cbv zeta in Hit. rewrite Z2Nat.id in Hit by lia.
  destruct Hit as [Hm Hloc]. rewrite Hm, Hloc. fold m1.
  destruct (m1 <? 2 ^ 53) eqn:Elt.
  - apply Z.ltb_lt in Elt.
    assert (Hpos : m1 = Zpos (Z.to_pos m1)) by (rewrite Z2Pos.id; lia).
    rewrite Hpos at 1.
    rewrite shr_fexp_noshift.
    + cbn [shr_m]. unfold emax, prec.
      replace (E + n <=? 1024 - 53) with true by (symmetry; apply Z.leb_le; lia).
      reflexivity.
    + apply digits2_pos_unique; [rewrite <- Hpos; lia | lia].
    + lia.
  - apply Z.ltb_ge in Elt. assert (E53 : m1 = 2 ^ 53) by lia.
    rewrite E53.
    unfold shr_fexp, fexp, emin, prec, emax.
    change (Zdigits2 (2 ^ 53)) with 54.
    replace (Z.max (54 + (E + n) - 53) (3 - 1024 - 53) - (E + n)) with 1 by lia.
    cbn -[Z.add Z.leb Z.sub].
    replace (E + n + 1 <=? 1024 - 53) with true by (symmetry; apply Z.leb_le; lia).
    reflexivity.
Qed.

Lemma round_nearest_even_cases (q R N : Z) :
  0 <= R < N ->
  let m1 := round_nearest_even q (loc_of_remainder R N) in
  ((m1 = q /\ 2 * R <= N) \/ (m1 = q + 1 /\ N <= 2 * R)) /\
  (N < 2 * R -> m1 = q + 1).
Proof.
  intros HR. cbv zeta. unfold loc_of_remainder.
  destruct (R =? 0) eqn:E0.
  - apply Z.eqb_eq in E0. cbn [round_nearest_even]. split; [left|]; lia.
  - destruct (2 * R ?= N) eqn:C; cbn [round_nearest_even].
    + apply Z.compare_eq_iff in C. destruct (Z.even q); split; lia.
    + rewrite Z.compare_lt_iff in C. split; [left|]; lia.
    + rewrite Z.compare_gt_iff in C. split; [right|]; lia.
Qed.

(** The arithmetic of the product with 1.2: the rounded product lies
    strictly between the integers around 6h/5, or is 6h/5 itself. *)
Lemma rounded_product_compare (h v K S N : Z) :
  0 < h -> 8 <= K -> 2 ^ 52 <= h * K < 2 ^ 53 ->
  N = 2 ^ 52 \/ N = 2 ^ 53 ->
  K * 2 ^ 52 = S * N ->
  let M := h * K * 5404319552844595 in
  let m1 := round_nearest_even (M / N) (loc_of_remainder (M mod N) N) in
  (m1 <? v * S) = (6 * h <? 5 * v).
Proof.
  intros Hh HK HT HN HA M m1.
  assert (HNpos : 0 < N) by (destruct HN as [-> | ->]; reflexivity).
  assert (HNlo : 2 ^ 52 <= N) by (destruct HN as [-> | ->]; cbn; lia).
  assert (HNhi : N <= 2 ^ 53) by (destruct HN as [-> | ->]; cbn; lia).
  pose proof (Z.div_mod M N ltac:(lia)) as HD.
  pose proof (Z.mod_pos_bound M N HNpos) as HR.
  pose proof (@round_nearest_even_cases (M / N) (M mod N) N HR) as [Hc Hup].
  fold m1 in Hc, Hup.
  set (q0 := M / N) in *. set (R := M mod N) in *.
  set (T := h * K) in *.
  assert (HTA : T * 2 ^ 52 = h * (S * N)) by (subst T; rewrite <- HA; ring).
  change (2 ^ 52) with 4503599627370496 in *.
  change (2 ^ 53) with 9007199254740992 in *.
  assert (H5M : 5 * M = 6 * (T * 4503599627370496) - T) by (subst M; lia).
  assert (HA55 : 36028797018963968 <= S * N) by (rewrite <- HA; lia).
  (* the comparison, scaled by N *)
  assert (Hscale : (m1 <? v * S) = (m1 * N <? v * (S * N))).
  { rewrite Z.mul_assoc.
    destruct (m1 <? v * S) eqn:E1; symmetry.
    - apply Z.ltb_lt in E1. apply Z.ltb_lt.
      now apply Z.mul_lt_mono_pos_r.
    - apply Z.ltb_ge in E1. apply Z.ltb_ge.
      apply Z.mul_le_mono_nonneg_r; lia. }
  rewrite Hscale.
  set (A := S * N) in *.
  assert (Hm1N : 2 * M - N <= 2 * (m1 * N) <= 2 * M + N).
  { destruct Hc as [[-> Hc]|[-> Hc]]; lia. }
  destruct (Z.lt_trichotomy (6 * h) (5 * v)) as [Lt|[Eq|Gt]].
  - replace (6 * h <? 5 * v) with true by (symmetry; apply Z.ltb_lt; lia).
    apply Z.ltb_lt.
    assert ((6 * h + 1) * A <= 5 * v * A)
      by (apply Z.mul_le_mono_nonneg_r; lia).
    lia.
  - replace (6 * h <? 5 * v) with false by (symmetry; apply Z.ltb_ge; lia).
    apply Z.ltb_ge.
    assert (E : 5 * v * A = 6 * h * A) by (rewrite Eq; reflexivity).
    (* M = (v * S - 1) * N + (N - T / 5) *)
    assert (Hj : 5 * R + T = 5 * ((v * S - q0) * N)).
    { replace ((v * S - q0) * N) with (v * A - N * q0) by (subst A; ring).
      lia. }
    assert (Hj1 : v * S - q0 = 1).
    { assert (0 < (v * S - q0) * N) by lia.
      assert (0 < v * S - q0) by (apply Z.mul_pos_cancel_r with N; lia).
      assert ((v * S - q0) * N < 2 * N) by lia.
      assert (v * S - q0 < 2) by (apply Z.mul_lt_mono_pos_r with N; lia).
      lia. }
    rewrite Hj1 in Hj.
    assert (HRN : N < 2 * R) by lia.
    specialize (Hup HRN). rewrite Hup.
    replace ((q0 + 1) * N) with (v * A) by (subst A; rewrite <- Hj1; ring).
    lia.
  - replace (6 * h <? 5 * v) with false by (symmetry; apply Z.ltb_ge; lia).
    apply Z.ltb_ge.
    assert ((5 * v + 1) * A <= 6 * h * A)
      by (apply Z.mul_le_mono_nonneg_r; lia).
    lia.
Qed.

Lemma int_gt_float_finite (v : Z) (m : positive) (e : Z) :
  e < 0 ->
  int_gt_float v (S754_finite false m e) = (Zpos m <? v * 2 ^ (- e)).
Proof.
  intros He. cbn [int_gt_float].
  replace (0 <=? e) with false by (symmetry; apply Z.leb_gt; lia).
  reflexivity.
Qed.

Lemma product_1_2_compare (p : positive) (v : Z) :
  Zpos p < 2 ^ 50 ->
  int_gt_float v (SFmul prec emax (binary_normalize prec emax (Zpos p) 0 false) c1_2)
  = (6 * Zpos p <? 5 * v).
Proof.
  intros Hp.
  destruct (@of_int_normal p ltac:(change (2 ^ 53) with (2 ^ 50 * 8); lia))
    as (mh & -> & Hmh & Hdh).
  pose proof (digits2_pos_bounds p) as [Blo Bhi].
  set (d := Zpos (digits2_pos p)) in *.
  assert (Hd : 0 < d <= 50).
  { split; [subst d; lia|].
    destruct (Z_le_gt_dec d 50) as [L|G]; [exact L|exfalso].
    assert (2 ^ 50 <= 2 ^ (d - 1)) by (apply Z.pow_le_mono_r; lia). lia. }
  set (K := 2 ^ (53 - d)) in *.
  assert (HK : 8 <= K).
  { change 8 with (2 ^ 3). apply Z.pow_le_mono_r; lia. }
  pose proof (digits2_pos_bounds mh) as [Mlo Mhi]. rewrite Hdh in Mlo, Mhi.
  change (53 - 1) with 52 in Mlo.
  unfold c1_2. cbn [SFmul xorb].
  set (mc := 5404319552844595%positive).
  assert (HM : Zpos (mh * mc) = Zpos p * K * 5404319552844595)
    by (rewrite Pos2Z.inj_mul, Hmh; reflexivity).
  assert (HMb : 2 ^ 104 <= Zpos (mh * mc) < 2 ^ 106).
  { rewrite Pos2Z.inj_mul. subst mc.
    change (2 ^ 52) with 4503599627370496 in *.
    change (2 ^ 53) with 9007199254740992 in *.
    change (2 ^ 104) with (4503599627370496 * 4503599627370496).
    change (2 ^ 106) with (9007199254740992 * 9007199254740992).
    nia. }
  assert (Hn : exists n, (n = 52 \/ n = 53) /\ Zpos (digits2_pos (mh * mc)) = 53 + n).
  { destruct (Z_lt_ge_dec (Zpos (mh * mc)) (2 ^ 105)) as [L|G].
    - exists 52. split; [auto|]. apply digits2_pos_unique; [|lia].
      change (53 + 52 - 1) with 104. change (53 + 52) with 105. lia.
    - exists 53. split; [auto|]. apply digits2_pos_unique; [|lia].
      change (53 + 53 - 1) with 105. change (53 + 53) with 106. lia. }
  destruct Hn as (n & Hn & Hdig).
  destruct (@binary_round_aux_shift (mh * mc) (d - 53 + -52) n Hdig
              ltac:(lia) ltac:(lia) ltac:(lia)) as [Hm1 Hround].
  cbv zeta in Hm1, Hround. rewrite Hround. clear Hround.
  rewrite HM in *.
  set (N := 2 ^ n) in *.
  set (S := 2 ^ (105 - d - n)).
  assert (HN : N = 2 ^ 52 \/ N = 2 ^ 53) by (subst N; destruct Hn as [-> | ->]; auto).
  assert (HA : K * 2 ^ 52 = S * N).
  { subst K S N. rewrite <- !Z.pow_add_r by lia. f_equal. lia. }
  assert (HT : 2 ^ 52 <= Zpos p * K < 2 ^ 53) by (rewrite <- Hmh; lia).
  pose proof (@rounded_product_compare (Zpos p) v K S N ltac:(lia) HK HT HN HA)
    as Hcmp.
  cbv zeta in Hcmp. rewrite <- Hcmp.
  set (m1 := round_nearest_even _ _) in *.
  destruct (m1 <? 2 ^ 53) eqn:Elt.
  - rewrite int_gt_float_finite by lia.
    rewrite Z2Pos.id by lia.
    replace (- (d - 53 + -52 + n)) with (105 - d - n) by lia. reflexivity.
  - apply Z.ltb_ge in Elt. assert (E53 : m1 = 2 ^ 53) by lia.
    rewrite int_gt_float_finite by lia.
    rewrite Z2Pos.id by reflexivity.
    replace (- (d - 53 + -52 + n + 1)) with (105 - d - n - 1) by lia.
    rewrite E53.
    assert (HS : S = 2 * 2 ^ (105 - d - n - 1)).
    { subst S. rewrite <- Z.pow_succ_r by lia. f_equal. lia. }
    rewrite HS. change (2 ^ 53) with (2 * 2 ^ 52).
    destruct (2 ^ 52 <? v * 2 ^ (105 - d - n - 1)) eqn:E1; symmetry.
    + apply Z.ltb_lt in E1. apply Z.ltb_lt. lia.
    + apply Z.ltb_ge in E1. apply Z.ltb_ge. lia.
Qed.

End Binary64Facts.

(** ** The 90-degree rotation decision *)

Lemma vertical_dominates_dec h v :
  Qltb (inject_Z h * 1.2) (inject_Z v) || ((h =? 0)%Z && (2 <? v)%Z) = true
  <-> vertical_dominates h v.
Proof.
  unfold vertical_dominates.
  rewrite orb_true_iff, andb_true_iff, Qltb_lt, Z.eqb_eq, Z.ltb_lt.
  reflexivity.
Qed.

(** In integers: five vertical votes outweigh six horizontal ones. *)
Lemma vertical_dominates_int h v :
  (0 <= h)%Z -> (vertical_dominates h v <-> (6 * h < 5 * v)%Z).
Proof.
  intros Hh. unfold vertical_dominates, Qlt. cbn -[Z.mul]. split.
  - intros [H | [-> H]]; lia.
  - intros H. left. lia.
Qed.

Lemma option_Z_eqb_eq a b : option_Z_eqb a b = true -> a = b.
Proof.
  destruct a, b; simpl; try discriminate; auto.
  intros H. apply Z.eqb_eq in H. now subst.
Qed.

Lemma decisions_agree_below_spec n :
  decisions_agree_below n = true ->
  forall h v : nat, (h < n)%nat -> (v < n)%nat ->
    B64._decide_90_rotation (Z.of_nat h) (Z.of_nat v)
    = _decide_90_rotation (Z.of_nat h) (Z.of_nat v).
Proof.
  unfold decisions_agree_below. intros E h v Hh Hv.
  rewrite forallb_forall in E.
  specialize (E h). rewrite forallb_forall in E.
  apply option_Z_eqb_eq, E; apply in_seq; lia.
Qed.

Lemma decisions_agree_below_128 : decisions_agree_below 128 = true.
Proof. vm_compute. reflexivity. Qed.

(** X21. Up to 127 votes on each side the decision taken in IEEE 754
    binary64 arithmetic, as the interpreter evaluates it, is the one taken
    in the rationals. *)
Lemma decide_90_rotation_binary64 (h v : nat) :
  (h < 128)%nat -> (v < 128)%nat ->
  B64._decide_90_rotation (Z.of_nat h) (Z.of_nat v)
  = _decide_90_rotation (Z.of_nat h) (Z.of_nat v).
Proof.
  apply decisions_agree_below_spec, decisions_agree_below_128.
Qed.

(** The rule of the decision when the product by 1.2 is exact. *)
Lemma decide_90_rotation_exact_rule (horizontal_votes vertical_votes : nat) :
  let h := Z.of_nat horizontal_votes in
  let v := Z.of_nat vertical_votes in
  ((horizontal_votes + vertical_votes < 3)%nat ->
     _decide_90_rotation h v = None) /\
  ((3 <= horizontal_votes + vertical_votes)%nat ->
     (_decide_90_rotation h v = Some ROTATE_90_CLOCKWISE <->
        inject_Z h * 1.2 < inject_Z v \/
        (horizontal_votes = 0%nat /\ (2 < vertical_votes)%nat)) /\
     (_decide_90_rotation h v = None <->
        ~ (inject_Z h * 1.2 < inject_Z v \/
           (horizontal_votes = 0%nat /\ (2 < vertical_votes)%nat)))).
Proof.
  intros h v. unfold _decide_90_rotation.
  assert (Hcond : inject_Z h * 1.2 < inject_Z v \/
                  (horizontal_votes = 0%nat /\ (2 < vertical_votes)%nat)
                  <-> vertical_dominates h v).
  { unfold vertical_dominates, h, v. split; (intros [H | [H1 H2]]; [now left | right; lia]). }
  split.
  - intros Hlt. destruct (Z.ltb_spec (h + v) 3); [reflexivity | lia].
  - intros Hge. destruct (Z.ltb_spec (h + v) 3) as [Hlt | _]; [lia|].
    rewrite Hcond, <- vertical_dominates_dec.
    destruct (Qltb (inject_Z h * 1.2) (inject_Z v) || ((h =? 0)%Z && (2 <? v)%Z));
      split; split; congruence.
Qed.

Lemma Qltb_product_1_2 (h v : Z) :
  Qltb (inject_Z h * 1.2) (inject_Z v) = (6 * h <? 5 * v)%Z.
Proof.
  destruct (Z.ltb_spec (6 * h) (5 * v)) as [H|H].
  - apply Qltb_lt. unfold Qlt. cbn -[Z.mul]. lia.
  - apply Qltb_ge. unfold Qle. cbn -[Z.mul]. lia.
Qed.

(** With fewer than 2^50 horizontal votes the interpreter's decision, which
    rounds the product by 1.2 to a double, does not raise and is the
    decision taken with the exact product; the number of vertical votes
    is not bounded. *)
Lemma decide_90_rotation_exact_below (horizontal_votes vertical_votes : Z) :
  (0 <= horizontal_votes < 2 ^ 50)%Z ->
  Py64._decide_90_rotation horizontal_votes vertical_votes
  = Return (_decide_90_rotation horizontal_votes vertical_votes).
Proof.
  intros Hh. unfold Py64._decide_90_rotation, _decide_90_rotation.
  destruct (horizontal_votes + vertical_votes <? 3)%Z; [reflexivity|].
  rewrite Qltb_product_1_2.
  destruct horizontal_votes as [|p|p]; [| |lia].
  - cbn [Py64.int_to_float B64.of_int SpecFloat.binary_normalize bind
         Py64.float_mul SpecFloat.SFmul B64.c1_2 Py64.int_gt_float xorb].
    change (6 * 0)%Z with 0%Z.
    replace (0 <? 5 * vertical_votes)%Z with (0 <? vertical_votes)%Z
      by (destruct (Z.ltb_spec 0 vertical_votes),
                   (Z.ltb_spec 0 (5 * vertical_votes)); lia || reflexivity).
    destruct (_ || _); reflexivity.
  - pose proof (@Binary64Facts.product_1_2_compare p vertical_votes (proj2 Hh))
      as Hcmp.
    unfold Py64.int_to_float, B64.of_int, Py64.float_mul.
    destruct (@Binary64Facts.of_int_normal p
                ltac:(change (2 ^ 53)%Z with (2 ^ 50 * 8)%Z; lia))
      as (mh & E & _ & _).
    rewrite E in Hcmp |- *. cbn [bind]. rewrite Hcmp.
    destruct (_ || _); reflexivity.
Qed.

(** C9, as stated for all vote counts, fails: the interpreter rounds the
    product by 1.2 to a double. With 10^17 + 1 horizontal and
    1.2 * 10^17 + 1 vertical votes the rounded product is 1.2 * 10^17,
    so the page is rotated, although the vertical votes do not exceed 1.2
    times the horizontal ones and the horizontal votes are not zero. *)
Lemma decide_90_rotation_rounded_product :
  (0 <= many_horizontal_votes)%Z /\ (0 <= many_vertical_votes)%Z /\
  (3 <= many_horizontal_votes + many_vertical_votes)%Z /\
  Py64._decide_90_rotation many_horizontal_votes many_vertical_votes
  = Return (Some ROTATE_90_CLOCKWISE) /\
  ~ (inject_Z many_horizontal_votes * 1.2 < inject_Z many_vertical_votes \/
     (many_horizontal_votes = 0%Z /\ (2 < many_vertical_votes)%Z)).
Proof.
  split; [discriminate|]. split; [discriminate|]. split; [discriminate|].
  split; [vm_compute; reflexivity|].
  intros [H | [H _]]; [|discriminate].
  revert H. apply Qle_not_lt. vm_compute. discriminate.
Qed.

(** A count of horizontal votes that no double can hold makes the
    decision raise [OverflowError]. *)
Lemma decide_90_rotation_overflow :
  Py64._decide_90_rotation (2 ^ 1024) 0 = Raise Py64.OVERFLOW_ERROR.
Proof. vm_compute. reflexivity. Qed.

(** C9, amended. For natural vote counts: with fewer than three votes in
    total the decision keeps the orientation; otherwise, as long as there
    are fewer than 2^50 horizontal votes, it rotates 90 degrees clockwise
    if and only if [vertical_votes > horizontal_votes * 1.2], the product
    being exact, or ([horizontal_votes = 0] and [vertical_votes > 2]), and
    keeps the orientation if not. In that range it does not raise. *)
Theorem decide_90_rotation_rule (horizontal_votes vertical_votes : nat) :
  let h := Z.of_nat horizontal_votes in
  let v := Z.of_nat vertical_votes in
  ((horizontal_votes + vertical_votes < 3)%nat ->
     Py64._decide_90_rotation h v = Return None) /\
  ((h < 2 ^ 50)%Z -> (3 <= horizontal_votes + vertical_votes)%nat ->
     (Py64._decide_90_rotation h v = Return (Some ROTATE_90_CLOCKWISE) <->
        inject_Z h * 1.2 < inject_Z v \/
        (horizontal_votes = 0%nat /\ (2 < vertical_votes)%nat)) /\
     (Py64._decide_90_rotation h v = Return None <->
        ~ (inject_Z h * 1.2 < inject_Z v \/
           (horizontal_votes = 0%nat /\ (2 < vertical_votes)%nat)))).
Proof.
  intros h v.
  pose proof (decide_90_rotation_exact_rule horizontal_votes vertical_votes)
    as [Hfew Hrule]. fold h v in Hfew, Hrule.
  split.
  - intros Hlt. unfold Py64._decide_90_rotation.
    destruct (Z.ltb_spec (h + v) 3); [reflexivity | lia].
  - intros Hh Hge.
    rewrite (@decide_90_rotation_exact_below h v) by (unfold h; lia).
    destruct (Hrule Hge) as [Hrot Hkeep].
    split; [rewrite <- Hrot | rewrite <- Hkeep]; split; congruence.
Qed.

Lemma decide_90_rotation_rule_witness :
  Py64._decide_90_rotation 1 1 = Return None /\
  Py64._decide_90_rotation 5 7 = Return (Some ROTATE_90_CLOCKWISE) /\
  Py64._decide_90_rotation 5 6 = Return None.
Proof.
  split; [| split].
  - apply (proj1 (decide_90_rotation_rule 1 1)). lia.
  - apply (proj2 (decide_90_rotation_rule 5 7)); [reflexivity|lia|].
    left. reflexivity.
  - apply (proj2 (decide_90_rotation_rule 5 6)); [reflexivity|lia|].
    intros [H | [H _]]; [revert H; apply Qle_not_lt | ]; discriminate.
Defined.

(** ** [process_image] *)

Section ImageProcessorFacts.

Variable ndarray : Type.
Variable pil_image : Type.
Variable Image_open : bytes -> M pil_image.
Variable exif_transpose : pil_image -> M pil_image.
Variable array_rgb2bgr : pil_image -> M ndarray.
Variable to_gray : ndarray -> M ndarray.
Variable cv2_rotate : ndarray -> Z -> M ndarray.
Variable remove_shadows : ndarray -> M ndarray.
Variable get_paper_mask : ndarray -> M ndarray.
Variable _preprocess_for_orientation : ndarray -> ndarray -> M ndarray.
Variable _extract_text_orientation_features : ndarray -> M (Z * Z).
Variable _extract_top_bottom_rois :
  ndarray -> ndarray -> M (option ndarray * option ndarray).
Variable _calculate_ink_density : ndarray -> M Z.
Variable imencode_jpg : ndarray -> M (bool * bytes).

Let normalize := normalize_image Image_open exif_transpose array_rgb2bgr
  to_gray cv2_rotate remove_shadows get_paper_mask
  _preprocess_for_orientation _extract_text_orientation_features
  _extract_top_bottom_rois _calculate_ink_density.

Let try_block := process_image_try Image_open exif_transpose array_rgb2bgr
  to_gray cv2_rotate remove_shadows get_paper_mask
  _preprocess_for_orientation _extract_text_orientation_features
  _extract_top_bottom_rois _calculate_ink_density imencode_jpg.

Let process := process_image Image_open exif_transpose array_rgb2bgr
  to_gray cv2_rotate remove_shadows get_paper_mask
  _preprocess_for_orientation _extract_text_orientation_features
  _extract_top_bottom_rois _calculate_ink_density imencode_jpg.

(** An exception of the first stage, decoding, reaches the handler. *)
Lemma Image_open_raises image_bytes e :
  Image_open image_bytes = Raise e -> try_block image_bytes = Raise e.
Proof.
  intros H. unfold try_block, process_image_try, normalize_image.
  rewrite H. reflexivity.
Qed.

(** An exception anywhere before the encoder reaches the handler. *)
Lemma normalize_image_raises image_bytes e :
  normalize image_bytes = Raise e -> try_block image_bytes = Raise e.
Proof.
  intros H. unfold try_block, process_image_try. fold normalize.
  rewrite H. reflexivity.
Qed.

(** An exception of the encoder reaches the handler. *)
Lemma imencode_raises image_bytes final_output e :
  normalize image_bytes = Return final_output ->
  imencode_jpg final_output = Raise e ->
  try_block image_bytes = Raise e.
Proof.
  intros Hn He. unfold try_block, process_image_try. fold normalize.
  rewrite Hn. simpl. rewrite He. reflexivity.
Qed.

(** X22. Whatever [process_image] returns is either the input bytes
    themselves or the buffer that the JPEG encoder produced, with success
    reported, for the normalized image. *)
Lemma process_image_result image_bytes out :
  process image_bytes = Return out ->
  out = image_bytes \/
  exists final_output,
    normalize image_bytes = Return final_output /\
    imencode_jpg final_output = Return (true, out).
Proof.
  unfold process, process_image, process_image_try. fold normalize.
  destruct (normalize image_bytes) as [final_output|e]; simpl.
  - destruct (imencode_jpg final_output) as [[[|] buffer]|e] eqn:E; simpl.
    + intros [= <-]. right. now exists final_output.
    + intros [= <-]. now left.
    + intros [= <-]. now left.
  - intros [= <-]. now left.
Qed.

(** C5. For every input byte string: if the [try] block of
    [process_image] raises an exception, at whatever stage, the function
    returns the input bytes unchanged; if the JPEG encoder reports failure
    it returns the input bytes unchanged; and in every case the function
    returns a value, it never raises. *)
Theorem process_image_falls_back (image_bytes : bytes) :
  (forall e, try_block image_bytes = Raise e ->
             process image_bytes = Return image_bytes) /\
  (forall final_output buffer,
     normalize image_bytes = Return final_output ->
     imencode_jpg final_output = Return (false, buffer) ->
     process image_bytes = Return image_bytes) /\
  (exists out, process image_bytes = Return out).
Proof.
  unfold process, process_image. fold try_block. repeat split.
  - intros e H. rewrite H. reflexivity.
  - intros final_output buffer Hn He.
    unfold try_block, process_image_try. fold normalize.
    rewrite Hn. simpl. rewrite He. reflexivity.
  - destruct (try_block image_bytes) as [out|e]; simpl; eauto.
Qed.

End ImageProcessorFacts.

Lemma process_image_falls_back_witness :
  process_image undecodable ok1 ok1 ok1 (fun img _ => ok1 img) ok1 ok1 ok2
    (fun _ => Return (0, 0)%Z) (fun _ _ => Return (None, None))
    (fun _ => Return 0%Z) encoder_fails [0xFF; 0xD8]%N
  = Return [0xFF; 0xD8]%N /\
  process_image (fun _ => Return tt) ok1 ok1 ok1 (fun img _ => ok1 img) ok1 ok1
    ok2 (fun _ => Return (0, 0)%Z) (fun _ _ => Return (None, None))
    (fun _ => Return 0%Z) encoder_fails [0xFF; 0xD8]%N
  = Return [0xFF; 0xD8]%N.
Proof.
  split.
  - apply (proj1 (process_image_falls_back undecodable ok1 ok1 ok1
                    (fun img _ => ok1 img) ok1 ok1 ok2
                    (fun _ => Return (0, 0)%Z) (fun _ _ => Return (None, None))
                    (fun _ => Return 0%Z) encoder_fails [0xFF; 0xD8]%N))
      with (e := py "cannot identify image file").
    reflexivity.
  - apply (proj1 (proj2 (process_image_falls_back (fun _ => Return tt) ok1 ok1
                    ok1 (fun img _ => ok1 img) ok1 ok1 ok2
                    (fun _ => Return (0, 0)%Z) (fun _ _ => Return (None, None))
                    (fun _ => Return 0%Z) encoder_fails [0xFF; 0xD8]%N)))
      with (final_output := tt) (buffer := []); reflexivity.
Defined.

(** ** The dynamic tolerance *)

(** X1. The tolerance for row grouping is never below 0.008, whatever
    the fragments are; in particular it is positive. *)
Theorem dynamic_tolerance_lower_bound (entities : list ParsedEntity) :
  0.008 <= _calculate_dynamic_tolerance entities /\
  0 < _calculate_dynamic_tolerance entities.
Proof.
  assert (H : 0.008 <= _calculate_dynamic_tolerance entities).
  { unfold _calculate_dynamic_tolerance.
    destruct entities as [|e0 entities]; [discriminate|].
    destruct (sorted_by _ _) as [|h0 heights]; [discriminate|].
    apply Q.le_max_r. }
  split; [exact H|].
  eapply Qlt_le_trans; [|exact H]. reflexivity.
Qed.

(** ** Row grouping *)

Lemma group_loop_from y_tolerance rest : forall groups g0 gtl,
  group_loop y_tolerance rest groups g0 gtl
  = groups ++ group_from y_tolerance rest g0 gtl.
Proof.
  induction rest as [|e rest IH]; intros groups g0 gtl; simpl.
  - reflexivity.
  - destruct (Qltb _ _).
    + apply IH.
    + rewrite IH, <- app_assoc. reflexivity.
Qed.

Lemma group_entities_from entities y_tolerance :
  _group_entities_by_row entities y_tolerance
  = match sorted_by center_y entities with
    | [] => []
    | e0 :: rest => group_from y_tolerance rest e0 []
    end.
Proof.
  unfold _group_entities_by_row.
  destruct entities as [|e entities]; [reflexivity|].
  destruct (sorted_by center_y (e :: entities)); [reflexivity|].
  apply group_loop_from.
Qed.

Lemma group_from_concat y_tolerance rest : forall g0 gtl,
  concat (group_from y_tolerance rest g0 gtl) = (g0 :: gtl) ++ rest.
Proof.
  induction rest as [|e rest IH]; intros g0 gtl; simpl.
  - now rewrite !app_nil_r.
  - destruct (Qltb _ _); simpl.
    + rewrite IH. simpl. now rewrite <- app_assoc.
    + rewrite IH. reflexivity.
Qed.

Lemma group_rows_sorted entities y_tolerance :
  concat (_group_entities_by_row entities y_tolerance)
  = sorted_by center_y entities.
Proof.
  rewrite group_entities_from.
  destruct (sorted_by center_y entities) as [|e0 rest]; [reflexivity|].
  now rewrite group_from_concat.
Qed.

(** X3. Row grouping loses and duplicates nothing: the rows, read in
    order, are the fragments sorted by [center_y]; hence they are a
    permutation of the input. *)
Theorem group_rows_concat (entities : list ParsedEntity) (y_tolerance : Q) :
  concat (_group_entities_by_row entities y_tolerance)
  = sorted_by center_y entities /\
  Permutation entities (concat (_group_entities_by_row entities y_tolerance)).
Proof.
  rewrite group_rows_sorted. split; [reflexivity | apply sorted_by_perm].
Qed.

Lemma group_from_within y_tolerance rest : forall g0 gtl,
  Forall (fun e => close_y y_tolerance e g0) gtl ->
  Forall (row_within y_tolerance) (group_from y_tolerance rest g0 gtl).
Proof.
  induction rest as [|e rest IH]; intros g0 gtl Hg; simpl.
  - constructor; [exact Hg | constructor].
  - destruct (Qltb _ _) eqn:E.
    + apply IH. apply Forall_app. split; [exact Hg|].
      constructor; [|constructor]. now apply Qltb_lt.
    + constructor; [exact Hg|]. apply IH. constructor.
Qed.

(** X4. No row is empty, and every fragment of a row lies within the
    tolerance of the first fragment of that row. *)
Theorem group_rows_within (entities : list ParsedEntity) (y_tolerance : Q) :
  Forall (row_within y_tolerance)
         (_group_entities_by_row entities y_tolerance).
Proof.
  rewrite group_entities_from.
  destruct (sorted_by center_y entities) as [|e0 rest]; [constructor|].
  apply group_from_within. constructor.
Qed.






Lemma group_from_length y_tolerance rest : forall g0 gtl,
  (1 <= length (group_from y_tolerance rest g0 gtl) <= S (length rest))%nat.
Proof.
  induction rest as [|e rest IH]; intros g0 gtl; simpl.
  - lia.
  - destruct (Qltb _ _); simpl.
    + specialize (IH g0 (gtl ++ [e])). lia.
    + specialize (IH e []). lia.
Qed.

Lemma group_rows_count_le entities y_tolerance :
  (length (_group_entities_by_row entities y_tolerance) <= length entities)%nat.
Proof.
  rewrite group_entities_from.
  pose proof (sorted_by_length center_y entities) as Hlen.
  destruct (sorted_by center_y entities) as [|e0 rest]; simpl; [lia|].
  pose proof (group_from_length y_tolerance rest e0 []). simpl in Hlen. lia.
Qed.

(** X6. There are at most as many rows as fragments; there is no row
    exactly when there is no fragment. *)
Theorem group_rows_count (entities : list ParsedEntity) (y_tolerance : Q) :
  (length (_group_entities_by_row entities y_tolerance) <= length entities)%nat /\
  (_group_entities_by_row entities y_tolerance = [] <-> entities = []).
Proof.
  rewrite group_entities_from.
  pose proof (sorted_by_length center_y entities) as Hlen.
  destruct (sorted_by center_y entities) as [|e0 rest] eqn:Es.
  - apply sorted_by_nil in Es. subst. simpl. split; [lia | tauto].
  - pose proof (group_from_length y_tolerance rest e0 []) as Hg.
    simpl in Hlen. split; [lia|].
    split; intros H.
    + rewrite H in Hg. simpl in Hg. lia.
    + subst. discriminate.
Qed.

Lemma close_y_sym y_tolerance a b :
  close_y y_tolerance a b -> close_y y_tolerance b a.
Proof. unfold close_y. now rewrite Qabs_Qminus. Qed.

Lemma group_from_separated y_tolerance l : forall g0,
  Forall (fun e => ~ close_y y_tolerance g0 e) l ->
  ForallOrdPairs (fun a b => ~ close_y y_tolerance a b) l ->
  group_from y_tolerance l g0 [] = map (fun e => [e]) (g0 :: l).
Proof.
  induction l as [|e l IH]; intros g0 Hg Hl; cbn [group_from].
  - reflexivity.
  - inversion Hg as [|? ? Hge Hgl]; subst.
    inversion Hl as [|? ? Hel Hl']; subst.
    destruct (Qltb _ _) eqn:E.
    + apply Qltb_lt in E. exfalso. apply Hge. now apply close_y_sym.
    + rewrite IH by assumption. reflexivity.
Qed.

Lemma ForallOrdPairs_perm (A : Type) (R : A -> A -> Prop) (l l' : list A) :
  (forall a b, R a b -> R b a) ->
  Permutation l l' -> ForallOrdPairs R l -> ForallOrdPairs R l'.
Proof.
  intros Hsym Hp. induction Hp as [|a l l' Hp IH|a b l|l l' l'' Hp1 IH1 Hp2 IH2];
    intros H.
  - exact H.
  - inversion H as [|? ? Ha Hl]; subst. constructor.
    + eapply Permutation_Forall; eassumption.
    + now apply IH.
  - inversion H as [|? ? Hb Hl]; subst.
    inversion Hb as [|? ? Hba Hbl]; subst.
    inversion Hl as [|? ? Hal Hl']; subst.
    repeat constructor; auto.
  - auto.
Qed.

(** X7. Fragments of which no two lie within the tolerance of each other
    are each put in a row of their own, in ascending [center_y] order. *)
Theorem separated_fragments_own_rows (entities : list ParsedEntity)
    (y_tolerance : Q) :
  ForallOrdPairs (fun a b => ~ close_y y_tolerance a b) entities ->
  _group_entities_by_row entities y_tolerance
  = map (fun e => [e]) (sorted_by center_y entities).
Proof.
  intros Hsep. rewrite group_entities_from.
  assert (Hs : ForallOrdPairs (fun a b => ~ close_y y_tolerance a b)
                              (sorted_by center_y entities)).
  { eapply ForallOrdPairs_perm; [|apply sorted_by_perm|exact Hsep].
    intros a b H C. apply H. now apply close_y_sym. }
  destruct (sorted_by center_y entities) as [|e0 rest]; [reflexivity|].
  inversion Hs as [|? ? He Hrest]; subst.
  now apply group_from_separated.
Qed.

Lemma pairwise_far_spec y_tolerance l :
  pairwise_far y_tolerance l = true ->
  ForallOrdPairs (fun a b => ~ close_y y_tolerance a b) l.
Proof.
  induction l as [|a l IH]; cbn [pairwise_far]; intros H.
  - constructor.
  - apply andb_true_iff in H. destruct H as [Ha Hl].
    constructor; [|now apply IH].
    apply Forall_forall. intros b Hb.
    rewrite forallb_forall in Ha. specialize (Ha b Hb).
    apply negb_true_iff in Ha. unfold close_y. intros C.
    apply Qltb_lt in C. congruence.
Qed.

Lemma separated_fragments_own_rows_witness :
  length (_group_entities_by_row
            (item_entities (preprocess doc_three_lines))
            (_calculate_dynamic_tolerance
               (item_entities (preprocess doc_three_lines)))) = 3%nat.
Proof.
  rewrite separated_fragments_own_rows.
  - vm_compute. reflexivity.
  - apply pairwise_far_spec. vm_compute. reflexivity.
Defined.





(** ** Line items *)

Lemma replace1_In c r s d :
  In d (replace1 c r s) -> (In d s /\ d <> c) \/ In d r.
Proof.
  unfold replace1. rewrite in_flat_map. intros (e & He & Hd).
  destruct (N.eqb_spec e c) as [->|Hne].
  - now right.
  - destruct Hd as [<-|[]]. now left.
Qed.

Lemma clean_item_text_chars s d :
  In d (clean_item_text s) ->
  d <> SPACE /\ d <> IDEOGRAPHIC_SPACE /\ d <> AT_SIGN.
Proof.
  unfold clean_item_text. intros H.
  apply replace1_In in H. destruct H as [[H Hat]|H].
  - apply replace1_In in H. destruct H as [[H Hid]|[]].
    apply replace1_In in H. destruct H as [[H Hsp]|[]].
    auto.
  - simpl in H. destruct H as [<-|[<-|[<-|[]]]]; repeat split; discriminate.
Qed.

Lemma digits_only_digits s :
  Forall (fun c => is_digit c = true) (digits_only s).
Proof.
  apply Forall_forall. intros c H. unfold digits_only in H.
  now apply filter_In in H.
Qed.

Lemma ordinal_line_item_clean i a : clean_line_item (ordinal_line_item i a).
Proof.
  unfold clean_line_item, ordinal_line_item. simpl.
  split; [apply digits_only_digits|].
  repeat split; intros H; apply clean_item_text_chars in H;
    destruct H as (H1 & H2 & H3); congruence.
Qed.

Lemma row_final_amount_digits row :
  Forall (fun c => is_digit c = true) (fst (row_final_amount_text row)).
Proof.
  unfold row_final_amount_text.
  destruct (row_items row), (row_amounts row); simpl;
    try constructor; try apply digits_only_digits.
  destruct (Qltb _ _); simpl; [apply digits_only_digits | constructor].
Qed.

(** What a row can contribute: nothing, or one line item of one of three
    shapes. *)
Lemma row_output_cases row li :
  In li (row_output row) ->
  row_output row = [li] /\
  ((li = {| item := row_final_item_text row;
            amount := fst (row_final_amount_text row) |} /\
    row_final_item_text row <> [] /\ fst (row_final_amount_text row) <> []) \/
   (li = {| item := row_final_item_text row; amount := py "0" |} /\
    row_final_item_text row <> [] /\ fst (row_final_amount_text row) = [] /\
    row_flag row = true) \/
   (li = {| item := UNKNOWN_ITEM; amount := fst (row_final_amount_text row) |} /\
    row_final_item_text row = [] /\ fst (row_final_amount_text row) <> [] /\
    row_flag row = true)).
Proof.
  unfold row_output, row_flag, row_step.
  destruct (row_final_amount_text row) as [amt overlap]. simpl fst.
  destruct (row_final_item_text row) as [|c0 cs], amt as [|d0 ds];
    simpl; try tauto.
  - intros [<-|[]]. split; [reflexivity|]. right. right.
    repeat split; congruence.
  - intros [<-|[]]. split; [reflexivity|]. right. left.
    repeat split; congruence.
  - intros [<-|[]]. split; [reflexivity|]. left.
    repeat split; congruence.
Qed.

Lemma row_output_clean row li :
  In li (row_output row) -> clean_line_item li.
Proof.
  intros H. apply row_output_cases in H.
  assert (Hitem : forall d, In d (row_final_item_text row) ->
                    d <> SPACE /\ d <> IDEOGRAPHIC_SPACE /\ d <> AT_SIGN)
    by (intros d; apply clean_item_text_chars).
  destruct H as [_ [(-> & _) | [(-> & _) | (-> & _)]]];
    unfold clean_line_item; simpl.
  - split; [apply row_final_amount_digits|].
    repeat split; intros C; apply Hitem in C; destruct C as (? & ? & ?);
      congruence.
  - split; [repeat constructor|].
    repeat split; intros C; apply Hitem in C; destruct C as (? & ? & ?);
      congruence.
  - split; [apply row_final_amount_digits|].
    repeat split; intros [C|[C|[C|[C|[]]]]]; discriminate C.
Qed.

(** Whenever ordinal pairing does not apply, the result is that of the
    row loop; this includes the early return for a document without
    fragments, whose list of rows is empty. *)
Lemma parse_rows_general document :
  ~ (item_entities (preprocess document) <> [] /\
     length (item_entities (preprocess document))
     = length (amount_entities (preprocess document))) ->
  parse_document_entities document
  = let st := fold_left row_step (row_groups_of document) ([], false) in
    {| data := set_line_items (extracted_data (preprocess document)) (fst st);
       review_needed := snd st;
       warning := make_warning (snd st) (fst st) |}.
Proof.
  intros Hno.
  destruct (Nat.eq_dec (length (item_entities (preprocess document)))
                       (length (amount_entities (preprocess document))))
    as [Heq|Hne].
  - assert (Hi : item_entities (preprocess document) = []).
    { destruct (item_entities (preprocess document)) eqn:E; [reflexivity|].
      exfalso. apply Hno. split; [discriminate | exact Heq]. }
    assert (Ha : amount_entities (preprocess document) = []).
    { rewrite Hi in Heq. simpl in Heq. symmetry in Heq.
      now apply length_zero_iff_nil in Heq. }
    unfold parse_document_entities, row_groups_of. rewrite Hi, Ha.
    reflexivity.
  - now apply parse_rows.
Qed.

Lemma parse_strategy document :
  (item_entities (preprocess document) <> [] /\
   length (item_entities (preprocess document))
   = length (amount_entities (preprocess document))) \/
  ~ (item_entities (preprocess document) <> [] /\
     length (item_entities (preprocess document))
     = length (amount_entities (preprocess document))).
Proof.
  destruct (item_entities (preprocess document)) as [|i0 items].
  - right. intros [H _]. now apply H.
  - destruct (Nat.eq_dec (length (i0 :: items))
                         (length (amount_entities (preprocess document)))).
    + left. split; [discriminate | assumption].
    + right. intros [_ H]. contradiction.
Qed.

Lemma pair_ordinal_In si sa li :
  In li (pair_ordinal si sa) -> exists i a, li = ordinal_line_item i a.
Proof.
  unfold pair_ordinal. rewrite in_map_iff.
  intros ([i a] & <- & _). now exists i, a.
Qed.

(** X9. Whatever the document, every line item of the result has an
    amount made of ASCII digits only and an item text free of plain
    spaces, ideographic spaces and at signs. *)
Theorem line_items_are_clean (document : Document) :
  Forall clean_line_item
         (line_items (data (parse_document_entities document))).
Proof.
  apply Forall_forall. intros li Hli.
  destruct (parse_strategy document) as [[Hne Hlen]|Hno].
  - rewrite parse_ordinal in Hli by assumption. simpl in Hli.
    apply pair_ordinal_In in Hli. destruct Hli as (i & a & ->).
    apply ordinal_line_item_clean.
  - rewrite parse_rows_general in Hli by assumption. simpl in Hli.
    rewrite fold_row_step in Hli. simpl in Hli.
    apply in_flat_map in Hli. destruct Hli as (row & _ & Hli).
    eapply row_output_clean, Hli.
Qed.

Lemma row_output_length row : (length (row_output row) <= 1)%nat.
Proof.
  destruct (row_output row) as [|li rest] eqn:E; simpl; [lia|].
  assert (H : In li (row_output row)) by (rewrite E; now left).
  apply row_output_cases in H. destruct H as [H _].
  rewrite E in H. injection H as ->. simpl. lia.
Qed.

Lemma flat_map_row_output_length rows :
  (length (flat_map row_output rows) <= length rows)%nat.
Proof.
  induction rows as [|row rows IH]; simpl; [lia|].
  rewrite length_app. pose proof (row_output_length row). lia.
Qed.

(** X10. When the counts of item and amount fragments differ, every line
    item has a non-empty item text and a non-empty amount, and there are
    at most as many line items as rows, hence as fragments. *)
Theorem row_grouping_line_items (document : Document) :
  length (item_entities (preprocess document))
  <> length (amount_entities (preprocess document)) ->
  Forall (fun li => item li <> [] /\ amount li <> [])
         (line_items (data (parse_document_entities document))) /\
  (length (line_items (data (parse_document_entities document)))
   <= length (row_groups_of document))%nat /\
  (length (row_groups_of document)
   <= length (item_entities (preprocess document))
      + length (amount_entities (preprocess document)))%nat.
Proof.
  intros Hlen. rewrite parse_rows by exact Hlen. simpl.
  rewrite fold_row_step. simpl. repeat split.
  - apply Forall_forall. intros li Hli.
    apply in_flat_map in Hli. destruct Hli as (row & _ & Hli).
    apply row_output_cases in Hli.
    destruct Hli as [_ [(-> & Hi & Ha) | [(-> & Hi & _) | (-> & _ & Ha & _)]]];
      simpl; split; auto; discriminate.
  - apply flat_map_row_output_length.
  - unfold row_groups_of. rewrite <- length_app.
    apply group_rows_count_le.
Qed.

Lemma row_grouping_line_items_witness :
  Forall (fun li => item li <> [] /\ amount li <> [])
         (line_items (data (parse_document_entities doc_row_overlap))) /\
  (length (line_items (data (parse_document_entities doc_row_overlap)))
   <= length (row_groups_of doc_row_overlap))%nat /\
  (length (row_groups_of doc_row_overlap)
   <= length (item_entities (preprocess doc_row_overlap))
      + length (amount_entities (preprocess doc_row_overlap)))%nat.
Proof.
  apply row_grouping_line_items. vm_compute. discriminate.
Defined.

(** ** The user warning *)

Lemma parse_warning document :
  warning (parse_document_entities document)
  = make_warning (review_needed (parse_document_entities document))
                 (line_items (data (parse_document_entities document))).
Proof.
  destruct (parse_strategy document) as [[Hne Hlen]|Hno].
  - rewrite parse_ordinal by assumption. reflexivity.
  - rewrite parse_rows_general by assumption. reflexivity.
Qed.

Lemma make_warning_rule rv ls :
  (make_warning rv ls = None <-> rv = false \/ length ls = 0%nat) /\
  (make_warning rv ls = Some WARNING_RETAKE <->
     rv = true /\ (3 <= length ls)%nat) /\
  (make_warning rv ls = Some WARNING_FIX <->
     rv = true /\ (1 <= length ls < 3)%nat).
Proof.
  assert (Hdiff : WARNING_RETAKE <> WARNING_FIX) by discriminate.
  assert (Hinj : forall a b : pystr, Some a = Some b -> a = b)
    by (intros a b H; now injection H).
  unfold make_warning.
  destruct rv; [|simpl; intuition (try discriminate; try lia)].
  destruct ls as [|l1 [|l2 [|l3 ls]]]; simpl;
    (split; [|split]); split; intros H;
    try discriminate H; try (destruct H as [H|H]; discriminate H);
    try (apply proj2 in H; lia); try (split; [reflexivity | lia]);
    try reflexivity; try (left; reflexivity); try (right; reflexivity);
    try (apply Hinj in H; congruence).
Qed.

(** X11. The result carries a warning exactly when the review flag is set
    and there is at least one line item; the warning that suggests taking
    the photograph again is used from three line items on, the shorter one
    below. *)
Theorem warning_rule (document : Document) :
  let result := parse_document_entities document in
  let count := length (line_items (data result)) in
  (warning result = None <->
     review_needed result = false \/ count = 0%nat) /\
  (warning result = Some WARNING_RETAKE <->
     review_needed result = true /\ (3 <= count)%nat) /\
  (warning result = Some WARNING_FIX <->
     review_needed result = true /\ (1 <= count < 3)%nat).
Proof.
  intros result count. unfold result, count. rewrite parse_warning.
  apply make_warning_rule.
Qed.

(** ** Header fields *)

Lemma pre_step_fields st e :
  title (extracted_data (pre_step st e))
  = match title (extracted_data st) with
    | Some t => Some t
    | None => if eqb (type_ e) T_TITLE
              then Some (_normalize_title (raw_text_of e)) else None
    end /\
  shop_name (extracted_data (pre_step st e))
  = match shop_name (extracted_data st) with
    | Some t => Some t
    | None => if eqb (type_ e) T_SHOP_NAME then Some (raw_text_of e) else None
    end /\
  date (extracted_data (pre_step st e))
  = match date (extracted_data st) with
    | Some t => Some t
    | None => if eqb (type_ e) T_DATE then Some (raw_text_of e) else None
    end.
Proof.
  destruct st as [its ams [t sn d ls]].
  unfold pre_step, raw_text_of. cbn [extracted_data title shop_name date].
  destruct (eqb (type_ e) T_ITEM) eqn:Ei.
  { apply eqb_eq in Ei. rewrite Ei.
    change (eqb T_ITEM T_TITLE) with false.
    change (eqb T_ITEM T_SHOP_NAME) with false.
    change (eqb T_ITEM T_DATE) with false.
    change (eqb T_ITEM T_AMOUNT) with false. cbn [orb].
    destruct (_create_parsed_entity e), t, sn, d; simpl; auto. }
  destruct (eqb (type_ e) T_AMOUNT) eqn:Ea.
  { apply eqb_eq in Ea. rewrite Ea.
    change (eqb T_AMOUNT T_TITLE) with false.
    change (eqb T_AMOUNT T_SHOP_NAME) with false.
    change (eqb T_AMOUNT T_DATE) with false. cbn [orb].
    destruct (_create_parsed_entity e), t, sn, d; simpl; auto. }
  cbn [orb].
  destruct (eqb (type_ e) T_TITLE) eqn:Et.
  { apply eqb_eq in Et. rewrite Et.
    change (eqb T_TITLE T_SHOP_NAME) with false.
    change (eqb T_TITLE T_DATE) with false.
    destruct t, sn, d; simpl; auto. }
  destruct (eqb (type_ e) T_SHOP_NAME) eqn:Es.
  { apply eqb_eq in Es. rewrite Es.
    change (eqb T_SHOP_NAME T_DATE) with false.
    destruct t, sn, d; simpl; auto. }
  destruct (eqb (type_ e) T_DATE) eqn:Ed; destruct t, sn, d; simpl; auto.
Qed.

Lemma fold_pre_step_fields es : forall st,
  title (extracted_data (fold_left pre_step es st))
  = match title (extracted_data st) with
    | Some t => Some t
    | None => option_map (fun e => _normalize_title (raw_text_of e))
                (find (fun e => eqb (type_ e) T_TITLE) es)
    end /\
  shop_name (extracted_data (fold_left pre_step es st))
  = match shop_name (extracted_data st) with
    | Some t => Some t
    | None => option_map raw_text_of
                (find (fun e => eqb (type_ e) T_SHOP_NAME) es)
    end /\
  date (extracted_data (fold_left pre_step es st))
  = match date (extracted_data st) with
    | Some t => Some t
    | None => option_map raw_text_of
                (find (fun e => eqb (type_ e) T_DATE) es)
    end.
Proof.
  induction es as [|e es IH]; intros st; simpl.
  - destruct (title _), (shop_name _), (date _); auto.
  - destruct (IH (pre_step st e)) as (Ht & Hs & Hd).
    destruct (pre_step_fields st e) as (Pt & Ps & Pd).
    rewrite Ht, Hs, Hd, Pt, Ps, Pd. repeat split.
    + destruct (title (extracted_data st)); [reflexivity|].
      destruct (eqb (type_ e) T_TITLE); reflexivity.
    + destruct (shop_name (extracted_data st)); [reflexivity|].
      destruct (eqb (type_ e) T_SHOP_NAME); reflexivity.
    + destruct (date (extracted_data st)); [reflexivity|].
      destruct (eqb (type_ e) T_DATE); reflexivity.
Qed.

Lemma parse_data document :
  exists ls,
    data (parse_document_entities document)
    = set_line_items (extracted_data (preprocess document)) ls.
Proof.
  destruct (parse_strategy document) as [[Hne Hlen]|Hno].
  - rewrite parse_ordinal by assumption. simpl. eauto.
  - rewrite parse_rows_general by assumption. simpl. eauto.
Qed.

(** X12. The header fields come from the first entity of each kind, in
    document order: the title is the normalized text of the first title
    entity, the shop name and the date are the texts of the first shop-name
    and date entities, each with line feeds removed; a field without such
    an entity is absent. Later entities of the same kind are ignored. *)
Theorem header_fields_first_wins (document : Document) :
  let result := parse_document_entities document in
  title (data result)
  = option_map (fun e => _normalize_title (raw_text_of e))
               (first_of_kind T_TITLE document) /\
  shop_name (data result)
  = option_map raw_text_of (first_of_kind T_SHOP_NAME document) /\
  date (data result)
  = option_map raw_text_of (first_of_kind T_DATE document).
Proof.
  intros result. unfold result.
  destruct (parse_data document) as (ls & ->). simpl.
  unfold preprocess, first_of_kind.
  destruct (fold_pre_step_fields (entities document)
              {| item_entities := []; amount_entities := [];
                 extracted_data := extracted_data0 |}) as (Ht & Hs & Hd).
  now rewrite Ht, Hs, Hd.
Qed.

(** ** Fragments of one kind only *)

Lemma fragments_of_type kind document e :
  In e (fragments_of kind document) -> type e = kind.
Proof.
  unfold fragments_of. rewrite in_flat_map. intros (entity & _ & H).
  destruct (eqb (type_ entity) kind) eqn:E; [|contradiction].
  apply eqb_eq in E.
  destruct (_create_parsed_entity entity) as [parsed|] eqn:C; [|contradiction].
  destruct H as [<-|[]].
  apply create_parsed_entity_Some in C.
  destruct C as (? & ? & ? & ? & _ & _ & _ & _ & _ & _ & Ht). congruence.
Qed.

Lemma row_groups_members document row e :
  In row (row_groups_of document) -> In e row ->
  In e (item_entities (preprocess document)
        ++ amount_entities (preprocess document)).
Proof.
  unfold row_groups_of. intros Hrow He.
  set (all := item_entities (preprocess document)
              ++ amount_entities (preprocess document)) in *.
  eapply Permutation_in; [apply Permutation_sym, sorted_by_perm|].
  rewrite <- (group_rows_sorted all (_calculate_dynamic_tolerance all)).
  apply in_concat. now exists row.
Qed.

Lemma filter_none (A : Type) (f : A -> bool) (l : list A) :
  (forall a, In a l -> f a = false) -> filter f l = [].
Proof.
  induction l as [|a l IH]; simpl; intros H; [reflexivity|].
  rewrite (H a) by now left. apply IH. intros b Hb. apply H. now right.
Qed.

Lemma row_without_amounts row :
  (forall e, In e row -> type e = T_ITEM) ->
  row_output row
  = (if truthy (row_final_item_text row)
     then [{| item := row_final_item_text row; amount := py "0" |}] else []) /\
  row_flag row = truthy (row_final_item_text row).
Proof.
  intros Hty.
  assert (Ha : row_amounts row = []).
  { unfold row_amounts. rewrite filter_none; [reflexivity|].
    intros e He. rewrite (Hty e He). reflexivity. }
  unfold row_output, row_flag, row_step, row_final_amount_text. rewrite Ha.
  destruct (row_items row); destruct (truthy (row_final_item_text row));
    split; reflexivity.
Qed.

Lemma row_without_items row :
  (forall e, In e row -> type e = T_AMOUNT) ->
  row_output row
  = (if truthy (digits_only (merged_text (row_amounts row)))
     then [{| item := UNKNOWN_ITEM;
              amount := digits_only (merged_text (row_amounts row)) |}]
     else []) /\
  row_flag row = truthy (digits_only (merged_text (row_amounts row))).
Proof.
  intros Hty.
  assert (Hi : row_items row = []).
  { unfold row_items. rewrite filter_none; [reflexivity|].
    intros e He. rewrite (Hty e He). reflexivity. }
  unfold row_output, row_flag, row_step, row_final_amount_text,
    row_final_item_text.
  rewrite Hi. change (clean_item_text (merged_text [])) with (@nil N).
  destruct (row_amounts row) as [|a0 rest].
  - split; reflexivity.
  - destruct (truthy (digits_only (merged_text (a0 :: rest))));
      split; reflexivity.
Qed.

Lemma existsb_flat_map_nonempty (A B : Type) (f : A -> list B)
    (p : A -> bool) (l : list A) :
  (forall a, In a l -> (p a = true <-> f a <> [])) ->
  (existsb p l = true <-> flat_map f l <> []).
Proof.
  intros H. rewrite existsb_exists. split.
  - intros (a & Ha & Hp). apply (H a Ha) in Hp.
    intros E. apply Hp.
    destruct (f a) as [|b bs] eqn:Ef; [reflexivity|].
    assert (Hin : In b (flat_map f l))
      by (apply in_flat_map; exists a; split; [exact Ha | rewrite Ef; now left]).
    rewrite E in Hin. contradiction.
  - intros Hne. destruct (flat_map f l) as [|b bs] eqn:E; [contradiction|].
    assert (Hin : In b (flat_map f l)) by (rewrite E; now left).
    apply in_flat_map in Hin. destruct Hin as (a & Ha & Hb).
    exists a. split; [exact Ha|]. apply (H a Ha).
    intros Ef. rewrite Ef in Hb. contradiction.
Qed.

(** X13. When no amount fragment is usable but some item fragment is,
    every line item carries the amount ["0"], and the review flag is set
    exactly when there is at least one line item. *)
Theorem items_only_all_zero (document : Document) :
  item_entities (preprocess document) <> [] ->
  amount_entities (preprocess document) = [] ->
  Forall (fun li => amount li = py "0")
         (line_items (data (parse_document_entities document))) /\
  (review_needed (parse_document_entities document) = true <->
   line_items (data (parse_document_entities document)) <> []).
Proof.
  intros Hi Ha.
  assert (Hty : forall row e, In row (row_groups_of document) -> In e row ->
                              type e = T_ITEM).
  { intros row e Hrow He.
    pose proof (row_groups_members document row e Hrow He) as Hin.
    rewrite Ha, app_nil_r, preprocess_item_entities in Hin.
    eapply fragments_of_type, Hin. }
  rewrite parse_rows.
  2:{ rewrite Ha. simpl. intros E. apply length_zero_iff_nil in E.
      contradiction. }
  simpl. rewrite fold_row_step. simpl. split.
  - apply Forall_forall. intros li Hli.
    apply in_flat_map in Hli. destruct Hli as (row & Hrow & Hli).
    destruct (row_without_amounts row (fun e => Hty row e Hrow)) as [Ho _].
    rewrite Ho in Hli.
    destruct (truthy (row_final_item_text row)); [|contradiction].
    destruct Hli as [<-|[]]. reflexivity.
  - apply existsb_flat_map_nonempty. intros row Hrow.
    destruct (row_without_amounts row (fun e => Hty row e Hrow)) as [Ho Hf].
    rewrite Ho, Hf.
    destruct (truthy (row_final_item_text row)); split;
      congruence || discriminate.
Qed.

Lemma items_only_all_zero_witness :
  Forall (fun li => amount li = py "0")
         (line_items (data (parse_document_entities doc_items_only))) /\
  (review_needed (parse_document_entities doc_items_only) = true <->
   line_items (data (parse_document_entities doc_items_only)) <> []).
Proof.
  apply items_only_all_zero.
  - vm_compute. discriminate.
  - vm_compute. reflexivity.
Defined.

(** X14. When no item fragment is usable but some amount fragment is,
    every line item carries the placeholder for an unknown item, and the
    review flag is set exactly when there is at least one line item. *)
Theorem amounts_only_all_unknown (document : Document) :
  item_entities (preprocess document) = [] ->
  amount_entities (preprocess document) <> [] ->
  Forall (fun li => item li = UNKNOWN_ITEM)
         (line_items (data (parse_document_entities document))) /\
  (review_needed (parse_document_entities document) = true <->
   line_items (data (parse_document_entities document)) <> []).
Proof.
  intros Hi Ha.
  assert (Hty : forall row e, In row (row_groups_of document) -> In e row ->
                              type e = T_AMOUNT).
  { intros row e Hrow He.
    pose proof (row_groups_members document row e Hrow He) as Hin.
    rewrite Hi, app_nil_l, preprocess_amount_entities in Hin.
    eapply fragments_of_type, Hin. }
  rewrite parse_rows.
  2:{ rewrite Hi. simpl. intros E. symmetry in E.
      apply length_zero_iff_nil in E. contradiction. }
  simpl. rewrite fold_row_step. simpl. split.
  - apply Forall_forall. intros li Hli.
    apply in_flat_map in Hli. destruct Hli as (row & Hrow & Hli).
    destruct (row_without_items row (fun e => Hty row e Hrow)) as [Ho _].
    rewrite Ho in Hli.
    destruct (truthy (digits_only (merged_text (row_amounts row))));
      [|contradiction].
    destruct Hli as [<-|[]]. reflexivity.
  - apply existsb_flat_map_nonempty. intros row Hrow.
    destruct (row_without_items row (fun e => Hty row e Hrow)) as [Ho Hf].
    rewrite Ho, Hf.
    destruct (truthy (digits_only (merged_text (row_amounts row)))); split;
      congruence || discriminate.
Qed.

Lemma amounts_only_all_unknown_witness :
  Forall (fun li => item li = UNKNOWN_ITEM)
         (line_items (data (parse_document_entities doc_amounts_only))) /\
  (review_needed (parse_document_entities doc_amounts_only) = true <->
   line_items (data (parse_document_entities doc_amounts_only)) <> []).
Proof.
  apply amounts_only_all_unknown.
  - vm_compute. reflexivity.
  - vm_compute. discriminate.
Defined.

(** ** Fragment boxes *)

Lemma fold_min_le_max rest : forall lo hi,
  lo <= hi ->
  fold_left (fun m c => if Qltb c m then c else m) rest lo
  <= fold_left (fun m c => if Qltb m c then c else m) rest hi.
Proof.
  intros lo hi H.
  eapply Qle_trans; [apply fold_min_le|].
  eapply Qle_trans; [exact H | apply fold_max_ge].
Qed.

Lemma replace1_removes c s : ~ In c (replace1 c [] s).
Proof.
  intros H. apply replace1_In in H. destruct H as [[_ H]|[]]. now apply H.
Qed.

Lemma Qmidpoint lo hi :
  lo <= hi -> lo <= (lo + hi) / 2 /\ (lo + hi) / 2 <= hi.
Proof.
  intros H. split.
  - apply Qle_shift_div_l; [reflexivity|].
    setoid_replace (lo * 2) with (lo + lo) by ring.
    now apply Qplus_le_r.
  - apply Qle_shift_div_r; [reflexivity|].
    setoid_replace (hi * 2) with (hi + hi) by ring.
    now apply Qplus_le_l.
Qed.

(** X15. Every fragment box that the geometry derivation produces keeps
    the kind of its entity and the entity's text without line feeds; its
    x center lies between its x extents and its height is not negative. *)
Theorem create_parsed_entity_well_formed (entity : Entity)
    (parsed : ParsedEntity) :
  _create_parsed_entity entity = Some parsed ->
  well_formed_box parsed /\
  type parsed = type_ entity /\
  text parsed = raw_text_of entity.
Proof.
  unfold _create_parsed_entity.
  destruct (page_refs (page_anchor entity)) as [|ref0 rest]; [discriminate|].
  destruct (length (normalized_vertices (bounding_poly ref0)) <? 4)%nat;
    [discriminate|].
  destruct (py_min (coords y _)) as [ylo|] eqn:Ey1; [|discriminate].
  destruct (py_max (coords y _)) as [yhi|] eqn:Ey2; [|discriminate].
  destruct (py_min (coords x _)) as [xlo|] eqn:Ex1; [|discriminate].
  destruct (py_max (coords x _)) as [xhi|] eqn:Ex2; [|discriminate].
  intros [= <-]. unfold well_formed_box, raw_text_of. simpl.
  pose proof (py_min_le_py_max _ Ex1 Ex2) as Hx.
  pose proof (py_min_le_py_max _ Ey1 Ey2) as Hy.
  destruct (Qmidpoint Hx) as [H1 H2].
  repeat split; auto.
  - unfold Qminus. now rewrite <- Qle_minus_iff.
  - apply replace1_removes.
Qed.

Lemma create_parsed_entity_well_formed_witness :
  exists parsed,
    _create_parsed_entity (box T_ITEM [116; 10; 101; 97]%N 0.1 0.4 0.19 0.21)
    = Some parsed /\
    well_formed_box parsed /\ text parsed = [116; 101; 97]%N.
Proof.
  eexists. split; [reflexivity|].
  destruct (@create_parsed_entity_well_formed
              (box T_ITEM [116; 10; 101; 97]%N 0.1 0.4 0.19 0.21) _ eq_refl)
    as (Hw & _ & Ht).
  split; [exact Hw | exact Ht].
Defined.

(** X16. Step 1 collects the usable fragments of each kind in document
    order, dropping the entities without usable geometry; every collected
    item fragment has kind [item] and every collected amount fragment has
    kind [amount]. *)
Theorem preprocess_fragments (document : Document) :
  item_entities (preprocess document) = fragments_of T_ITEM document /\
  amount_entities (preprocess document) = fragments_of T_AMOUNT document /\
  Forall (fun e => type e = T_ITEM) (item_entities (preprocess document)) /\
  Forall (fun e => type e = T_AMOUNT) (amount_entities (preprocess document)).
Proof.
  rewrite preprocess_item_entities, preprocess_amount_entities.
  repeat split; apply Forall_forall; intros e He;
    eapply fragments_of_type, He.
Qed.

(** ** Titles that pass the keyword check *)

Lemma _normalize_title_unambiguous x :
  unambiguous_title x -> In (_normalize_title x) config.KEYWORDS.
Proof.
  unfold unambiguous_title, _normalize_title. intros [Hm Hd].
  destruct x as [|c x]; [discriminate Hm|]. cbn [truthy negb].
  destruct (any_in config.CREDIT_CHARS (c :: x)),
    (any_in config.CASH_CHARS (c :: x)); try discriminate Hm;
  destruct (any_in config.PAYMENT_CHARS (c :: x)),
    (any_in config.RECEIPT_CHARS (c :: x)); try discriminate Hd;
  simpl; auto.
Qed.

Lemma _normalize_title_ambiguous x :
  ~ unambiguous_title x -> _normalize_title x = x.
Proof.
  unfold unambiguous_title, _normalize_title. intros H.
  destruct (negb (truthy x)); [reflexivity|].
  destruct (any_in config.CREDIT_CHARS x), (any_in config.CASH_CHARS x),
    (any_in config.PAYMENT_CHARS x), (any_in config.RECEIPT_CHARS x);
    simpl; try reflexivity; exfalso; apply H; split; reflexivity.
Qed.

(** X17. The normalized title is one of the four keywords exactly when
    the raw title already is one, or shows exactly one payment-mode
    indicator and exactly one direction indicator. *)
Theorem normalize_title_keyword_iff (raw_title : pystr) :
  In (_normalize_title raw_title) config.KEYWORDS <->
  In raw_title config.KEYWORDS \/ unambiguous_title raw_title.
Proof.
  split.
  - intros H.
    assert (D : unambiguous_title raw_title \/ ~ unambiguous_title raw_title).
    { unfold unambiguous_title.
      destruct (xorb (any_in config.CREDIT_CHARS raw_title)
                     (any_in config.CASH_CHARS raw_title));
      destruct (xorb (any_in config.PAYMENT_CHARS raw_title)
                     (any_in config.RECEIPT_CHARS raw_title));
      try (left; split; reflexivity);
      right; intros [H1 H2]; discriminate. }
    destruct D as [D|D]; [now right|].
    left. now rewrite <- (_normalize_title_ambiguous D).
  - intros [H|H].
    + now rewrite _normalize_title_keyword.
    + now apply _normalize_title_unambiguous.
Qed.

(** ** Votes and the rotation decision *)

(** The decision with the exact product, in integers. *)
Lemma decide_90_rotation_exact_integer_rule
    (horizontal_votes vertical_votes : nat) :
  (_decide_90_rotation (Z.of_nat horizontal_votes) (Z.of_nat vertical_votes)
   = Some ROTATE_90_CLOCKWISE <->
   (3 <= horizontal_votes + vertical_votes /\
    6 * horizontal_votes < 5 * vertical_votes)%nat) /\
  (_decide_90_rotation (Z.of_nat horizontal_votes) (Z.of_nat vertical_votes)
   = None <->
   (horizontal_votes + vertical_votes < 3 \/
    5 * vertical_votes <= 6 * horizontal_votes)%nat).
Proof.
  unfold _decide_90_rotation.
  pose proof (@vertical_dominates_int (Z.of_nat horizontal_votes)
                (Z.of_nat vertical_votes) (Nat2Z.is_nonneg _)) as Hint.
  rewrite <- vertical_dominates_dec in Hint.
  destruct (Z.ltb_spec (Z.of_nat horizontal_votes + Z.of_nat vertical_votes) 3)
    as [Hlt|Hge].
  - split; split; try discriminate; try (intros; lia); auto.
  - destruct (Qltb _ _ || _).
    + assert (H : (6 * Z.of_nat horizontal_votes < 5 * Z.of_nat vertical_votes)%Z)
        by now apply Hint.
      split; split; try discriminate; try reflexivity; intros; lia.
    + assert (H : ~ (6 * Z.of_nat horizontal_votes < 5 * Z.of_nat vertical_votes)%Z)
        by (intros C; apply Hint in C; discriminate).
      split; split; try discriminate; try reflexivity; intros; lia.
Qed.

(** X18. With fewer than 2^50 horizontal votes, and any number of
    vertical votes, the interpreter's decision, which rounds the product
    by 1.2 to a double, does not raise, and the page is rotated exactly
    when there are at least three votes and five times the vertical votes
    exceed six times the horizontal ones; the extra test for zero
    horizontal votes never changes the decision. *)
Theorem decide_90_rotation_integer_rule (horizontal_votes vertical_votes : nat) :
  (Z.of_nat horizontal_votes < 2 ^ 50)%Z ->
  (Py64._decide_90_rotation (Z.of_nat horizontal_votes)
     (Z.of_nat vertical_votes)
   = Return (Some ROTATE_90_CLOCKWISE) <->
   (3 <= horizontal_votes + vertical_votes /\
    6 * horizontal_votes < 5 * vertical_votes)%nat) /\
  (Py64._decide_90_rotation (Z.of_nat horizontal_votes)
     (Z.of_nat vertical_votes)
   = Return None <->
   (horizontal_votes + vertical_votes < 3 \/
    5 * vertical_votes <= 6 * horizontal_votes)%nat).
Proof.
  intros Hh.
  rewrite (@decide_90_rotation_exact_below (Z.of_nat horizontal_votes)
             (Z.of_nat vertical_votes)) by lia.
  destruct (decide_90_rotation_exact_integer_rule horizontal_votes
              vertical_votes) as [Hrot Hkeep].
  split; [rewrite <- Hrot | rewrite <- Hkeep]; split; congruence.
Qed.

Lemma decide_90_rotation_integer_rule_witness :
  Py64._decide_90_rotation 100 121 = Return (Some ROTATE_90_CLOCKWISE) /\
  Py64._decide_90_rotation 100 120 = Return None.
Proof.
  split.
  - apply (proj1 (@decide_90_rotation_integer_rule 100 121 eq_refl)). lia.
  - apply (proj2 (@decide_90_rotation_integer_rule 100 120 eq_refl)). lia.
Defined.

Lemma decide_90_rotation_binary64_witness :
  B64._decide_90_rotation 5 6 = _decide_90_rotation 5 6 /\
  B64._decide_90_rotation 100 121 = _decide_90_rotation 100 121.
Proof.
  split.
  - apply (@decide_90_rotation_binary64 5%nat 6%nat); lia.
  - apply (@decide_90_rotation_binary64 100%nat 121%nat); lia.
Defined.

Lemma vote_step_bounds rows cols h v rect h' v' :
  vote_step rows cols (h, v) rect = Return (h', v') ->
  (h <= h' /\ v <= v' /\ h' + v' <= h + v + 1)%Z.
Proof.
  unfold vote_step. destruct rect as [cw ch].
  destruct (Qltb _ _); [intros [= <- <-]; lia|].
  destruct (_ || _); [intros [= <- <-]; lia|].
  destruct (ch =? 0)%Z; [discriminate|].
  destruct (Qltb 1.5 _); [intros [= <- <-]; lia|].
  destruct (Qltb _ 0.7); intros [= <- <-]; lia.
Qed.

Lemma vote_loop_bounds rows cols rects : forall h v h' v',
  vote_loop rows cols rects (h, v) = Return (h', v') ->
  (h <= h' /\ v <= v' /\ h' + v' <= h + v + Z.of_nat (length rects))%Z.
Proof.
  induction rects as [|rect rects IH]; intros h v h' v'; cbn [vote_loop].
  - intros [= <- <-]. simpl. lia.
  - destruct (vote_step rows cols (h, v) rect) as [[h1 v1]|e] eqn:E;
      [|discriminate].
    apply vote_step_bounds in E. cbn [bind]. intros H. apply IH in H.
    cbn [length]. lia.
Qed.

Lemma vote_step_returns rows cols votes rect :
  (0 < rows * cols)%Z \/ snd rect <> 0%Z ->
  exists votes', vote_step rows cols votes rect = Return votes'.
Proof.
  intros H. unfold vote_step. destruct votes as [h v], rect as [cw ch].
  destruct (Qltb (inject_Z (cw * ch)) _) eqn:E1; [eauto|].
  destruct (_ || _); [eauto|].
  destruct (Z.eqb_spec ch 0) as [->|Hne].
  - exfalso. destruct H as [H|H]; [|now apply H].
    apply Qltb_ge in E1. rewrite Z.mul_0_r in E1.
    revert E1. apply Qlt_not_le. unfold Qlt. simpl. lia.
  - destruct (Qltb 1.5 _); [eauto|]. destruct (Qltb _ 0.7); eauto.
Qed.

Lemma vote_loop_returns rows cols rects : forall votes,
  (0 < rows * cols)%Z \/ Forall (fun rect => snd rect <> 0%Z) rects ->
  exists votes', vote_loop rows cols rects votes = Return votes'.
Proof.
  induction rects as [|rect rects IH]; intros votes H; cbn [vote_loop].
  - eauto.
  - destruct (@vote_step_returns rows cols votes rect) as (votes1 & ->).
    + destruct H as [H|H]; [now left | right].
      now inversion H.
    + cbn [bind]. apply IH.
      destruct H as [H|H]; [now left | right]. now inversion H.
Qed.

(** X19. Counting the orientation votes returns a pair of counts, without
    raising, whenever the image has positive area or no bounding rectangle
    has height zero; the counts are not negative and together do not
    exceed the number of contours. *)
Theorem text_orientation_votes_bounds (rows cols : Z) (rects : list (Z * Z)) :
  (0 < rows * cols)%Z \/ Forall (fun rect => snd rect <> 0%Z) rects ->
  exists horizontal_votes vertical_votes,
    text_orientation_votes rows cols rects
    = Return (horizontal_votes, vertical_votes) /\
    (0 <= horizontal_votes)%Z /\ (0 <= vertical_votes)%Z /\
    (horizontal_votes + vertical_votes <= Z.of_nat (length rects))%Z.
Proof.
  intros H. unfold text_orientation_votes.
  destruct (@vote_loop_returns rows cols rects (0, 0)%Z H) as ([h v] & E).
  exists h, v. split; [exact E|].
  apply vote_loop_bounds in E. lia.
Qed.

Lemma text_orientation_votes_bounds_witness :
  exists horizontal_votes vertical_votes,
    text_orientation_votes 1200 1600 [(300, 40); (35, 120); (50, 50); (2, 2)]%Z
    = Return (horizontal_votes, vertical_votes) /\
    (0 <= horizontal_votes)%Z /\ (0 <= vertical_votes)%Z /\
    (horizontal_votes + vertical_votes <= 4)%Z.
Proof.
  apply (@text_orientation_votes_bounds 1200 1600
           [(300, 40); (35, 120); (50, 50); (2, 2)]%Z).
  left. reflexivity.
Defined.

(** X20. An image in which fewer than three contours are found is never
    rotated by 90 degrees: whatever votes the contours cast, the decision
    keeps the orientation. *)
Theorem few_contours_no_rotation (rows cols : Z) (rects : list (Z * Z))
    (horizontal_votes vertical_votes : Z) :
  (length rects < 3)%nat ->
  text_orientation_votes rows cols rects
  = Return (horizontal_votes, vertical_votes) ->
  _decide_90_rotation horizontal_votes vertical_votes = None.
Proof.
  intros Hlen H. apply vote_loop_bounds in H.
  unfold _decide_90_rotation.
  destruct (Z.ltb_spec (horizontal_votes + vertical_votes) 3); [reflexivity|].
  lia.
Qed.

Lemma few_contours_no_rotation_witness :
  _decide_90_rotation 0 2 = None.
Proof.
  apply (@few_contours_no_rotation 1200 1600 [(35, 120); (30, 110)]%Z 0 2).
  - simpl. lia.
  - vm_compute. reflexivity.
Defined.

Lemma process_image_result_witness :
  [0xFF; 0xD8]%N = [0xFF; 0xD8]%N \/
  exists final_output : unit,
    normalize_image (fun _ => Return tt) ok1 ok1 ok1 (fun img _ => ok1 img)
      ok1 ok1 ok2 (fun _ => Return (0, 0)%Z) (fun _ _ => Return (None, None))
      (fun _ => Return 0%Z) [0xFF; 0xD8]%N = Return final_output /\
    encoder_fails final_output = Return (true, [0xFF; 0xD8]%N).
Proof.
  apply (@process_image_result unit unit (fun _ => Return tt) ok1 ok1 ok1
           (fun img _ => ok1 img) ok1 ok1 ok2 (fun _ => Return (0, 0)%Z)
           (fun _ _ => Return (None, None)) (fun _ => Return 0%Z)
           encoder_fails [0xFF; 0xD8]%N [0xFF; 0xD8]%N).
  reflexivity.
Defined.

(** ** File names *)

Lemma replace1_absent c r s : ~ In c s -> replace1 c r s = s.
Proof.
  unfold replace1. induction s as [|d s IH]; simpl; intros H; [reflexivity|].
  destruct (N.eqb_spec d c) as [->|Hne].
  - exfalso. apply H. now left.
  - simpl. f_equal. apply IH. intros C. apply H. now right.
Qed.

Lemma replace1_replaced c r s : ~ In c r -> ~ In c (replace1 c r s).
Proof.
  intros Hr H. apply replace1_In in H. destruct H as [[_ H]|H].
  - now apply H.
  - now apply Hr.
Qed.

Lemma replace1_keeps_absent c r s d :
  ~ In d s -> ~ In d r -> ~ In d (replace1 c r s).
Proof.
  intros Hs Hr H. apply replace1_In in H. destruct H as [[H _]|H]; auto.
Qed.

Lemma safe_title_chars (t : pystr) (c : N) :
  In c (replace1 IDEOGRAPHIC_SPACE [UNDERSCORE]
          (replace1 SPACE [UNDERSCORE] (replace1 SLASH [UNDERSCORE] t))) ->
  c <> SLASH /\ c <> SPACE /\ c <> IDEOGRAPHIC_SPACE.
Proof.
  intros H.
  assert (Hu : forall d, d <> UNDERSCORE -> ~ In d [UNDERSCORE])
    by (intros d Hd [E|[]]; congruence).
  repeat split; intros ->; revert H.
  - apply replace1_keeps_absent; [|now apply Hu].
    apply replace1_keeps_absent; [|now apply Hu].
    apply replace1_replaced. now apply Hu.
  - apply replace1_keeps_absent; [|now apply Hu].
    apply replace1_replaced. now apply Hu.
  - apply replace1_replaced. now apply Hu.
Qed.

(** X23. The title part of a file name never contains a slash, a plain
    space or an ideographic space; a missing or empty title gives
    ["NoTitle"]; a title without those three characters, such as each of
    the four keywords, is used unchanged. *)
Theorem safe_title_is_safe (title : option pystr) :
  (forall c, In c (safe_title_of title) ->
             c <> SLASH /\ c <> SPACE /\ c <> IDEOGRAPHIC_SPACE) /\
  (opt_truthy title = false -> safe_title_of title = py "NoTitle") /\
  (forall t, title = Some t -> t <> [] ->
             ~ In SLASH t -> ~ In SPACE t -> ~ In IDEOGRAPHIC_SPACE t ->
             safe_title_of title = t) /\
  (forall k, In k config.KEYWORDS -> safe_title_of (Some k) = k).
Proof.
  split; [|split; [|split]].
  - intros c. unfold safe_title_of.
    destruct title as [t|]; [destruct (truthy t)|].
    + apply safe_title_chars.
    + simpl. intros [<-|[<-|[<-|[<-|[<-|[<-|[<-|[]]]]]]]];
        repeat split; discriminate.
    + simpl. intros [<-|[<-|[<-|[<-|[<-|[<-|[<-|[]]]]]]]];
        repeat split; discriminate.
  - unfold safe_title_of. destruct title as [t|]; simpl; [|reflexivity].
    intros ->. reflexivity.
  - intros t -> Hne Hs Hsp Hid. unfold safe_title_of.
    apply truthy_true in Hne. rewrite Hne.
    rewrite (@replace1_absent SLASH [UNDERSCORE] t Hs).
    rewrite (@replace1_absent SPACE [UNDERSCORE] t Hsp).
    now apply replace1_absent.
  - simpl. intros k [<-|[<-|[<-|[<-|[]]]]]; reflexivity.
Qed.

Lemma before_underscore_app ts rest :
  ~ In UNDERSCORE ts ->
  before_underscore (ts ++ UNDERSCORE :: rest) = ts.
Proof.
  induction ts as [|c ts IH]; simpl; intros H.
  - reflexivity.
  - destruct (N.eqb_spec c UNDERSCORE) as [->|Hne].
    + exfalso. apply H. now left.
    + f_equal. apply IH. intros C. apply H. now right.
Qed.

(** X24. The date folders computed from a generated file name are those
    of the time stamp in the name, whatever the store code and the title
    are: with a time stamp of at least eight characters and without
    underscore, year, month and day are its characters 0-3, 4-5 and 6-7,
    and the clock of the uploader is not consulted. *)
Theorem filename_date_round_trip (timestamp_str store_code : pystr)
    (title : option pystr) (now : pystr * pystr * pystr) :
  ~ In UNDERSCORE timestamp_str ->
  (8 <= length timestamp_str)%nat ->
  _extract_date_parts_from_filename now
    (generate_csv_filename timestamp_str store_code title)
  = (slice 0 4 timestamp_str ++ [0x5E74]%N ++ slice 4 6 timestamp_str
       ++ [0x6708]%N ++ slice 6 8 timestamp_str ++ [0x65E5]%N,
     slice 0 4 timestamp_str, slice 4 6 timestamp_str,
     slice 6 8 timestamp_str).
Proof.
  intros Hu Hlen.
  unfold _extract_date_parts_from_filename, generate_csv_filename.
  change (py "_" ++ store_code ++ py "_" ++ safe_title_of title ++ py ".csv")
    with (UNDERSCORE :: (store_code ++ py "_" ++ safe_title_of title ++ py ".csv")).
  rewrite before_underscore_app by exact Hu.
  apply Nat.leb_le in Hlen. rewrite Hlen. reflexivity.
Qed.

Lemma filename_date_round_trip_witness :
  _extract_date_parts_from_filename (py "1999", py "12", py "31")
    (generate_csv_filename (py "20240131093015") (py "S_01")
       (Some config.KW_CASH_PAYMENT))
  = (py "2024" ++ [0x5E74]%N ++ py "01" ++ [0x6708]%N ++ py "31" ++ [0x65E5]%N,
     py "2024", py "01", py "31").
Proof.
  apply (@filename_date_round_trip (py "20240131093015") (py "S_01")
           (Some config.KW_CASH_PAYMENT) (py "1999", py "12", py "31")).
  - simpl. intuition discriminate.
  - simpl. lia.
Defined.

(** ** The task: invariants of stateful computations *)

Lemma keeps_ret (A : Type) (I : TaskState -> Prop) (a : A) : keeps I (ret a).
Proof. intros s H. exact H. Qed.

Lemma keeps_raise (A : Type) (I : TaskState -> Prop) (e : exn) :
  keeps I (@raise A e).
Proof. intros s H. exact H. Qed.

Lemma keeps_lift (A : Type) (I : TaskState -> Prop) (c : M A) :
  keeps I (lift c).
Proof. intros s H. exact H. Qed.

Lemma keeps_bind (A B : Type) (I : TaskState -> Prop) (c : Eff A)
    (k : A -> Eff B) :
  keeps I c -> (forall a, keeps I (k a)) -> keeps I (bindE c k).
Proof.
  intros Hc Hk s Hs. unfold bindE.
  specialize (Hc s Hs). destruct (c s) as [[a|e] s1]; simpl in *.
  - now apply Hk.
  - exact Hc.
Qed.

(** The continuation of a collaborator's call may use what the call
    returned. *)
Lemma keeps_bind_lift (A B : Type) (I : TaskState -> Prop) (c : M A)
    (k : A -> Eff B) :
  (forall a, c = Return a -> keeps I (k a)) -> keeps I (bindE (lift c) k).
Proof.
  intros Hk s Hs. unfold bindE, lift. destruct c as [a|e]; simpl.
  - now apply Hk.
  - exact Hs.
Qed.

Lemma keeps_bind_checked (A B : Type) (I : TaskState -> Prop) (r : Reply A)
    (msg prefix : pystr) (k : A -> Eff B) :
  keeps I (set_user_facing_error msg) ->
  (forall a, r = Value a -> keeps I (k a)) ->
  keeps I (bindE (checked r msg prefix) k).
Proof.
  intros Hset Hk. destruct r as [a|err]; unfold checked.
  - intros s Hs. unfold bindE, ret. now apply Hk.
  - intros s Hs. exact (Hset s Hs).
Qed.

Lemma keeps_try (A : Type) (I : TaskState -> Prop) (c : Eff A)
    (h : exn -> Eff A) :
  keeps I c -> (forall e, keeps I (h e)) -> keeps I (try_exceptE c h).
Proof.
  intros Hc Hh s Hs. unfold try_exceptE.
  specialize (Hc s Hs). destruct (c s) as [[a|e] s1]; simpl in *.
  - exact Hc.
  - now apply Hh.
Qed.

Lemma keeps_fail_with (A : Type) (I : TaskState -> Prop) (msg : pystr)
    (e : exn) :
  keeps I (set_user_facing_error msg) -> keeps I (@fail_with A msg e).
Proof.
  intros H. unfold fail_with. apply keeps_bind; [exact H|].
  intros _. apply keeps_raise.
Qed.

Lemma known_emit ev : keeps error_message_known (emit ev).
Proof. intros s H. exact H. Qed.

Lemma known_set msg :
  In msg USER_ERROR_MESSAGES ->
  keeps error_message_known (set_user_facing_error msg).
Proof. intros H s _. right. exact H. Qed.

(** ** The task *)

Section TasksFacts.

Variable lineworks_api_get_store_code_by_user : option pystr -> M (Reply pystr).
Variable lineworks_api_download_lw_attachment : option pystr -> M (Reply bytes).
Variable lineworks_api_send_lw_message : pystr -> pystr -> M (option pystr).
Variable image_processor_process_image : bytes -> M bytes.
Variable document_ai_processor_process_document :
  bytes -> pystr -> M (Reply Document).
Variable gcs_uploader_upload_error_image : pystr -> bytes -> bytes -> M unit.
Variable gcs_uploader_upload_processed_results :
  bool -> pystr -> pystr -> bytes -> bytes -> bytes -> M unit.
Variable s3_uploader_upload_to_s3 : bytes -> pystr -> M (Reply pystr).
Variable timestamp_str : pystr.

Let body := process_try lineworks_api_get_store_code_by_user
  lineworks_api_download_lw_attachment lineworks_api_send_lw_message
  image_processor_process_image document_ai_processor_process_document
  gcs_uploader_upload_error_image gcs_uploader_upload_processed_results
  s3_uploader_upload_to_s3 timestamp_str.

Let handler := process_except lineworks_api_send_lw_message.

Let run := run_task lineworks_api_get_store_code_by_user
  lineworks_api_download_lw_attachment lineworks_api_send_lw_message
  image_processor_process_image document_ai_processor_process_document
  gcs_uploader_upload_error_image gcs_uploader_upload_processed_results
  s3_uploader_upload_to_s3 timestamp_str.

Lemma run_task_unfold file_id user_id channel_id r :
  recipient_of user_id channel_id = Some r -> r <> [] ->
  run file_id user_id channel_id
  = try_exceptE (body file_id user_id r) (handler r)
      {| trace := []; user_facing_error := [] |}.
Proof.
  intros Hr Hne. unfold run, run_task, process_image_and_reply.
  unfold recipient_of in Hr. rewrite Hr. cbn [opt_truthy].
  apply truthy_true in Hne. rewrite Hne. reflexivity.
Qed.

(** X25. Without a recipient, that is with neither a user id nor a
    channel id, the task raises at once and calls no collaborator: nothing
    is sent and nothing is uploaded. *)
Theorem no_recipient_no_effect (file_id user_id channel_id : option pystr) :
  opt_truthy (recipient_of user_id channel_id) = false ->
  run file_id user_id channel_id
  = (Raise ERR_NO_RECIPIENT, {| trace := []; user_facing_error := [] |}).
Proof.
  intros H. unfold run, run_task, process_image_and_reply.
  unfold recipient_of in H. rewrite H. reflexivity.
Qed.

Lemma send_text_known recipient_id text :
  keeps error_message_known
        (send_text lineworks_api_send_lw_message recipient_id text).
Proof.
  unfold send_text. apply keeps_bind; [apply known_emit|].
  intros _. apply keeps_lift.
Qed.

Lemma body_known file_id user_id recipient_id :
  keeps error_message_known (body file_id user_id recipient_id).
Proof.
  unfold body, process_try.
  apply keeps_bind_lift. intros r1 _.
  apply keeps_bind_checked; [apply known_set; simpl; auto|].
  intros store_code _.
  apply keeps_bind_lift. intros r2 _.
  apply keeps_bind_checked; [apply known_set; simpl; auto|].
  intros file_bytes _.
  apply keeps_bind_lift. intros processed _.
  apply keeps_bind_lift. intros r3 _.
  apply keeps_bind_checked; [apply known_set; simpl; auto|].
  intros document _. cbv zeta.
  destruct (negb (opt_truthy (title (data (parse_document_entities document))))).
  { apply keeps_bind; [apply known_emit|]. intros _.
    apply keeps_bind; [apply keeps_lift|]. intros _.
    apply keeps_fail_with, known_set. simpl. auto. }
  destruct (negb (existsb _ config.KEYWORDS)).
  { apply keeps_fail_with, known_set. simpl. auto. }
  destruct (generate_csv_content _) as [csv_content err].
  apply keeps_bind.
  { destruct (opt_truthy err); [|apply keeps_ret].
    apply keeps_fail_with, known_set. simpl. auto 6. }
  intros _. apply keeps_bind_lift. intros csv_bytes _.
  apply keeps_bind.
  { apply keeps_try; [|intros e; apply keeps_ret].
    apply keeps_bind; [apply known_emit|]. intros _. apply keeps_lift. }
  intros _. apply keeps_bind; [apply known_emit|]. intros _.
  apply keeps_bind_lift. intros r4 _.
  apply keeps_bind_checked; [apply known_set; simpl; auto 7|].
  intros _ _.
  apply keeps_bind; [apply send_text_known|]. intros err_send.
  destruct (opt_truthy err_send); [apply keeps_raise | apply keeps_ret].
Qed.

Lemma handler_outcome recipient_id e s :
  exists e',
    handler recipient_id e s
    = (Raise e',
       {| trace := trace s
                   ++ [SendMessage recipient_id
                         (if negb (truthy (user_facing_error s))
                          then MSG_UNEXPECTED else user_facing_error s)];
          user_facing_error := user_facing_error s |}).
Proof.
  unfold handler, process_except, send_text, bindE, get_user_facing_error,
    emit, lift, raise. cbn [trace user_facing_error].
  destruct (lineworks_api_send_lw_message _ _) as [err|e']; eauto.
Qed.

(** X26. Whenever the task fails after a recipient was determined, the
    last call it made is a message to that recipient, and the text of
    that message is one of the seven fixed error messages; the exception
    then propagates to the caller. *)
Theorem failure_notifies_recipient (file_id user_id channel_id : option pystr)
    (r : pystr) (e : exn) :
  recipient_of user_id channel_id = Some r -> r <> [] ->
  fst (run file_id user_id channel_id) = Raise e ->
  exists calls msg,
    trace (snd (run file_id user_id channel_id))
    = calls ++ [SendMessage r msg] /\
    In msg USER_ERROR_MESSAGES.
Proof.
  intros Hr Hne.
  rewrite (@run_task_unfold file_id user_id channel_id r Hr Hne).
  unfold try_exceptE.
  pose proof (@body_known file_id user_id r
                {| trace := []; user_facing_error := [] |}) as Hknown.
  destruct (body file_id user_id r _) as [[[]|e1] s1]; [discriminate|].
  intros _.
  destruct (handler_outcome r e1 s1) as (e' & ->). cbn [snd trace].
  eexists. eexists. split; [reflexivity|].
  specialize (Hknown (or_introl eq_refl)). cbn [snd] in Hknown.
  destruct Hknown as [E|Hin].
  - rewrite E. simpl. auto 8.
  - destruct (user_facing_error s1) as [|c0 cs]; [simpl; auto 8 | exact Hin].
Qed.

Let justified (file_id user_id : option pystr) :=
  upload_is_justified lineworks_api_get_store_code_by_user
    lineworks_api_download_lw_attachment image_processor_process_image
    document_ai_processor_process_document timestamp_str file_id user_id.

Let uploads_justified (file_id user_id : option pystr) (s : TaskState) :=
  Forall (justified file_id user_id) (trace s).

Lemma justified_emit file_id user_id ev :
  justified file_id user_id ev ->
  keeps (uploads_justified file_id user_id) (emit ev).
Proof.
  intros Hev s H. unfold uploads_justified, emit. cbn [snd trace].
  apply Forall_app. split; [exact H | now constructor].
Qed.

Lemma justified_set file_id user_id msg :
  keeps (uploads_justified file_id user_id) (set_user_facing_error msg).
Proof. intros s H. exact H. Qed.

Lemma keyword_title document :
  opt_truthy (title (data (parse_document_entities document))) = true ->
  existsb (eqb match title (data (parse_document_entities document)) with
               | Some t => t
               | None => []
               end) config.KEYWORDS = true ->
  exists t, title (data (parse_document_entities document)) = Some t /\
            In t config.KEYWORDS.
Proof.
  destruct (title (data (parse_document_entities document))) as [t|];
    [|discriminate].
  intros _ H. exists t. split; [reflexivity|].
  apply existsb_exists in H. destruct H as (k & Hk & E).
  apply eqb_eq in E. now subst.
Qed.

Lemma body_justified file_id user_id recipient_id :
  keeps (uploads_justified file_id user_id)
        (body file_id user_id recipient_id).
Proof.
  unfold body, process_try.
  apply keeps_bind_lift. intros r1 Hstore.
  apply keeps_bind_checked; [apply justified_set|]. intros store_code ->.
  apply keeps_bind_lift. intros r2 Hdl.
  apply keeps_bind_checked; [apply justified_set|]. intros file_bytes ->.
  apply keeps_bind_lift. intros processed Himg.
  apply keeps_bind_lift. intros r3 Hdoc.
  apply keeps_bind_checked; [apply justified_set|]. intros document ->.
  cbv zeta.
  destruct (opt_truthy (title (data (parse_document_entities document))))
    eqn:Etitle; cbn [negb].
  2:{ apply keeps_bind; [apply justified_emit; exact I|]. intros _.
      apply keeps_bind; [apply keeps_lift|]. intros _.
      apply keeps_fail_with, justified_set. }
  destruct (existsb _ config.KEYWORDS) eqn:Ekw; cbn [negb].
  2:{ apply keeps_fail_with, justified_set. }
  destruct (keyword_title document Etitle Ekw) as (t & Ht & Hin).
  rewrite Ht.
  destruct (generate_csv_content _) as [csv_content err] eqn:Egen.
  assert (Hcsv : csv_content
                 = fst (generate_csv_content
                          (data (parse_document_entities document))))
    by now rewrite Egen.
  apply keeps_bind.
  { destruct (opt_truthy err); [|apply keeps_ret].
    apply keeps_fail_with, justified_set. }
  intros _. apply keeps_bind_lift. intros csv_bytes Hutf.
  rewrite Hcsv in Hutf.
  apply keeps_bind.
  { apply keeps_try; [|intros e; apply keeps_ret].
    apply keeps_bind; [|intros _; apply keeps_lift].
    apply justified_emit.
    exists store_code, file_bytes, processed, document, t, csv_bytes.
    repeat (split; [assumption|]). left. reflexivity. }
  intros _. apply keeps_bind.
  { apply justified_emit.
    exists store_code, file_bytes, processed, document, t, csv_bytes.
    repeat (split; [assumption|]). right. reflexivity. }
  intros _. apply keeps_bind_lift. intros r4 _.
  apply keeps_bind_checked; [apply justified_set|]. intros _ _.
  apply keeps_bind.
  { unfold send_text. apply keeps_bind; [apply justified_emit; exact I|].
    intros _. apply keeps_lift. }
  intros err_send.
  destruct (opt_truthy err_send); [apply keeps_raise | apply keeps_ret].
Qed.

(** X27. In every run of the task, each upload of results, to the
    archive storage and to S3 alike, carries what that very run derived:
    the store code of the user, the attachment as downloaded and as
    processed, and the CSV bytes and the file name made from the document
    recognised in the processed image, whose parsed title is one of the
    four keywords. A document whose title is missing or is not a keyword
    is therefore never exported, and nothing but the run's own data is. *)
Theorem uploads_only_for_keyword_titles
    (file_id user_id channel_id : option pystr) :
  Forall (upload_is_justified lineworks_api_get_store_code_by_user
            lineworks_api_download_lw_attachment image_processor_process_image
            document_ai_processor_process_document timestamp_str
            file_id user_id)
         (trace (snd (run file_id user_id channel_id))).
Proof.
  unfold run, run_task, process_image_and_reply.
  destruct (negb (opt_truthy _)); [constructor|].
  apply (@keeps_bind unit unit (uploads_justified file_id user_id)).
  - apply justified_set.
  - intros _. apply keeps_try; [apply body_justified|].
    intros e. unfold process_except.
    apply keeps_bind; [intros s H; exact H|]. intros ufe.
    apply keeps_bind; [|intros _; apply keeps_raise].
    unfold send_text. apply keeps_bind; [apply justified_emit; exact I|].
    intros _. apply keeps_lift.
  - constructor.
Qed.

Lemma bindE_Return (A B : Type) (c : Eff A) (k : A -> Eff B) s b s' :
  bindE c k s = (Return b, s') ->
  exists a s1, c s = (Return a, s1) /\ k a s1 = (Return b, s').
Proof.
  unfold bindE. destruct (c s) as [[a|e] s1]; [eauto | discriminate].
Qed.

Lemma lift_Return (A : Type) (c : M A) s a s1 :
  lift c s = (Return a, s1) -> c = Return a /\ s1 = s.
Proof. unfold lift. intros [= -> ->]. auto. Qed.

Lemma checked_Return (A : Type) (r : Reply A) msg prefix s a s1 :
  checked r msg prefix s = (Return a, s1) -> r = Value a /\ s1 = s.
Proof.
  destruct r as [v|err]; unfold checked, ret, fail_with, bindE,
    set_user_facing_error, raise.
  - intros [= -> ->]. auto.
  - discriminate.
Qed.

Lemma guarded_upload (ev : Event) (c : M unit) s :
  try_exceptE (bindE (emit ev) (fun _ => lift c)) (fun _ => ret tt) s
  = (Return tt,
     {| trace := trace s ++ [ev]; user_facing_error := user_facing_error s |}).
Proof.
  unfold try_exceptE, bindE, emit, lift, ret.
  destruct c as [[]|e]; reflexivity.
Qed.

Lemma send_text_Return recipient_id text s err s1 :
  send_text lineworks_api_send_lw_message recipient_id text s
  = (Return err, s1) ->
  lineworks_api_send_lw_message recipient_id text = Return err /\
  s1 = {| trace := trace s ++ [SendMessage recipient_id text];
          user_facing_error := user_facing_error s |}.
Proof.
  unfold send_text, bindE, emit, lift.
  destruct (lineworks_api_send_lw_message _ _); [|discriminate].
  now intros [= <- <-].
Qed.

(** X28. When the task completes without raising, the store-code lookup,
    the download, the image processing, the recognition, the UTF-8
    encoding of the CSV text and the upload to S3 each returned a value
    and no error, the sending of the message returned no error, and the
    parsed title is one of the keywords. The calls it made are exactly
    three, in this order: the upload of the results to the archive
    storage, the upload of the CSV bytes to S3 under the generated file
    name, and one message to the recipient, which quotes the title and
    carries the warning of the parser if there is one, the notice of
    completion if not. Nothing is concluded about the outcome of the
    upload to the archive storage: an exception it raises is caught and
    the task goes on. *)
Theorem success_calls (file_id user_id channel_id : option pystr) (r : pystr) :
  recipient_of user_id channel_id = Some r -> r <> [] ->
  fst (run file_id user_id channel_id) = Return tt ->
  exists store_code file_bytes processed document t csv_bytes s3_result
         err_send,
    let csv_filename := generate_csv_filename timestamp_str store_code (Some t) in
    let success_message :=
      if opt_truthy (warning (parse_document_entities document))
      then QUOTE_OPEN ++ t ++ QUOTE_CLOSE
           ++ match warning (parse_document_entities document) with
              | Some w => w
              | None => []
              end
      else QUOTE_OPEN ++ t ++ SUCCESS_SUFFIX in
    lineworks_api_get_store_code_by_user user_id = Return (Value store_code) /\
    lineworks_api_download_lw_attachment file_id = Return (Value file_bytes) /\
    image_processor_process_image file_bytes = Return processed /\
    document_ai_processor_process_document processed (py "image/jpeg")
    = Return (Value document) /\
    title (data (parse_document_entities document)) = Some t /\
    In t config.KEYWORDS /\
    utf8_encode (fst (generate_csv_content
                        (data (parse_document_entities document))))
    = Return csv_bytes /\
    s3_uploader_upload_to_s3 csv_bytes csv_filename
    = Return (Value s3_result) /\
    lineworks_api_send_lw_message r success_message = Return err_send /\
    opt_truthy err_send = false /\
    trace (snd (run file_id user_id channel_id))
    = [ UploadProcessedResults
          (review_needed (parse_document_entities document)) store_code
          csv_filename file_bytes csv_bytes processed;
        UploadToS3 csv_bytes csv_filename;
        SendMessage r success_message ].
Proof.
  intros Hr Hne.
  rewrite (@run_task_unfold file_id user_id channel_id r Hr Hne).
  unfold try_exceptE.
  destruct (body file_id user_id r _) as [[[]|e1] s'] eqn:H.
  2:{ destruct (handler_outcome r e1 s') as (e' & ->). discriminate. }
  intros _. cbn [snd].
  unfold body, process_try in H.
  apply bindE_Return in H. destruct H as (r1 & s1 & H1 & H).
  apply lift_Return in H1. destruct H1 as [Hstore ->].
  apply bindE_Return in H. destruct H as (store_code & s2 & H2 & H).
  apply checked_Return in H2. destruct H2 as [-> ->].
  apply bindE_Return in H. destruct H as (r2 & s3 & H3 & H).
  apply lift_Return in H3. destruct H3 as [Hdl ->].
  apply bindE_Return in H. destruct H as (file_bytes & s4 & H4 & H).
  apply checked_Return in H4. destruct H4 as [-> ->].
  apply bindE_Return in H. destruct H as (processed & s5 & H5 & H).
  apply lift_Return in H5. destruct H5 as [Himg ->].
  apply bindE_Return in H. destruct H as (r3 & s6 & H6 & H).
  apply lift_Return in H6. destruct H6 as [Hdoc ->].
  apply bindE_Return in H. destruct H as (document & s7 & H7 & H).
  apply checked_Return in H7. destruct H7 as [-> ->].
  cbv zeta in H.
  destruct (opt_truthy (title (data (parse_document_entities document))))
    eqn:Etitle; cbn [negb] in H.
  2:{ apply bindE_Return in H. destruct H as (u1 & t1 & _ & H).
      apply bindE_Return in H. destruct H as (u2 & t2 & _ & H).
      discriminate H. }
  destruct (existsb _ config.KEYWORDS) eqn:Ekw; cbn [negb] in H.
  2:{ discriminate H. }
  destruct (keyword_title document Etitle Ekw) as (t & Ht & Hin).
  rewrite Ht in H.
  destruct (generate_csv_content _) as [csv_content err] eqn:Egen.
  assert (Hcsv : csv_content
                 = fst (generate_csv_content
                          (data (parse_document_entities document))))
    by now rewrite Egen.
  assert (Herr : err = None) by (unfold generate_csv_content in Egen; congruence).
  subst err. cbn [opt_truthy] in H.
  apply bindE_Return in H. destruct H as (u3 & t3 & H8 & H).
  injection H8 as _ <-.
  apply bindE_Return in H. destruct H as (csv_bytes & t4 & H9 & H).
  apply lift_Return in H9. destruct H9 as [Hutf ->].
  apply bindE_Return in H. destruct H as (u4 & t5 & H10 & H).
  rewrite guarded_upload in H10. injection H10 as _ <-.
  apply bindE_Return in H. destruct H as (u5 & t6 & H11 & H).
  injection H11 as _ <-.
  apply bindE_Return in H. destruct H as (r4 & t7 & H12 & H).
  apply lift_Return in H12. destruct H12 as [Hs3 ->].
  apply bindE_Return in H. destruct H as (s3_result & t8 & H13 & H).
  apply checked_Return in H13. destruct H13 as [-> ->].
  apply bindE_Return in H. destruct H as (err_send & t9 & H14 & H).
  apply send_text_Return in H14. destruct H14 as [Hsend ->].
  destruct (opt_truthy err_send) eqn:Esend; [discriminate H|].
  injection H as <-.
  exists store_code, file_bytes, processed, document, t, csv_bytes, s3_result,
    err_send.
  cbv zeta. rewrite <- Hcsv.
  repeat split; assumption.
Qed.

Lemma body_until_document (file_id user_id : option pystr)
    (r store_code : pystr) (file_bytes processed : bytes)
    (document : Document) s :
  lineworks_api_get_store_code_by_user user_id = Return (Value store_code) ->
  lineworks_api_download_lw_attachment file_id = Return (Value file_bytes) ->
  image_processor_process_image file_bytes = Return processed ->
  document_ai_processor_process_document processed (py "image/jpeg")
  = Return (Value document) ->
  body file_id user_id r s
  = (if negb (opt_truthy (title (data (parse_document_entities document))))
     then
       match gcs_uploader_upload_error_image store_code file_bytes processed
       with
       | Return _ =>
         (Raise EXC_NO_DATA,
          {| trace := trace s
                      ++ [UploadErrorImage store_code file_bytes processed];
             user_facing_error := MSG_RETAKE |})
       | Raise e =>
         (Raise e,
          {| trace := trace s
                      ++ [UploadErrorImage store_code file_bytes processed];
             user_facing_error := user_facing_error s |})
       end
     else if negb (existsb
                     (eqb match title (data (parse_document_entities document))
                          with Some t => t | None => [] end)
                     config.KEYWORDS)
     then
       (Raise (EXC_TITLE_PREFIX
               ++ match title (data (parse_document_entities document))
                  with Some t => t | None => [] end
               ++ EXC_TITLE_SUFFIX),
        {| trace := trace s; user_facing_error := MSG_RETAKE |})
     else body file_id user_id r s).
Proof.
  intros Hstore Hdl Himg Hdoc.
  destruct (negb (opt_truthy (title (data (parse_document_entities document)))))
    eqn:E1.
  - unfold body, process_try.
    cbv [bindE lift checked ret fail_with raise set_user_facing_error emit].
    rewrite Hstore. cbv beta iota. rewrite Hdl. cbv beta iota.
    rewrite Himg. cbv beta iota. rewrite Hdoc. cbv beta iota zeta.
    rewrite E1. cbv beta iota.
    destruct (gcs_uploader_upload_error_image _ _ _); reflexivity.
  - destruct (negb (existsb _ config.KEYWORDS)) eqn:E2; [|reflexivity].
    unfold body, process_try.
    cbv [bindE lift checked ret fail_with raise set_user_facing_error emit].
    rewrite Hstore. cbv beta iota. rewrite Hdl. cbv beta iota.
    rewrite Himg. cbv beta iota. rewrite Hdoc. cbv beta iota zeta.
    rewrite E1. cbv beta iota. rewrite E2. reflexivity.
Qed.

(** X29. When the recognised document has no title, or an empty one,
    the task stores the original and the processed image for review, tells
    the recipient to take the photograph again (or, should that storing
    itself raise, that an unexpected problem occurred), exports nothing
    and raises. *)
Theorem missing_title_keeps_image (file_id user_id channel_id : option pystr)
    (r store_code : pystr) (file_bytes processed : bytes)
    (document : Document) :
  recipient_of user_id channel_id = Some r -> r <> [] ->
  lineworks_api_get_store_code_by_user user_id = Return (Value store_code) ->
  lineworks_api_download_lw_attachment file_id = Return (Value file_bytes) ->
  image_processor_process_image file_bytes = Return processed ->
  document_ai_processor_process_document processed (py "image/jpeg")
  = Return (Value document) ->
  opt_truthy (title (data (parse_document_entities document))) = false ->
  (exists e, fst (run file_id user_id channel_id) = Raise e) /\
  trace (snd (run file_id user_id channel_id))
  = [ UploadErrorImage store_code file_bytes processed;
      SendMessage r
        match gcs_uploader_upload_error_image store_code file_bytes processed
        with
        | Return _ => MSG_RETAKE
        | Raise _ => MSG_UNEXPECTED
        end ].
Proof.
  intros Hr Hne Hstore Hdl Himg Hdoc Htitle.
  rewrite (@run_task_unfold file_id user_id channel_id r Hr Hne).
  unfold try_exceptE.
  rewrite (@body_until_document file_id user_id r store_code file_bytes
             processed document _ Hstore Hdl Himg Hdoc).
  rewrite Htitle. cbn [negb trace user_facing_error app].
  destruct (gcs_uploader_upload_error_image store_code file_bytes processed)
    as [[]|e0].
  - destruct (handler_outcome r EXC_NO_DATA
                {| trace := [UploadErrorImage store_code file_bytes processed];
                   user_facing_error := MSG_RETAKE |}) as (e' & ->).
    split; [eexists; reflexivity | reflexivity].
  - destruct (handler_outcome r e0
                {| trace := [UploadErrorImage store_code file_bytes processed];
                   user_facing_error := [] |}) as (e' & ->).
    split; [eexists; reflexivity | reflexivity].
Qed.

(** X30. When the recognised document has a title that is not one of
    the keywords, the task makes a single call: it tells the recipient to
    take the photograph again; it stores and exports nothing, and
    raises. *)
Theorem unknown_title_rejected (file_id user_id channel_id : option pystr)
    (r store_code t : pystr) (file_bytes processed : bytes)
    (document : Document) :
  recipient_of user_id channel_id = Some r -> r <> [] ->
  lineworks_api_get_store_code_by_user user_id = Return (Value store_code) ->
  lineworks_api_download_lw_attachment file_id = Return (Value file_bytes) ->
  image_processor_process_image file_bytes = Return processed ->
  document_ai_processor_process_document processed (py "image/jpeg")
  = Return (Value document) ->
  title (data (parse_document_entities document)) = Some t ->
  t <> [] -> ~ In t config.KEYWORDS ->
  (exists e, fst (run file_id user_id channel_id) = Raise e) /\
  trace (snd (run file_id user_id channel_id)) = [SendMessage r MSG_RETAKE].
Proof.
  intros Hr Hne Hstore Hdl Himg Hdoc Htitle Ht Hkw.
  rewrite (@run_task_unfold file_id user_id channel_id r Hr Hne).
  unfold try_exceptE.
  rewrite (@body_until_document file_id user_id r store_code file_bytes
             processed document _ Hstore Hdl Himg Hdoc).
  rewrite Htitle. cbn [opt_truthy].
  apply truthy_true in Ht. rewrite Ht. cbn [negb].
  assert (E : existsb (eqb t) config.KEYWORDS = false).
  { destruct (existsb (eqb t) config.KEYWORDS) eqn:E; [|reflexivity].
    exfalso. apply Hkw. apply existsb_exists in E.
    destruct E as (k & Hk & Ek). apply eqb_eq in Ek. now subst. }
  rewrite E. cbn [negb trace].
  destruct (handler_outcome r (EXC_TITLE_PREFIX ++ t ++ EXC_TITLE_SUFFIX)
              {| trace := []; user_facing_error := MSG_RETAKE |}) as (e' & ->).
  split; [eexists; reflexivity | reflexivity].
Qed.

End TasksFacts.

Lemma failure_notifies_recipient_witness :
  exists calls msg,
    trace (snd (run_task store_code_ok download_fails send_ok process_image_ok
                  (recognises doc_cash_payment) upload_error_image_ok
                  upload_results_ok upload_to_s3_ok (py "20240131093015")
                  (Some (py "f1")) (Some (py "u1")) None))
    = calls ++ [SendMessage (py "u1") msg] /\
    In msg USER_ERROR_MESSAGES.
Proof.
  eapply (@failure_notifies_recipient store_code_ok download_fails send_ok
            process_image_ok (recognises doc_cash_payment)
            upload_error_image_ok upload_results_ok upload_to_s3_ok
            (py "20240131093015") (Some (py "f1")) (Some (py "u1")) None
            (py "u1")).
  - reflexivity.
  - discriminate.
  - vm_compute. reflexivity.
Defined.

Lemma success_calls_witness :
  exists store_code file_bytes processed document t csv_bytes s3_result
         err_send,
    let csv_filename :=
      generate_csv_filename (py "20240131093015") store_code (Some t) in
    let success_message :=
      if opt_truthy (warning (parse_document_entities document))
      then QUOTE_OPEN ++ t ++ QUOTE_CLOSE
           ++ match warning (parse_document_entities document) with
              | Some w => w
              | None => []
              end
      else QUOTE_OPEN ++ t ++ SUCCESS_SUFFIX in
    store_code_ok (Some (py "u1")) = Return (Value store_code) /\
    download_ok (Some (py "f1")) = Return (Value file_bytes) /\
    process_image_ok file_bytes = Return processed /\
    recognises doc_cash_payment processed (py "image/jpeg")
    = Return (Value document) /\
    title (data (parse_document_entities document)) = Some t /\
    In t config.KEYWORDS /\
    utf8_encode (fst (generate_csv_content
                        (data (parse_document_entities document))))
    = Return csv_bytes /\
    upload_to_s3_ok csv_bytes csv_filename = Return (Value s3_result) /\
    send_ok (py "u1") success_message = Return err_send /\
    opt_truthy err_send = false /\
    trace (snd (run_task store_code_ok download_ok send_ok process_image_ok
                  (recognises doc_cash_payment) upload_error_image_ok
                  upload_results_fails upload_to_s3_ok (py "20240131093015")
                  (Some (py "f1")) (Some (py "u1")) None))
    = [ UploadProcessedResults
          (review_needed (parse_document_entities document)) store_code
          csv_filename file_bytes csv_bytes processed;
        UploadToS3 csv_bytes csv_filename;
        SendMessage (py "u1") success_message ].
Proof.
  apply (@success_calls store_code_ok download_ok send_ok process_image_ok
           (recognises doc_cash_payment) upload_error_image_ok
           upload_results_fails upload_to_s3_ok (py "20240131093015")
           (Some (py "f1")) (Some (py "u1")) None (py "u1")).
  - reflexivity.
  - discriminate.
  - vm_compute. reflexivity.
Defined.

Lemma missing_title_keeps_image_witness :
  trace (snd (run_task store_code_ok download_ok send_ok process_image_ok
                (recognises doc_overlap_pair) upload_error_image_ok
                upload_results_ok upload_to_s3_ok (py "20240131093015")
                (Some (py "f1")) None (Some (py "c9"))))
  = [ UploadErrorImage (py "S01") [0xFF; 0xD8]%N [0xFF; 0xD8]%N;
      SendMessage (py "c9") MSG_RETAKE ].
Proof.
  apply (@missing_title_keeps_image store_code_ok download_ok send_ok
           process_image_ok (recognises doc_overlap_pair)
           upload_error_image_ok upload_results_ok upload_to_s3_ok
           (py "20240131093015") (Some (py "f1")) None (Some (py "c9"))
           (py "c9") (py "S01") [0xFF; 0xD8]%N [0xFF; 0xD8]%N doc_overlap_pair).
  - reflexivity.
  - discriminate.
  - reflexivity.
  - reflexivity.
  - reflexivity.
  - reflexivity.
  - vm_compute. reflexivity.
Defined.

Lemma unknown_title_rejected_witness :
  trace (snd (run_task store_code_ok download_ok send_ok process_image_ok
                (recognises doc_memo) upload_error_image_ok
                upload_results_ok upload_to_s3_ok (py "20240131093015")
                (Some (py "f1")) (Some (py "u1")) None))
  = [ SendMessage (py "u1") MSG_RETAKE ].
Proof.
  apply (@unknown_title_rejected store_code_ok download_ok send_ok
           process_image_ok (recognises doc_memo)
           upload_error_image_ok upload_results_ok upload_to_s3_ok
           (py "20240131093015") (Some (py "f1")) (Some (py "u1")) None
           (py "u1") (py "S01") (py "memo") [0xFF; 0xD8]%N [0xFF; 0xD8]%N
           doc_memo).
  - reflexivity.
  - discriminate.
  - reflexivity.
  - reflexivity.
  - reflexivity.
  - reflexivity.
  - vm_compute. reflexivity.
  - discriminate.
  - vm_compute. intuition discriminate.
Defined.

Lemma no_recipient_no_effect_witness :
  run_task store_code_ok download_ok send_ok process_image_ok
    (recognises doc_cash_payment) upload_error_image_ok upload_results_ok
    upload_to_s3_ok (py "20240131093015") (Some (py "f1")) None (Some [])
  = (Raise ERR_NO_RECIPIENT, {| trace := []; user_facing_error := [] |}).
Proof.
  apply (@no_recipient_no_effect store_code_ok download_ok send_ok
           process_image_ok (recognises doc_cash_payment)
           upload_error_image_ok upload_results_ok upload_to_s3_ok
           (py "20240131093015") (Some (py "f1")) None (Some [])).
  reflexivity.
Defined.
